(** * The Zebra client library (lib/zclient.c): model and specification

    A shallow embedding of the client side of the Zebra protocol: the
    connection life cycle with its retry back-off, the on-connect
    handshake, the message encoders and the inbound dispatcher.

    The C code mutates one [struct zclient] and talks to the outside world
    (socket, timers, poll file).  Both are threaded explicitly through a
    state-and-error monad [M]: the state is the [world] (the client record,
    the global nexus pointer, the behaviour of the kernel and the trace of
    I/O done so far) and the error [None] stands for executions the C code
    leaves undefined (an array index out of bounds, a NULL token
    dereferenced) or that the stream library aborts (a write past the
    capacity of a stream). *)

From Stdlib Require Import ZArith List Lia Sorted.
From stdpp Require Import base tactics option list numbers.

Local Open Scope Z_scope.

(** ** Constants of headers that are not part of this file

    [zebra.h], [zclient.h] and [route_types.h] give the message codes, the
    flag bits and the table sizes.  Their values are left open: every
    result below holds for all of them. *)

Class zebra_h := {
  ZEBRA_ROUTE_MAX : Z;
  ZEBRA_MAX_PACKET_SIZ : Z;
  ZEBRA_INTERFACE_ADD : Z;
  ZEBRA_INTERFACE_DELETE : Z;
  ZEBRA_INTERFACE_ADDRESS_ADD : Z;
  ZEBRA_INTERFACE_ADDRESS_DELETE : Z;
  ZEBRA_INTERFACE_UP : Z;
  ZEBRA_INTERFACE_DOWN : Z;
  ZEBRA_IPV4_ROUTE_ADD : Z;
  ZEBRA_IPV4_ROUTE_DELETE : Z;
  ZEBRA_IPV6_ROUTE_ADD : Z;
  ZEBRA_IPV6_ROUTE_DELETE : Z;
  ZEBRA_REDISTRIBUTE_ADD : Z;
  ZEBRA_REDISTRIBUTE_DELETE : Z;
  ZEBRA_REDISTRIBUTE_DEFAULT_ADD : Z;
  ZEBRA_REDISTRIBUTE_DEFAULT_DELETE : Z;
  ZEBRA_ROUTER_ID_ADD : Z;
  ZEBRA_ROUTER_ID_UPDATE : Z;
  ZEBRA_HELLO : Z;
  ZAPI_MESSAGE_NEXTHOP : Z;
  ZAPI_MESSAGE_DISTANCE : Z;
  ZAPI_MESSAGE_METRIC : Z;
  ZEBRA_FLAG_BLACKHOLE : Z;
  ZEBRA_NEXTHOP_IFINDEX : Z;
  ZEBRA_NEXTHOP_IPV4 : Z;
  ZEBRA_NEXTHOP_IPV6 : Z;
  ZEBRA_NEXTHOP_BLACKHOLE : Z
}.

(** The values GNU Zebra's headers give these constants; they serve the
    concrete evaluations only. *)
Definition quagga_h : zebra_h := {|
  ZEBRA_ROUTE_MAX := 11;
  ZEBRA_MAX_PACKET_SIZ := 4096;
  ZEBRA_INTERFACE_ADD := 1;
  ZEBRA_INTERFACE_DELETE := 2;
  ZEBRA_INTERFACE_ADDRESS_ADD := 3;
  ZEBRA_INTERFACE_ADDRESS_DELETE := 4;
  ZEBRA_INTERFACE_UP := 5;
  ZEBRA_INTERFACE_DOWN := 6;
  ZEBRA_IPV4_ROUTE_ADD := 7;
  ZEBRA_IPV4_ROUTE_DELETE := 8;
  ZEBRA_IPV6_ROUTE_ADD := 9;
  ZEBRA_IPV6_ROUTE_DELETE := 10;
  ZEBRA_REDISTRIBUTE_ADD := 11;
  ZEBRA_REDISTRIBUTE_DELETE := 12;
  ZEBRA_REDISTRIBUTE_DEFAULT_ADD := 13;
  ZEBRA_REDISTRIBUTE_DEFAULT_DELETE := 14;
  ZEBRA_ROUTER_ID_ADD := 20;
  ZEBRA_ROUTER_ID_UPDATE := 22;
  ZEBRA_HELLO := 23;
  ZAPI_MESSAGE_NEXTHOP := 1;
  ZAPI_MESSAGE_DISTANCE := 4;
  ZAPI_MESSAGE_METRIC := 8;
  ZEBRA_FLAG_BLACKHOLE := 4;
  ZEBRA_NEXTHOP_IFINDEX := 1;
  ZEBRA_NEXTHOP_IPV4 := 3;
  ZEBRA_NEXTHOP_IPV6 := 6;
  ZEBRA_NEXTHOP_BLACKHOLE := 9
|}.

(** Modelled from the spec: the size of the message header is not defined
    in this file; the spec fixes it ("HEADER_SIZE = 6": two-byte length,
    marker, version, two-byte command). *)
Definition ZEBRA_HEADER_SIZE : Z := 6.

(** Modelled from the spec: the marker byte of the header, "marker:u8 =
    0xFF (constant)". *)
Definition ZEBRA_HEADER_MARKER : Z := 255.

(** Modelled from the spec: the protocol version, "version:u8 = 2
    (constant)". *)
Definition ZSERV_VERSION : Z := 2.

(** Modelled from the spec: the macro of prefix.h, "PSIZE(n) = (n + 7) / 8". *)
Definition PSIZE (a : Z) : Z := (a + 7) / 8.

(** Modelled from the spec: the flag test of zebra.h; the spec's "if
    NEXTHOP set" is the bitwise test of the flag in the flag byte. *)
Definition CHECK_FLAG (V F : Z) : Z := Z.land V F.

(** A C integer used as a condition. *)
Definition truthy (x : Z) : bool := negb (x =? 0).

(** Reading and writing an array of [ZEBRA_ROUTE_MAX] bytes by a C [int]
    index.  An index out of the bounds is undefined in C: [None]. *)
Definition array_get (a : list Z) (i : Z) : option Z :=
  if i <? 0 then None else a !! Z.to_nat i.

Definition array_set (a : list Z) (i : Z) (v : Z) : option (list Z) :=
  if (0 <=? i) && (i <? Z.of_nat (length a))
  then Some (<[Z.to_nat i := v]> a) else None.

(** ** The stream library *)

(** Modelled from the spec: the stream library (stream.h) is not part of
    the sources.  A stream is a byte buffer of a fixed capacity with a
    write cursor ("bytes received", [stream_get_endp]) and a read cursor;
    all integers are serialised big-endian.  [st_data] holds the bytes in
    front of the write cursor, so the write cursor is its length.  What the
    library does with a write that does not fit the capacity, or with a
    read behind the write cursor, is not said: such calls are [None]. *)
Record stream := mk_stream {
  st_size : Z;
  st_getp : Z;
  st_data : list Z
}.

Definition stream_new (size : Z) : stream :=
  {| st_size := size; st_getp := 0; st_data := [] |}.

Definition stream_get_endp (s : stream) : Z := Z.of_nat (length (st_data s)).

Definition stream_get_size (s : stream) : Z := st_size s.

Definition STREAM_WRITEABLE (s : stream) : Z := st_size s - stream_get_endp s.

Definition stream_reset (s : stream) : stream :=
  {| st_size := st_size s; st_getp := 0; st_data := [] |}.

(** Appending raw bytes at the write cursor, when they fit. *)
Definition stream_append (s : stream) (bs : list Z) : option stream :=
  if Z.of_nat (length bs) <=? STREAM_WRITEABLE s
  then Some {| st_size := st_size s; st_getp := st_getp s;
               st_data := st_data s ++ bs |}
  else None.

(** The big-endian bytes of a 16-bit and of a 32-bit value. *)
Definition be16 (w : Z) : list Z := [(w / 256) mod 256; w mod 256].

Definition be32 (l : Z) : list Z :=
  [(l / 16777216) mod 256; (l / 65536) mod 256; (l / 256) mod 256; l mod 256].

Definition stream_putc (s : stream) (c : Z) : option stream :=
  stream_append s [c mod 256].

Definition stream_putw (s : stream) (w : Z) : option stream :=
  stream_append s (be16 w).

Definition stream_putl (s : stream) (l : Z) : option stream :=
  stream_append s (be32 l).

(** [stream_put s src size] copies [size] bytes from the object [src];
    reading more bytes than the object has is undefined. *)
Definition stream_put (s : stream) (src : list Z) (size : Z) : option stream :=
  if (0 <=? size) && (size <=? Z.of_nat (length src))
  then stream_append s (take (Z.to_nat size) src)
  else None.

(** An [in_addr] is kept as its four bytes in memory (network order). *)
Definition stream_put_in_addr (s : stream) (addr : list Z) : option stream :=
  stream_put s addr 4.

(** Overwriting two bytes that are already in front of the write cursor. *)
Definition stream_putw_at (s : stream) (putp : Z) (w : Z) : option stream :=
  if (0 <=? putp) && (putp + 2 <=? stream_get_endp s)
  then Some {| st_size := st_size s; st_getp := st_getp s;
               st_data := take (Z.to_nat putp) (st_data s) ++ be16 w
                          ++ drop (Z.to_nat putp + 2) (st_data s) |}
  else None.

Definition stream_set_getp (s : stream) (pos : Z) : option stream :=
  if (0 <=? pos) && (pos <=? stream_get_endp s)
  then Some {| st_size := st_size s; st_getp := pos; st_data := st_data s |}
  else None.

Definition stream_getc (s : stream) : option (Z * stream) :=
  if st_getp s <? 0 then None else
  match st_data s !! Z.to_nat (st_getp s) with
  | Some c => Some (c, {| st_size := st_size s; st_getp := st_getp s + 1;
                          st_data := st_data s |})
  | None => None
  end.

Definition stream_getw (s : stream) : option (Z * stream) :=
  match stream_getc s with
  | Some (hi, s1) =>
      match stream_getc s1 with
      | Some (lo, s2) => Some (hi * 256 + lo, s2)
      | None => None
      end
  | None => None
  end.

(** [stream_copy new src]: the bytes and both cursors of [src] in a stream
    of the capacity of [new]. *)
Definition stream_copy (new src : stream) : option stream :=
  if stream_get_endp src <=? st_size new
  then Some {| st_size := st_size new; st_getp := st_getp src;
               st_data := st_data src |}
  else None.

(** The 16-bit value at the front of a frame, as the peer reads it. *)
Definition frame_length_field (f : list Z) : option Z :=
  match f with
  | hi :: lo :: _ => Some (hi * 256 + lo)
  | _ => None
  end.

(** ** Event tokens of the two back-ends *)

(** Zebra client events. *)
Inductive event := ZLOOKUP_SCHEDULE | ZCLIENT_SCHEDULE | ZCLIENT_READ | ZCLIENT_CONNECT.

(** The callbacks this file hands to the thread scheduler. *)
Inductive thread_func :=
  | F_zclient_connect_t | F_zlookup_connect_t | F_zclient_read_t | F_zclient_flush_data_t.

(** Modelled from the spec: the callback-thread scheduler (thread.h) is not
    part of the sources; the spec gives its four primitives, "add_event(fn)
    (run once as soon as possible), add_timer(fn, seconds), add_read(fn,
    fd), add_write(fn, fd), each returning a cancellable token".  A token
    records which primitive made it and the callback. *)
Inductive thread_type :=
  | THREAD_EVENT | THREAD_TIMER (secs : Z) | THREAD_READ (fd : Z) | THREAD_WRITE (fd : Z).

Record thread := mk_thread { th_type : thread_type; th_func : thread_func }.

(** The callbacks this file hands to the nexus. *)
Inductive qtimer_action := A_zclient_connect_r | A_zlookup_connect_r.

Inductive qps_action := A_zclient_read_r | A_zclient_flush_data_r.

(** Modelled from the spec: the polling reactor (qpselect, qtimers) is not
    part of the sources; the spec gives "a per-handle registered poll file
    with bit-granular enable/disable of read/write interest, and a one-shot
    per-handle timer driven by a monotonic clock".  A timer that is set
    holds its delay from now in seconds and its action. *)
Record qps_file := mk_qps_file {
  qf_fd : Z;
  qf_read : option qps_action;
  qf_write : option qps_action
}.

Record qtimer := mk_qtimer { qtr_set : option (Z * qtimer_action) }.

Definition qps_file_init_new : qps_file :=
  {| qf_fd := -1; qf_read := None; qf_write := None |}.

Definition qtimer_init_new : qtimer := {| qtr_set := None |}.

Definition qps_add_file (f : qps_file) (fd : Z) : qps_file :=
  {| qf_fd := fd; qf_read := None; qf_write := None |}.

Definition qps_remove_file (f : qps_file) : qps_file :=
  {| qf_fd := qf_fd f; qf_read := None; qf_write := None |}.

Definition qps_file_unset_fd (f : qps_file) : qps_file :=
  {| qf_fd := -1; qf_read := qf_read f; qf_write := qf_write f |}.

Definition qps_enable_read (f : qps_file) (a : qps_action) : qps_file :=
  {| qf_fd := qf_fd f; qf_read := Some a; qf_write := qf_write f |}.

Definition qps_enable_write (f : qps_file) (a : qps_action) : qps_file :=
  {| qf_fd := qf_fd f; qf_read := qf_read f; qf_write := Some a |}.

Definition qps_disable_read (f : qps_file) : qps_file :=
  {| qf_fd := qf_fd f; qf_read := None; qf_write := qf_write f |}.

Definition qps_disable_write (f : qps_file) : qps_file :=
  {| qf_fd := qf_fd f; qf_read := qf_read f; qf_write := None |}.

(** [qtimer_is_active] is called on the NULL timer of a client of the
    thread back-end (in [zclient_start]), where it answers no. *)
Definition qtimer_is_active (t : option qtimer) : bool :=
  match t with
  | Some q => bool_decide (is_Some (qtr_set q))
  | None => false
  end.

Definition qtimer_set (secs : Z) (a : qtimer_action) : qtimer :=
  {| qtr_set := Some (secs, a) |}.

Definition qtimer_unset : qtimer := {| qtr_set := None |}.

(** ** The client handle *)

(** [struct zclient], without its table of handlers (see [handlers]).  The
    array [redist] has [ZEBRA_ROUTE_MAX] entries. *)
Record zclient := mk_zclient {
  sock : Z;
  enable : Z;
  fail : Z;
  redist_default : Z;
  redist : list Z;
  default_information : Z;
  ibuf : stream;
  obuf : stream;
  wb : list Z;
  t_read : option thread;
  t_write : option thread;
  t_connect : option thread;
  qf : option qps_file;
  qtr : option qtimer
}.

Definition set_sock (v : Z) (c : zclient) : zclient :=
  {| sock := v; enable := enable c; fail := fail c;
     redist_default := redist_default c; redist := redist c;
     default_information := default_information c; ibuf := ibuf c;
     obuf := obuf c; wb := wb c; t_read := t_read c; t_write := t_write c;
     t_connect := t_connect c; qf := qf c; qtr := qtr c |}.

Definition set_enable (v : Z) (c : zclient) : zclient :=
  {| sock := sock c; enable := v; fail := fail c;
     redist_default := redist_default c; redist := redist c;
     default_information := default_information c; ibuf := ibuf c;
     obuf := obuf c; wb := wb c; t_read := t_read c; t_write := t_write c;
     t_connect := t_connect c; qf := qf c; qtr := qtr c |}.

Definition set_fail (v : Z) (c : zclient) : zclient :=
  {| sock := sock c; enable := enable c; fail := v;
     redist_default := redist_default c; redist := redist c;
     default_information := default_information c; ibuf := ibuf c;
     obuf := obuf c; wb := wb c; t_read := t_read c; t_write := t_write c;
     t_connect := t_connect c; qf := qf c; qtr := qtr c |}.

Definition set_redist_default (v : Z) (c : zclient) : zclient :=
  {| sock := sock c; enable := enable c; fail := fail c;
     redist_default := v; redist := redist c;
     default_information := default_information c; ibuf := ibuf c;
     obuf := obuf c; wb := wb c; t_read := t_read c; t_write := t_write c;
     t_connect := t_connect c; qf := qf c; qtr := qtr c |}.

Definition set_redist (v : list Z) (c : zclient) : zclient :=
  {| sock := sock c; enable := enable c; fail := fail c;
     redist_default := redist_default c; redist := v;
     default_information := default_information c; ibuf := ibuf c;
     obuf := obuf c; wb := wb c; t_read := t_read c; t_write := t_write c;
     t_connect := t_connect c; qf := qf c; qtr := qtr c |}.

Definition set_default_information (v : Z) (c : zclient) : zclient :=
  {| sock := sock c; enable := enable c; fail := fail c;
     redist_default := redist_default c; redist := redist c;
     default_information := v; ibuf := ibuf c;
     obuf := obuf c; wb := wb c; t_read := t_read c; t_write := t_write c;
     t_connect := t_connect c; qf := qf c; qtr := qtr c |}.

Definition set_ibuf (v : stream) (c : zclient) : zclient :=
  {| sock := sock c; enable := enable c; fail := fail c;
     redist_default := redist_default c; redist := redist c;
     default_information := default_information c; ibuf := v;
     obuf := obuf c; wb := wb c; t_read := t_read c; t_write := t_write c;
     t_connect := t_connect c; qf := qf c; qtr := qtr c |}.

Definition set_obuf (v : stream) (c : zclient) : zclient :=
  {| sock := sock c; enable := enable c; fail := fail c;
     redist_default := redist_default c; redist := redist c;
     default_information := default_information c; ibuf := ibuf c;
     obuf := v; wb := wb c; t_read := t_read c; t_write := t_write c;
     t_connect := t_connect c; qf := qf c; qtr := qtr c |}.

Definition set_wb (v : list Z) (c : zclient) : zclient :=
  {| sock := sock c; enable := enable c; fail := fail c;
     redist_default := redist_default c; redist := redist c;
     default_information := default_information c; ibuf := ibuf c;
     obuf := obuf c; wb := v; t_read := t_read c; t_write := t_write c;
     t_connect := t_connect c; qf := qf c; qtr := qtr c |}.

Definition set_t_read (v : option thread) (c : zclient) : zclient :=
  {| sock := sock c; enable := enable c; fail := fail c;
     redist_default := redist_default c; redist := redist c;
     default_information := default_information c; ibuf := ibuf c;
     obuf := obuf c; wb := wb c; t_read := v; t_write := t_write c;
     t_connect := t_connect c; qf := qf c; qtr := qtr c |}.

Definition set_t_write (v : option thread) (c : zclient) : zclient :=
  {| sock := sock c; enable := enable c; fail := fail c;
     redist_default := redist_default c; redist := redist c;
     default_information := default_information c; ibuf := ibuf c;
     obuf := obuf c; wb := wb c; t_read := t_read c; t_write := v;
     t_connect := t_connect c; qf := qf c; qtr := qtr c |}.

Definition set_t_connect (v : option thread) (c : zclient) : zclient :=
  {| sock := sock c; enable := enable c; fail := fail c;
     redist_default := redist_default c; redist := redist c;
     default_information := default_information c; ibuf := ibuf c;
     obuf := obuf c; wb := wb c; t_read := t_read c; t_write := t_write c;
     t_connect := v; qf := qf c; qtr := qtr c |}.

Definition set_qf (v : option qps_file) (c : zclient) : zclient :=
  {| sock := sock c; enable := enable c; fail := fail c;
     redist_default := redist_default c; redist := redist c;
     default_information := default_information c; ibuf := ibuf c;
     obuf := obuf c; wb := wb c; t_read := t_read c; t_write := t_write c;
     t_connect := t_connect c; qf := v; qtr := qtr c |}.

Definition set_qtr (v : option qtimer) (c : zclient) : zclient :=
  {| sock := sock c; enable := enable c; fail := fail c;
     redist_default := redist_default c; redist := redist c;
     default_information := default_information c; ibuf := ibuf c;
     obuf := obuf c; wb := wb c; t_read := t_read c; t_write := t_write c;
     t_connect := t_connect c; qf := qf c; qtr := v |}.

(** ** The world around the client *)

(** Modelled from the spec: the write buffer (buffer.h) is not part of the
    sources; its operations answer "Empty | Pending | Error". *)
Inductive buffer_status := BUFFER_ERROR | BUFFER_EMPTY | BUFFER_PENDING.

(** What the client does to the outside, in order: a connect attempt and
    the descriptor it got, a frame handed to [buffer_write], a drain of the
    write buffer, a descriptor closed, a registered handler called. *)
Inductive io_event :=
  | IoConnect (fd : Z)
  | IoWrite (fd : Z) (frame : list Z) (st : buffer_status)
  | IoFlush (fd : Z) (st : buffer_status)
  | IoClose (fd : Z)
  | IoHandler (command length : Z).

(** The state threaded through the code.  [zclient_nexus] is the file's
    global nexus pointer (set or NULL) and [zc] the one client.  The kernel
    is an oracle: [k_connect i] is the descriptor (or -1) the [i]-th
    connect attempt gives, [k_write i] how many bytes the [i]-th socket
    write takes ([None]: a hard error), [rxq] the bytes waiting in the
    socket and [rx_idle] what a read gives when none waits (0 closed,
    -1 error, -2 try again). *)
Record world := mk_world {
  zclient_nexus : bool;
  zc : zclient;
  k_connect : nat -> Z;
  n_connect : nat;
  k_write : nat -> option nat;
  n_write : nat;
  rxq : list Z;
  rx_idle : Z;
  trace : list io_event
}.

Definition set_zclient_nexus (v : bool) (w : world) : world :=
  {| zclient_nexus := v; zc := zc w; k_connect := k_connect w;
     n_connect := n_connect w; k_write := k_write w; n_write := n_write w;
     rxq := rxq w; rx_idle := rx_idle w; trace := trace w |}.

Definition set_zc (v : zclient) (w : world) : world :=
  {| zclient_nexus := zclient_nexus w; zc := v; k_connect := k_connect w;
     n_connect := n_connect w; k_write := k_write w; n_write := n_write w;
     rxq := rxq w; rx_idle := rx_idle w; trace := trace w |}.

Definition set_n_connect (v : nat) (w : world) : world :=
  {| zclient_nexus := zclient_nexus w; zc := zc w; k_connect := k_connect w;
     n_connect := v; k_write := k_write w; n_write := n_write w;
     rxq := rxq w; rx_idle := rx_idle w; trace := trace w |}.

Definition set_n_write (v : nat) (w : world) : world :=
  {| zclient_nexus := zclient_nexus w; zc := zc w; k_connect := k_connect w;
     n_connect := n_connect w; k_write := k_write w; n_write := v;
     rxq := rxq w; rx_idle := rx_idle w; trace := trace w |}.

Definition set_rxq (v : list Z) (w : world) : world :=
  {| zclient_nexus := zclient_nexus w; zc := zc w; k_connect := k_connect w;
     n_connect := n_connect w; k_write := k_write w; n_write := n_write w;
     rxq := v; rx_idle := rx_idle w; trace := trace w |}.

Definition set_rx_idle (v : Z) (w : world) : world :=
  {| zclient_nexus := zclient_nexus w; zc := zc w; k_connect := k_connect w;
     n_connect := n_connect w; k_write := k_write w; n_write := n_write w;
     rxq := rxq w; rx_idle := v; trace := trace w |}.

Definition set_trace (v : list io_event) (w : world) : world :=
  {| zclient_nexus := zclient_nexus w; zc := zc w; k_connect := k_connect w;
     n_connect := n_connect w; k_write := k_write w; n_write := n_write w;
     rxq := rxq w; rx_idle := rx_idle w; trace := v |}.

(** ** The monad of the code *)

Definition M (A : Type) : Type := world -> option (A * world).

#[global] Instance M_ret : MRet M := fun A a w => Some (a, w).

#[global] Instance M_bind : MBind M := fun A B k m w =>
  match m w with
  | Some (a, w') => k a w'
  | None => None
  end.

(** An execution the C code leaves undefined. *)
Definition undefined {A : Type} : M A := fun _ => None.

Definition get_world : M world := fun w => Some (w, w).

Definition get_zc : M zclient := fun w => Some (zc w, w).

Definition modify_world (f : world -> world) : M unit :=
  fun w => Some (tt, f w).

Definition modify_zc (f : zclient -> zclient) : M unit :=
  fun w => Some (tt, set_zc (f (zc w)) w).

Definition emit (e : io_event) : M unit :=
  fun w => Some (tt, set_trace (trace w ++ [e]) w).

Definition lift_option {A : Type} (o : option A) : M A :=
  fun w => match o with Some a => Some (a, w) | None => None end.

(** Running stream code on the output and on the input stream of the
    client. *)
Definition on_obuf (f : stream -> option stream) : M unit :=
  c ← get_zc; s ← lift_option (f (obuf c)); modify_zc (set_obuf s).

Definition on_ibuf (f : stream -> option stream) : M unit :=
  c ← get_zc; s ← lift_option (f (ibuf c)); modify_zc (set_ibuf s).

Definition ibuf_get (f : stream -> option (Z * stream)) : M Z :=
  c ← get_zc; r ← lift_option (f (ibuf c));
  modify_zc (set_ibuf r.2);; mret r.1.

(** The frames handed to the write buffer and taken by it, in order. *)
Definition frames_of (t : list io_event) : list (list Z) :=
  omap (fun e => match e with
                 | IoWrite _ f BUFFER_EMPTY | IoWrite _ f BUFFER_PENDING => Some f
                 | _ => None
                 end) t.

Definition sent (w : world) : list (list Z) := frames_of (trace w).

(** ** Arguments of the route encoders *)

(** [struct prefix_ipv4] and [struct prefix_ipv6]: the prefix length and
    the address as its bytes in memory (4 or 16). *)
Record prefix := mk_prefix { prefixlen : Z; prefix_bytes : list Z }.

(** [struct zapi_ipv4] and [struct zapi_ipv6].  The counted arrays
    (nexthop_num, nexthop) and (ifindex_num, ifindex) are kept as lists:
    the count is the length of the list.  A nexthop is the bytes of its
    address in memory (4 for [in_addr], 16 for [in6_addr]). *)
Record zapi := mk_zapi {
  type : Z;
  flags : Z;
  message : Z;
  safi : Z;
  nexthop : list (list Z);
  ifindex : list Z;
  distance : Z;
  metric : Z
}.

Definition nexthop_num (api : zapi) : Z := Z.of_nat (length (nexthop api)).

Definition ifindex_num (api : zapi) : Z := Z.of_nat (length (ifindex api)).

(** ** The code of zclient.c *)

Section Zclient.

Context `{zh : zebra_h}.

(** Allocate zclient structure.  [XCALLOC] gives zeroed memory. *)
Definition zclient_new : M unit :=
  w ← get_world;
  let zclient :=
    {| sock := -1; enable := 0; fail := 0; redist_default := 0;
       redist := replicate (Z.to_nat ZEBRA_ROUTE_MAX) 0;
       default_information := 0;
       ibuf := stream_new ZEBRA_MAX_PACKET_SIZ;
       obuf := stream_new ZEBRA_MAX_PACKET_SIZ;
       wb := [];
       t_read := None; t_write := None; t_connect := None;
       qf := if zclient_nexus w then Some qps_file_init_new else None;
       qtr := if zclient_nexus w then Some qtimer_init_new else None |} in
  modify_zc (fun _ => zclient).

(** Initialize to use a nexus (qpselect etc). *)
Definition zclient_init_r (n : bool) : M unit :=
  modify_world (set_zclient_nexus n).

(** Arm event, nexus version.  Enabling a mode of a NULL poll file or
    setting a NULL timer is undefined. *)
Definition zclient_event_r (ev : event) : M unit :=
  zclient ← get_zc;
  match ev with
  | ZLOOKUP_SCHEDULE =>
      if negb (qtimer_is_active (qtr zclient))
      then match qtr zclient with
           | Some _ => modify_zc (set_qtr (Some (qtimer_set 0 A_zlookup_connect_r)))
           | None => undefined
           end
      else mret tt
  | ZCLIENT_SCHEDULE =>
      if negb (qtimer_is_active (qtr zclient))
      then match qtr zclient with
           | Some _ => modify_zc (set_qtr (Some (qtimer_set 0 A_zclient_connect_r)))
           | None => undefined
           end
      else mret tt
  | ZCLIENT_CONNECT =>
      if fail zclient >=? 10 then mret tt
      else if negb (qtimer_is_active (qtr zclient))
      then match qtr zclient with
           | Some _ =>
               modify_zc (set_qtr (Some (qtimer_set (if fail zclient <? 3 then 10 else 60)
                                                    A_zclient_connect_r)))
           | None => undefined
           end
      else mret tt
  | ZCLIENT_READ =>
      match qf zclient with
      | Some f => modify_zc (set_qf (Some (qps_enable_read f A_zclient_read_r)))
      | None => undefined
      end
  end.

(** Arm event, thread version. *)
Definition zclient_event_t (ev : event) : M unit :=
  zclient ← get_zc;
  match ev with
  | ZLOOKUP_SCHEDULE =>
      if negb (bool_decide (is_Some (t_connect zclient)))
      then modify_zc (set_t_connect (Some (mk_thread THREAD_EVENT F_zlookup_connect_t)))
      else mret tt
  | ZCLIENT_SCHEDULE =>
      if negb (bool_decide (is_Some (t_connect zclient)))
      then modify_zc (set_t_connect (Some (mk_thread THREAD_EVENT F_zclient_connect_t)))
      else mret tt
  | ZCLIENT_CONNECT =>
      if fail zclient >=? 10 then mret tt
      else if negb (bool_decide (is_Some (t_connect zclient)))
      then modify_zc (set_t_connect
                        (Some (mk_thread (THREAD_TIMER (if fail zclient <? 3 then 10 else 60))
                                         F_zclient_connect_t)))
      else mret tt
  | ZCLIENT_READ =>
      modify_zc (set_t_read (Some (mk_thread (THREAD_READ (sock zclient)) F_zclient_read_t)))
  end.

(** Arm event. *)
Definition zclient_event (ev : event) : M unit :=
  w ← get_world;
  if zclient_nexus w then zclient_event_r ev else zclient_event_t ev.

(** Initialize zebra client.  Argument redist_default is unwanted
    redistribute route type.  The loop that clears the flags leaves the
    array all zero. *)
Definition zclient_init (redist_default : Z) : M unit :=
  modify_zc (set_enable 1);;
  modify_zc (set_sock (-1));;
  modify_zc (set_redist (replicate (Z.to_nat ZEBRA_ROUTE_MAX) 0));;
  modify_zc (set_fail 0);;
  modify_zc (set_redist_default redist_default);;
  zclient ← get_zc;
  r ← lift_option (array_set (redist zclient) redist_default 1);
  modify_zc (set_redist r);;
  modify_zc (set_default_information 0);;
  zclient_event ZCLIENT_SCHEDULE.

(** Schedule lookup connection. *)
Definition zlookup_schedule : M unit := zclient_event ZLOOKUP_SCHEDULE.

(** Stop zebra client services. *)
Definition zclient_stop : M unit :=
  modify_zc (set_t_read None);;
  modify_zc (set_t_connect None);;
  modify_zc (set_t_write None);;
  zclient ← get_zc;
  match qf zclient with
  | Some f => modify_zc (set_qf (Some (qps_file_unset_fd (qps_remove_file f))))
  | None => mret tt
  end;;
  match qtr zclient with
  | Some _ => modify_zc (set_qtr (Some qtimer_unset))
  | None => mret tt
  end;;
  modify_zc (fun c => set_ibuf (stream_reset (ibuf c)) c);;
  modify_zc (fun c => set_obuf (stream_reset (obuf c)) c);;
  modify_zc (set_wb []);;
  if sock zclient >=? 0
  then emit (IoClose (sock zclient));; modify_zc (set_sock (-1))
  else mret tt.

Definition zclient_reset : M unit :=
  zclient_stop;;
  zclient ← get_zc;
  zclient_init (redist_default zclient).

(** Connect to zebra daemon: the kernel gives a descriptor or -1. *)
Definition zclient_socket_connect : M Z :=
  w ← get_world;
  let fd := k_connect w (n_connect w) in
  modify_world (fun w => set_n_connect (S (n_connect w)) w);;
  emit (IoConnect fd);;
  modify_zc (set_sock fd);;
  mret fd.

Definition zclient_failed : M Z :=
  modify_zc (fun c => set_fail (fail c + 1) c);;
  zclient_stop;;
  zclient_event ZCLIENT_CONNECT;;
  mret (-1).

(** Modelled from the spec: [buffer_write] of buffer.h "attempts an
    immediate writev-style socket write of the combined pending bytes and
    returns Empty | Pending | Error"; what the socket did not take stays
    in the buffer. *)
Definition buffer_write (fd : Z) (p : list Z) : M buffer_status :=
  fun w =>
    let w1 := set_n_write (S (n_write w)) w in
    match k_write w (n_write w) with
    | None =>
        Some (BUFFER_ERROR, set_trace (trace w ++ [IoWrite fd p BUFFER_ERROR]) w1)
    | Some k =>
        let rest := drop k (wb (zc w) ++ p) in
        let st := match rest with [] => BUFFER_EMPTY | _ => BUFFER_PENDING end in
        Some (st, set_trace (trace w ++ [IoWrite fd p st])
                    (set_zc (set_wb rest (zc w)) w1))
    end.

(** Modelled from the spec: [buffer_flush_available] "attempts to drain
    without new input". *)
Definition buffer_flush_available (fd : Z) : M buffer_status :=
  fun w =>
    let w1 := set_n_write (S (n_write w)) w in
    match k_write w (n_write w) with
    | None => Some (BUFFER_ERROR, set_trace (trace w ++ [IoFlush fd BUFFER_ERROR]) w1)
    | Some k =>
        let rest := drop k (wb (zc w)) in
        let st := match rest with [] => BUFFER_EMPTY | _ => BUFFER_PENDING end in
        Some (st, set_trace (trace w ++ [IoFlush fd st])
                    (set_zc (set_wb rest (zc w)) w1))
    end.

(** The macros of thread.h. *)
Definition THREAD_WRITE_ON (fd : Z) : M unit :=
  zclient ← get_zc;
  if bool_decide (is_Some (t_write zclient)) then mret tt
  else modify_zc (set_t_write (Some (mk_thread (THREAD_WRITE fd) F_zclient_flush_data_t))).

(** Changing the modes of the poll file of the client; on a NULL file it is
    undefined. *)
Definition on_qf (f : qps_file -> qps_file) : M unit :=
  zclient ← get_zc;
  match qf zclient with
  | Some q => modify_zc (set_qf (Some (f q)))
  | None => undefined
  end.

(** Write as much data as possible, nexus version. *)
Definition zclient_flush_data_r : M unit :=
  on_qf qps_disable_write;;
  zclient ← get_zc;
  if sock zclient <? 0 then mret tt
  else
    st ← buffer_flush_available (sock zclient);
    match st with
    | BUFFER_ERROR => zclient_failed;; mret tt
    | BUFFER_PENDING => on_qf (fun q => qps_enable_write q A_zclient_flush_data_r)
    | BUFFER_EMPTY => mret tt
    end.

(** Write as much data as possible, thread version. *)
Definition zclient_flush_data_t : M Z :=
  modify_zc (set_t_write None);;
  zclient ← get_zc;
  if sock zclient <? 0 then mret (-1)
  else
    st ← buffer_flush_available (sock zclient);
    match st with
    | BUFFER_ERROR => zclient_failed
    | BUFFER_PENDING =>
        modify_zc (set_t_write (Some (mk_thread (THREAD_WRITE (sock zclient))
                                                F_zclient_flush_data_t)));;
        mret 0
    | BUFFER_EMPTY => mret 0
    end.

Definition zclient_send_message : M Z :=
  zclient ← get_zc;
  if sock zclient <? 0 then mret (-1)
  else
    st ← buffer_write (sock zclient) (st_data (obuf zclient));
    w ← get_world;
    match st with
    | BUFFER_ERROR => zclient_failed
    | BUFFER_EMPTY =>
        (if zclient_nexus w then on_qf qps_disable_write
         else modify_zc (set_t_write None));;
        mret 0
    | BUFFER_PENDING =>
        (if zclient_nexus w
         then on_qf (fun q => qps_enable_write q A_zclient_flush_data_r)
         else THREAD_WRITE_ON (sock zclient));;
        mret 0
    end.

Definition zclient_create_header (s : stream) (command : Z) : option stream :=
  s ← stream_putw s ZEBRA_HEADER_SIZE;
  s ← stream_putc s ZEBRA_HEADER_MARKER;
  s ← stream_putc s ZSERV_VERSION;
  stream_putw s command.

(** Send simple Zebra message. *)
Definition zebra_message_send (command : Z) : M Z :=
  on_obuf (fun s => zclient_create_header (stream_reset s) command);;
  zclient_send_message.

(** The frame [zebra_hello_send] serialises into the output stream. *)
Definition zebra_hello_obuf (redist_default : Z) (s : stream) : option stream :=
  let s := stream_reset s in
  s ← zclient_create_header s ZEBRA_HELLO;
  s ← stream_putc s redist_default;
  stream_putw_at s 0 (stream_get_endp s).

Definition zebra_hello_send : M Z :=
  zclient ← get_zc;
  if truthy (redist_default zclient)
  then on_obuf (zebra_hello_obuf (redist_default zclient));; zclient_send_message
  else mret 0.

(** The frame [zebra_redistribute_send] serialises into the output stream. *)
Definition zebra_redistribute_obuf (command type : Z) (s : stream) : option stream :=
  let s := stream_reset s in
  s ← zclient_create_header s command;
  s ← stream_putc s type;
  stream_putw_at s 0 (stream_get_endp s).

(** Send a ZEBRA_REDISTRIBUTE_ADD or ZEBRA_REDISTRIBUTE_DELETE for the
    route type. *)
Definition zebra_redistribute_send (command type : Z) : M Z :=
  on_obuf (zebra_redistribute_obuf command type);;
  zclient_send_message.

(** The loop of [zclient_start] that flushes all redistribute requests:
    [n] iterations from index [i]. *)
Fixpoint zclient_start_redist (n : nat) (i : Z) : M unit :=
  match n with
  | O => mret tt
  | S n' =>
      zclient ← get_zc;
      r ← lift_option (array_get (redist zclient) i);
      (if negb (i =? redist_default zclient) && truthy r
       then zebra_redistribute_send ZEBRA_REDISTRIBUTE_ADD i;; mret tt
       else mret tt);;
      zclient_start_redist n' (i + 1)
  end.

(** Make connection to zebra daemon. *)
Definition zclient_start : M Z :=
  zclient ← get_zc;
  if negb (truthy (enable zclient)) then mret 0
  else if sock zclient >=? 0 then mret 0
  else if bool_decide (is_Some (t_connect zclient)) then mret 0
  else if qtimer_is_active (qtr zclient) then mret 0
  else
    fd ← zclient_socket_connect;
    if fd <? 0
    then
      modify_zc (fun c => set_fail (fail c + 1) c);;
      zclient_event ZCLIENT_CONNECT;;
      mret (-1)
    else
      w ← get_world;
      (if zclient_nexus w then on_qf (fun q => qps_add_file q fd) else mret tt);;
      modify_zc (set_fail 0);;
      zclient_event ZCLIENT_READ;;
      zebra_hello_send;;
      zebra_message_send ZEBRA_ROUTER_ID_ADD;;
      zebra_message_send ZEBRA_INTERFACE_ADD;;
      zclient_start_redist (Z.to_nat ZEBRA_ROUTE_MAX) 0;;
      zclient ← get_zc;
      (if truthy (default_information zclient)
       then zebra_message_send ZEBRA_REDISTRIBUTE_DEFAULT_ADD;; mret tt
       else mret tt);;
      mret 0.

(** The wrappers that call [zclient_start] from the timer. *)
Definition zclient_connect_r : M unit :=
  modify_zc (set_qtr (Some qtimer_unset));;
  zclient_start;; mret tt.

Definition zclient_connect_t : M Z :=
  modify_zc (set_t_connect None);;
  zclient_start.

(** Connect to zebra for nexthop lookup, thread and nexus version. *)
Definition zlookup_connect_t : M Z :=
  modify_zc (set_t_connect None);;
  zlookup ← get_zc;
  (if sock zlookup <? 0 then zclient_socket_connect;; mret tt else mret tt);;
  zlookup ← get_zc;
  mret (if sock zlookup >=? 0 then 0 else -1).

Definition zlookup_connect_r : M unit :=
  modify_zc (set_qtr (Some qtimer_unset));;
  zlookup ← get_zc;
  if sock zlookup <? 0 then zclient_socket_connect;; mret tt else mret tt.

(** The two loops of the route encoders: one entry per nexthop address,
    one per interface index. *)
Fixpoint put_nexthops_ipv4 (s : stream) (nexthop : list (list Z)) : option stream :=
  match nexthop with
  | [] => Some s
  | addr :: rest =>
      s ← stream_putc s ZEBRA_NEXTHOP_IPV4;
      s ← stream_put_in_addr s addr;
      put_nexthops_ipv4 s rest
  end.

Fixpoint put_nexthops_ipv6 (s : stream) (nexthop : list (list Z)) : option stream :=
  match nexthop with
  | [] => Some s
  | addr :: rest =>
      s ← stream_putc s ZEBRA_NEXTHOP_IPV6;
      s ← stream_put s addr 16;
      put_nexthops_ipv6 s rest
  end.

Fixpoint put_ifindexes (s : stream) (ifindex : list Z) : option stream :=
  match ifindex with
  | [] => Some s
  | idx :: rest =>
      s ← stream_putc s ZEBRA_NEXTHOP_IFINDEX;
      s ← stream_putl s idx;
      put_ifindexes s rest
  end.

(** The frame [zapi_ipv4_route] serialises into the output stream:
    everything in front of its call of [zclient_send_message]. *)
Definition zapi_ipv4_route_obuf (cmd : Z) (p : prefix) (api : zapi) (s : stream)
  : option stream :=
  let s := stream_reset s in
  s ← zclient_create_header s cmd;
  s ← stream_putc s (type api);
  s ← stream_putc s (flags api);
  s ← stream_putc s (message api);
  s ← stream_putw s (safi api);
  let psize := PSIZE (prefixlen p) in
  s ← stream_putc s (prefixlen p);
  s ← stream_put s (prefix_bytes p) psize;
  s ← (if truthy (CHECK_FLAG (message api) ZAPI_MESSAGE_NEXTHOP)
       then
         s ← (if truthy (CHECK_FLAG (flags api) ZEBRA_FLAG_BLACKHOLE)
              then s ← stream_putc s 1; stream_putc s ZEBRA_NEXTHOP_BLACKHOLE
              else stream_putc s (nexthop_num api + ifindex_num api));
         s ← put_nexthops_ipv4 s (nexthop api);
         put_ifindexes s (ifindex api)
       else Some s);
  s ← (if truthy (CHECK_FLAG (message api) ZAPI_MESSAGE_DISTANCE)
       then stream_putc s (distance api) else Some s);
  s ← (if truthy (CHECK_FLAG (message api) ZAPI_MESSAGE_METRIC)
       then stream_putl s (metric api) else Some s);
  stream_putw_at s 0 (stream_get_endp s).

Definition zapi_ipv4_route (cmd : Z) (p : prefix) (api : zapi) : M Z :=
  on_obuf (zapi_ipv4_route_obuf cmd p api);;
  zclient_send_message.

(** The same for [zapi_ipv6_route]. *)
Definition zapi_ipv6_route_obuf (cmd : Z) (p : prefix) (api : zapi) (s : stream)
  : option stream :=
  let s := stream_reset s in
  s ← zclient_create_header s cmd;
  s ← stream_putc s (type api);
  s ← stream_putc s (flags api);
  s ← stream_putc s (message api);
  s ← stream_putw s (safi api);
  let psize := PSIZE (prefixlen p) in
  s ← stream_putc s (prefixlen p);
  s ← stream_put s (prefix_bytes p) psize;
  s ← (if truthy (CHECK_FLAG (message api) ZAPI_MESSAGE_NEXTHOP)
       then
         s ← stream_putc s (nexthop_num api + ifindex_num api);
         s ← put_nexthops_ipv6 s (nexthop api);
         put_ifindexes s (ifindex api)
       else Some s);
  s ← (if truthy (CHECK_FLAG (message api) ZAPI_MESSAGE_DISTANCE)
       then stream_putc s (distance api) else Some s);
  s ← (if truthy (CHECK_FLAG (message api) ZAPI_MESSAGE_METRIC)
       then stream_putl s (metric api) else Some s);
  stream_putw_at s 0 (stream_get_endp s).

Definition zapi_ipv6_route (cmd : Z) (p : prefix) (api : zapi) : M Z :=
  on_obuf (zapi_ipv6_route_obuf cmd p api);;
  zclient_send_message.

(** *** The inbound dispatcher *)

(** The handlers the embedding daemon registers: the function pointers of
    [struct zclient], called with the command and the length of the body.
    They are kept apart from the record of the client, which they may
    change. *)
Definition handler : Type := Z -> Z -> M Z.

Record handlers := mk_handlers {
  router_id_update : option handler;
  interface_add : option handler;
  interface_delete : option handler;
  interface_up : option handler;
  interface_down : option handler;
  interface_address_add : option handler;
  interface_address_delete : option handler;
  ipv4_route_add : option handler;
  ipv4_route_delete : option handler;
  ipv6_route_add : option handler;
  ipv6_route_delete : option handler
}.

(** Modelled from the spec: [stream_read_try] of stream.h, the spec's
    "read_from(fd, n) returning Closed | Bytes(k) where 0 < k <= n, Again
    when non-blocking with no progress": the bytes read, 0 when the peer
    has closed, -1 on an error, -2 to try again. *)
Definition stream_read_try (size : Z) : M Z :=
  w ← get_world;
  let s := ibuf (zc w) in
  if negb ((0 <=? size) && (size <=? STREAM_WRITEABLE s)) then undefined
  else
    match rxq w with
    | [] => mret (rx_idle w)
    | _ =>
        let k := Nat.min (Z.to_nat size) (length (rxq w)) in
        s ← lift_option (stream_append s (take k (rxq w)));
        modify_zc (set_ibuf s);;
        modify_world (fun w => set_rxq (drop k (rxq w)) w);;
        mret (Z.of_nat k)
    end.

(** A registered handler is called, an empty slot is skipped. *)
Definition call_handler (h : option handler) (command length : Z) : M unit :=
  match h with
  | Some f => emit (IoHandler command length);; f command length;; mret tt
  | None => mret tt
  end.

(** The [switch] of [zclient_read]. *)
Definition zclient_read_dispatch (hs : handlers) (command length : Z) : M unit :=
  if command =? ZEBRA_ROUTER_ID_UPDATE then call_handler (router_id_update hs) command length
  else if command =? ZEBRA_INTERFACE_ADD then call_handler (interface_add hs) command length
  else if command =? ZEBRA_INTERFACE_DELETE then call_handler (interface_delete hs) command length
  else if command =? ZEBRA_INTERFACE_ADDRESS_ADD
  then call_handler (interface_address_add hs) command length
  else if command =? ZEBRA_INTERFACE_ADDRESS_DELETE
  then call_handler (interface_address_delete hs) command length
  else if command =? ZEBRA_INTERFACE_UP then call_handler (interface_up hs) command length
  else if command =? ZEBRA_INTERFACE_DOWN then call_handler (interface_down hs) command length
  else if command =? ZEBRA_IPV4_ROUTE_ADD then call_handler (ipv4_route_add hs) command length
  else if command =? ZEBRA_IPV4_ROUTE_DELETE
  then call_handler (ipv4_route_delete hs) command length
  else if command =? ZEBRA_IPV6_ROUTE_ADD then call_handler (ipv6_route_add hs) command length
  else if command =? ZEBRA_IPV6_ROUTE_DELETE
  then call_handler (ipv6_route_delete hs) command length
  else mret tt.

(** The first part of [zclient_read]: read zebra header (if we don't have
    it already).  [inl r]: the function returns [r]; [inr already]: the
    header is in the stream. *)
Definition zclient_read_header : M (Z + Z) :=
  zclient ← get_zc;
  let already := stream_get_endp (ibuf zclient) in
  if already <? ZEBRA_HEADER_SIZE
  then
    nbyte ← stream_read_try (ZEBRA_HEADER_SIZE - already);
    if (nbyte =? 0) || (nbyte =? -1)
    then r ← zclient_failed; mret (inl r)
    else if negb (nbyte =? ZEBRA_HEADER_SIZE - already)
    then zclient_event ZCLIENT_READ;; mret (inl 0)
    else mret (inr ZEBRA_HEADER_SIZE)
  else mret (inr already).

(** The rest of [zclient_read], from "Reset to read from the beginning of
    the incoming packet". *)
Definition zclient_read_packet (hs : handlers) (already : Z) : M Z :=
  on_ibuf (fun s => stream_set_getp s 0);;
  length ← ibuf_get stream_getw;
  marker ← ibuf_get stream_getc;
  version ← ibuf_get stream_getc;
  command ← ibuf_get stream_getw;
  if negb (marker =? ZEBRA_HEADER_MARKER) || negb (version =? ZSERV_VERSION)
  then zclient_failed
  else if length <? ZEBRA_HEADER_SIZE
  then zclient_failed
  else
    zclient ← get_zc;
    (if length >? stream_get_size (ibuf zclient)
     then on_ibuf (fun s => stream_copy (stream_new length) s)
     else mret tt);;
    r ← (if already <? length
         then
           nbyte ← stream_read_try (length - already);
           if (nbyte =? 0) || (nbyte =? -1)
           then r ← zclient_failed; mret (Some r)
           else if negb (nbyte =? length - already)
           then zclient_event ZCLIENT_READ;; mret (Some 0)
           else mret None
         else mret None);
    match r with
    | Some r => mret r
    | None =>
        let length := length - ZEBRA_HEADER_SIZE in
        zclient_read_dispatch hs command length;;
        zclient ← get_zc;
        if sock zclient <? 0 then mret (-1)
        else
          modify_zc (fun c => set_ibuf (stream_reset (ibuf c)) c);;
          zclient_event ZCLIENT_READ;;
          mret 0
    end.

(** Zebra client message read function. *)
Definition zclient_read (hs : handlers) : M Z :=
  r ← zclient_read_header;
  match r with
  | inl r => mret r
  | inr already => zclient_read_packet hs already
  end.

(** nexus and thread: Zebra client message read function. *)
Definition zclient_read_r (hs : handlers) : M unit :=
  on_qf qps_disable_read;;
  zclient_read hs;; mret tt.

Definition zclient_read_t (hs : handlers) : M Z :=
  modify_zc (set_t_read None);;
  zclient_read hs.

(** *** Redistribution requests *)

Definition zclient_redistribute (command type : Z) : M unit :=
  zclient ← get_zc;
  r ← lift_option (array_get (redist zclient) type);
  if (if command =? ZEBRA_REDISTRIBUTE_ADD then truthy r else negb (truthy r))
  then mret tt
  else
    a ← lift_option (array_set (redist zclient) type
                       (if command =? ZEBRA_REDISTRIBUTE_ADD then 1 else 0));
    modify_zc (set_redist a);;
    if sock zclient >? 0
    then zebra_redistribute_send command type;; mret tt
    else mret tt.

Definition zclient_redistribute_default (command : Z) : M unit :=
  zclient ← get_zc;
  if (if command =? ZEBRA_REDISTRIBUTE_DEFAULT_ADD
      then truthy (default_information zclient)
      else negb (truthy (default_information zclient)))
  then mret tt
  else
    modify_zc (set_default_information
                 (if command =? ZEBRA_REDISTRIBUTE_DEFAULT_ADD then 1 else 0));;
    if sock zclient >? 0
    then zebra_message_send command;; mret tt
    else mret tt.

(** *** The client in its reactor *)

(** The calls of the embedding daemon on its handle. *)
Inductive api_call :=
  | Zclient_init_r (n : bool)
  | Zclient_init (redist_default : Z)
  | Zlookup_schedule
  | Zclient_stop
  | Zclient_reset
  | Zclient_send_message
  | Zclient_start
  | Zapi_ipv4_route (cmd : Z) (p : prefix) (api : zapi)
  | Zapi_ipv6_route (cmd : Z) (p : prefix) (api : zapi)
  | Zebra_redistribute_send (command type : Z)
  | Zclient_redistribute (command type : Z)
  | Zclient_redistribute_default (command : Z).

Definition run_call (c : api_call) : M unit :=
  match c with
  | Zclient_init_r n => zclient_init_r n
  | Zclient_init redist_default => zclient_init redist_default
  | Zlookup_schedule => zlookup_schedule
  | Zclient_stop => zclient_stop
  | Zclient_reset => zclient_reset
  | Zclient_send_message => zclient_send_message;; mret tt
  | Zclient_start => zclient_start;; mret tt
  | Zapi_ipv4_route cmd p api => zapi_ipv4_route cmd p api;; mret tt
  | Zapi_ipv6_route cmd p api => zapi_ipv6_route cmd p api;; mret tt
  | Zebra_redistribute_send command type => zebra_redistribute_send command type;; mret tt
  | Zclient_redistribute command type => zclient_redistribute command type
  | Zclient_redistribute_default command => zclient_redistribute_default command
  end.

(** What happens to a client: the daemon calls it, one of its armed tokens
    fires (thread or nexus back-end; a token that is not armed does not
    fire), or the peer sends bytes or ends the connection. *)
Inductive reactor_event :=
  | Call (c : api_call)
  | Thread_connect
  | Thread_read (hs : handlers)
  | Thread_write
  | Nexus_timer
  | Nexus_read (hs : handlers)
  | Nexus_write
  | Peer_sends (bytes : list Z)
  | Peer_ends (idle : Z).

Definition react (e : reactor_event) : M unit :=
  zclient ← get_zc;
  match e with
  | Call c => run_call c
  | Thread_connect =>
      match t_connect zclient with
      | Some {| th_func := F_zclient_connect_t |} => zclient_connect_t;; mret tt
      | Some {| th_func := F_zlookup_connect_t |} => zlookup_connect_t;; mret tt
      | _ => mret tt
      end
  | Thread_read hs =>
      match t_read zclient with
      | Some _ => zclient_read_t hs;; mret tt
      | None => mret tt
      end
  | Thread_write =>
      match t_write zclient with
      | Some _ => zclient_flush_data_t;; mret tt
      | None => mret tt
      end
  | Nexus_timer =>
      match qtr zclient with
      | Some {| qtr_set := Some (_, A_zclient_connect_r) |} => zclient_connect_r
      | Some {| qtr_set := Some (_, A_zlookup_connect_r) |} => zlookup_connect_r
      | _ => mret tt
      end
  | Nexus_read hs =>
      match qf zclient with
      | Some {| qf_read := Some _ |} => zclient_read_r hs
      | _ => mret tt
      end
  | Nexus_write =>
      match qf zclient with
      | Some {| qf_write := Some _ |} => zclient_flush_data_r
      | _ => mret tt
      end
  | Peer_sends bytes => modify_world (fun w => set_rxq (rxq w ++ bytes) w)
  | Peer_ends idle => modify_world (set_rx_idle idle)
  end.

Fixpoint run (es : list reactor_event) : M unit :=
  match es with
  | [] => mret tt
  | e :: rest => react e;; run rest
  end.

(** The pending connect retry of a client, in seconds from now, on either
    back-end. *)
Definition connect_timer (w : world) : option Z :=
  if zclient_nexus w
  then match qtr (zc w) with
       | Some {| qtr_set := Some (secs, A_zclient_connect_r) |} => Some secs
       | _ => None
       end
  else match t_connect (zc w) with
       | Some {| th_type := THREAD_TIMER secs; th_func := F_zclient_connect_t |} => Some secs
       | _ => None
       end.

(** The timer of the connect retry fires, on either back-end. *)
Definition connect_timer_fires : M unit :=
  w ← get_world;
  react (if zclient_nexus w then Nexus_timer else Thread_connect).

End Zclient.

(** A world with a client as [zclient_new] makes it. *)
Definition boot `{zh : zebra_h} (nexus : bool) (kc : nat -> Z) (kw : nat -> option nat)
  : world :=
  {| zclient_nexus := nexus;
     zc := {| sock := -1; enable := 0; fail := 0; redist_default := 0;
              redist := replicate (Z.to_nat ZEBRA_ROUTE_MAX) 0;
              default_information := 0;
              ibuf := stream_new ZEBRA_MAX_PACKET_SIZ;
              obuf := stream_new ZEBRA_MAX_PACKET_SIZ;
              wb := [];
              t_read := None; t_write := None; t_connect := None;
              qf := if nexus then Some qps_file_init_new else None;
              qtr := if nexus then Some qtimer_init_new else None |};
     k_connect := kc; n_connect := 0; k_write := kw; n_write := 0;
     rxq := []; rx_idle := -2; trace := [] |}.

(** ** The frames on the wire, as the format describes them *)

Section Frames.

Context `{zh : zebra_h}.

(** A simple message: the header alone, with its length of six. *)
Definition message_frame (command : Z) : list Z :=
  be16 ZEBRA_HEADER_SIZE ++ [ZEBRA_HEADER_MARKER; ZSERV_VERSION] ++ be16 command.

(** A message with a one-byte body (HELLO, REDISTRIBUTE_ADD and
    REDISTRIBUTE_DELETE). *)
Definition type_frame (command type : Z) : list Z :=
  be16 7 ++ [ZEBRA_HEADER_MARKER; ZSERV_VERSION] ++ be16 command ++ [type mod 256].

(** The part of a route message in front of the nexthops and the part
    behind them. *)
Definition route_front (cmd : Z) (p : prefix) (api : zapi) : list Z :=
  [ZEBRA_HEADER_MARKER; ZSERV_VERSION] ++ be16 cmd
  ++ [type api mod 256; flags api mod 256; message api mod 256] ++ be16 (safi api)
  ++ [prefixlen p mod 256] ++ take (Z.to_nat (PSIZE (prefixlen p))) (prefix_bytes p).

Definition route_back (api : zapi) : list Z :=
  (if truthy (CHECK_FLAG (message api) ZAPI_MESSAGE_DISTANCE)
   then [distance api mod 256] else [])
  ++ (if truthy (CHECK_FLAG (message api) ZAPI_MESSAGE_METRIC)
      then be32 (metric api) else []).

(** One entry of the nexthop section. *)
Definition entry_ipv4 (addr : list Z) : list Z := ZEBRA_NEXTHOP_IPV4 mod 256 :: take 4 addr.

Definition entry_ipv6 (addr : list Z) : list Z := ZEBRA_NEXTHOP_IPV6 mod 256 :: take 16 addr.

Definition entry_ifindex (idx : Z) : list Z := ZEBRA_NEXTHOP_IFINDEX mod 256 :: be32 idx.

Definition entry_blackhole : list Z := [ZEBRA_NEXTHOP_BLACKHOLE mod 256].

(** The nexthop section [zapi_ipv4_route] and [zapi_ipv6_route] write: the
    count byte and the entries behind it. *)
Definition nexthops_ipv4 (api : zapi) : list Z :=
  if truthy (CHECK_FLAG (message api) ZAPI_MESSAGE_NEXTHOP)
  then (if truthy (CHECK_FLAG (flags api) ZEBRA_FLAG_BLACKHOLE)
        then 1 :: entry_blackhole
        else [(nexthop_num api + ifindex_num api) mod 256])
       ++ concat (entry_ipv4 <$> nexthop api) ++ concat (entry_ifindex <$> ifindex api)
  else [].

Definition nexthops_ipv6 (api : zapi) : list Z :=
  if truthy (CHECK_FLAG (message api) ZAPI_MESSAGE_NEXTHOP)
  then [(nexthop_num api + ifindex_num api) mod 256]
       ++ concat (entry_ipv6 <$> nexthop api) ++ concat (entry_ifindex <$> ifindex api)
  else [].

(** A frame from its content behind the length field. *)
Definition framed (body : list Z) : list Z := be16 (2 + Z.of_nat (length body)) ++ body.

(** The frames of the route encoders. *)
Definition ipv4_route_frame (cmd : Z) (p : prefix) (api : zapi) : list Z :=
  framed (route_front cmd p api ++ nexthops_ipv4 api ++ route_back api).

Definition ipv6_route_frame (cmd : Z) (p : prefix) (api : zapi) : list Z :=
  framed (route_front cmd p api ++ nexthops_ipv6 api ++ route_back api).

(** The inputs the C types of the route encoders admit: the bytes of the
    prefix the length asks for exist, and so do the bytes of the
    addresses. *)
Definition route_args_ok (addrlen : nat) (p : prefix) (api : zapi) : Prop :=
  0 <= PSIZE (prefixlen p) <= Z.of_nat (length (prefix_bytes p))
  /\ Forall (fun addr => (addrlen <= length addr)%nat) (nexthop api).

(** The types the handshake asks the redistribution of: the subscribed
    ones, but for the own type of the client. *)
Definition redist_wanted (c : zclient) (t : Z) : bool :=
  negb (t =? redist_default c)
  && match array_get (redist c) t with Some r => truthy r | None => false end.

(** The on-connect handshake of a client, frame by frame. *)
Definition handshake (c : zclient) : list (list Z) :=
  (if truthy (redist_default c) then [type_frame ZEBRA_HELLO (redist_default c)] else [])
  ++ [message_frame ZEBRA_ROUTER_ID_ADD; message_frame ZEBRA_INTERFACE_ADD]
  ++ (type_frame ZEBRA_REDISTRIBUTE_ADD <$> filter (fun t => redist_wanted c t = true)
                                                   (seqZ 0 ZEBRA_ROUTE_MAX))
  ++ (if truthy (default_information c)
      then [message_frame ZEBRA_REDISTRIBUTE_DEFAULT_ADD] else []).

(** The delay of the retry after the [k]-th failure in a row, if any. *)
Definition retry_delay (k : Z) : option Z :=
  if k >=? 10 then None else Some (if k <? 3 then 10 else 60).

End Frames.

(** ** Notions the proofs are stated with *)

(** Stream code that appends given bytes to a stream that is not overfull,
    and stream code that appends bytes and goes on with [g]. *)
Definition writes (f : stream -> option stream) (bs : list Z) : Prop :=
  forall s, 0 <= STREAM_WRITEABLE s -> f s = stream_append s bs.

Definition chain {B : Type} (f : stream -> option B) (bs : list Z)
    (g : stream -> option B) : Prop :=
  forall s, 0 <= STREAM_WRITEABLE s -> f s = stream_append s bs ≫= g.

(** The last step of the encoders: "Put length at the first point of the
    stream". *)
Definition patch_length (s : stream) : option stream :=
  stream_putw_at s 0 (stream_get_endp s).

(** The output stream holding exactly the frame [f]. *)
Definition holding (f : list Z) (s : stream) : stream :=
  {| st_size := st_size s; st_getp := 0; st_data := f |}.

(** Sending the frame [f]: it is put into the output stream and handed to
    [zclient_send_message]. *)
Definition send_frame `{zh : zebra_h} (f : list Z) : M Z :=
  modify_zc (fun c => set_obuf (holding f (obuf c)) c);;
  zclient_send_message.

(** What no send changes: the configuration of the client and the kernel. *)
Record stable (w w' : world) : Prop := mk_stable {
  stable_nexus : zclient_nexus w' = zclient_nexus w;
  stable_k_connect : k_connect w' = k_connect w;
  stable_k_write : k_write w' = k_write w;
  stable_enable : enable (zc w') = enable (zc w);
  stable_redist : redist (zc w') = redist (zc w);
  stable_redist_default : redist_default (zc w') = redist_default (zc w);
  stable_default_information : default_information (zc w') = default_information (zc w);
  stable_obuf_size : st_size (obuf (zc w')) = st_size (obuf (zc w));
  stable_qf : is_Some (qf (zc w)) -> is_Some (qf (zc w'));
  stable_qtr : is_Some (qtr (zc w)) -> is_Some (qtr (zc w'))
}.

(** What a send that succeeds, or that is not attempted, leaves alone: the
    connection and the timer. *)
Record calm (w w' : world) : Prop := mk_calm {
  calm_sock : sock (zc w') = sock (zc w);
  calm_fail : fail (zc w') = fail (zc w);
  calm_t_connect : t_connect (zc w') = t_connect (zc w);
  calm_qtr : qtr (zc w') = qtr (zc w);
  calm_n_connect : n_connect w' = n_connect w
}.

(** A client of the nexus back-end has its poll file and its timer. *)
Definition tokens_ok (w : world) : Prop :=
  zclient_nexus w = true -> is_Some (qf (zc w)) /\ is_Some (qtr (zc w)).

(** Sending frames one after the other. *)
Fixpoint attempts `{zh : zebra_h} (fs : list (list Z)) : M unit :=
  match fs with
  | [] => mret tt
  | f :: rest => send_frame f;; attempts rest
  end.

(** A client [zclient_start] will connect: enabled, not connected, no
    connect pending; its tokens in place, room for the frames of the
    handshake, the array of its size. *)
Record start_ready `{zh : zebra_h} (w : world) : Prop := mk_start_ready {
  ready_enable : truthy (enable (zc w)) = true;
  ready_sock : sock (zc w) < 0;
  ready_t_connect : t_connect (zc w) = None;
  ready_qtr : qtimer_is_active (qtr (zc w)) = false;
  ready_tokens : tokens_ok w;
  ready_obuf : 7 <= st_size (obuf (zc w));
  ready_redist : Z.of_nat (length (redist (zc w))) = ZEBRA_ROUTE_MAX
}.

(** A client with its tokens, room for the frames of the handshake and
    given subscriptions. *)
Record subscribed (rd : Z) (r : list Z) (di : Z) (w : world) : Prop := mk_subscribed {
  sub_tokens : tokens_ok w;
  sub_obuf : 7 <= st_size (obuf (zc w));
  sub_redist_default : redist_default (zc w) = rd;
  sub_redist : redist (zc w) = r;
  sub_default_information : default_information (zc w) = di
}.

(** Code that does to the world what sending the frames [fs] does. *)
Definition sends `{zh : zebra_h} {A : Type} (rd : Z) (r : list Z) (di : Z)
    (m : M A) (fs : list (list Z)) : Prop :=
  forall w, subscribed rd r di w -> snd <$> m w = snd <$> attempts fs w.

(** An encoder that builds the frame [f] in the stream [s]: it gives a
    stream when the frame fits, and the stream it gives holds [f] with, in
    its first two bytes, the number of bytes written. *)
Definition patches_length (enc : stream -> option stream) (f : list Z) (s : stream)
  : Prop :=
  (Z.of_nat (length f) <= st_size s -> is_Some (enc s))
  /\ forall s', enc s = Some s' ->
       st_data s' = f
       /\ frame_length_field (st_data s') = Some (stream_get_endp s').


(** No connect is pending. *)
Definition idle (w : world) : Prop :=
  t_connect (zc w) = None /\ qtimer_is_active (qtr (zc w)) = false.



(** The flag of the own type of the client is set. *)
Definition redist_default_subscribed (w : world) : Prop :=
  array_get (redist (zc w)) (redist_default (zc w)) = Some 1.

(** Code that changes neither the flags nor the own type. *)
Definition keeps {A : Type} (m : M A) : Prop :=
  forall w a w', m w = Some (a, w') ->
    redist (zc w') = redist (zc w) /\ redist_default (zc w') = redist_default (zc w).

(** Code that leaves the flag of the own type set. *)
Definition preserves {A : Type} (m : M A) : Prop :=
  forall w a w', redist_default_subscribed w -> m w = Some (a, w') ->
    redist_default_subscribed w'.

(** The handlers of the daemon leave the flag of the own type set. *)
Definition handlers_preserve (hs : handlers) : Prop :=
  forall h, h ∈ [router_id_update hs; interface_add hs; interface_delete hs;
                 interface_up hs; interface_down hs;
                 interface_address_add hs; interface_address_delete hs;
                 ipv4_route_add hs; ipv4_route_delete hs;
                 ipv6_route_add hs; ipv6_route_delete hs] ->
    forall f, h = Some f -> forall command length, preserves (f command length).

(** The events that cannot clear the flag of the own type: all, but for a
    call of [zclient_redistribute] on the own type with another command
    than ADD, and for handlers that clear it themselves. *)
Definition allowed `{zh : zebra_h} (w : world) (e : reactor_event) : Prop :=
  match e with
  | Call (Zclient_redistribute command type) =>
      command = ZEBRA_REDISTRIBUTE_ADD \/ type <> redist_default (zc w)
  | Thread_read hs | Nexus_read hs => handlers_preserve hs
  | _ => True
  end.

(** A run of allowed events. *)
Inductive allowed_run `{zh : zebra_h} : world -> list reactor_event -> world -> Prop :=
  | allowed_nil (w : world) : allowed_run w [] w
  | allowed_cons (w w1 w2 : world) (e : reactor_event) (es : list reactor_event) :
      allowed w e -> react e w = Some (tt, w1) -> allowed_run w1 es w2 ->
      allowed_run w (e :: es) w2.

(** ** The decoders of zclient.c

    The functions a handler calls to take an inbound message apart.  They
    read from a stream (the input stream of the client, behind its header)
    and fill structures of [prefix.h] and [if.h]. *)

(** Modelled from the spec: the readers of the stream library (stream.h)
    that the decoders use.  "All integers are serialised big-endian":
    [stream_getl] reads a 32-bit value; [stream_get] takes [size] raw bytes
    at the read cursor.  A read behind the write cursor is [None], as for
    [stream_getc]. *)
Definition stream_getl (s : stream) : option (Z * stream) :=
  '(b3, s) ← stream_getc s;
  '(b2, s) ← stream_getc s;
  '(b1, s) ← stream_getc s;
  '(b0, s) ← stream_getc s;
  Some (((b3 * 256 + b2) * 256 + b1) * 256 + b0, s).

Definition stream_get (s : stream) (size : Z) : option (list Z * stream) :=
  if (0 <=? size) && (0 <=? st_getp s) && (st_getp s + size <=? stream_get_endp s)
  then Some (take (Z.to_nat size) (drop (Z.to_nat (st_getp s)) (st_data s)),
             {| st_size := st_size s; st_getp := st_getp s + size;
                st_data := st_data s |})
  else None.

(** Copying bytes to the front of a C object; past its end it is
    undefined. *)
Definition memcpy (dst src : list Z) : option (list Z) :=
  if (length src <=? length dst)%nat
  then Some (src ++ drop (length src) dst) else None.

(** [strnlen] of the C library, on an array that holds at least [maxlen]
    bytes. *)
Fixpoint strnlen (s : list Z) (maxlen : nat) {struct maxlen} : nat :=
  match maxlen, s with
  | S n, c :: rest => if c =? 0 then O else S (strnlen rest n)
  | _, _ => O
  end.

(** [struct prefix] of prefix.h: the family, the prefix length and the
    bytes of the union [u] that holds the address. *)
Record struct_prefix := mk_struct_prefix {
  pfx_family : Z;
  pfx_prefixlen : Z;
  pfx_u : list Z
}.

Definition set_pfx_family (v : Z) (p : struct_prefix) : struct_prefix :=
  {| pfx_family := v; pfx_prefixlen := pfx_prefixlen p; pfx_u := pfx_u p |}.

Definition set_pfx_prefixlen (v : Z) (p : struct_prefix) : struct_prefix :=
  {| pfx_family := pfx_family p; pfx_prefixlen := v; pfx_u := pfx_u p |}.

Definition set_pfx_u (v : list Z) (p : struct_prefix) : struct_prefix :=
  {| pfx_family := pfx_family p; pfx_prefixlen := pfx_prefixlen p; pfx_u := v |}.

(** A 32-bit value of the wire assigned to a C [int]: the [int] has the
    value of its bit pattern, negative from [2^31] on. *)
Definition int_of_u32 (v : Z) : Z :=
  if v <? 2147483648 then v else v - 4294967296.

(** [struct interface] of if.h, with the fields this file assigns.  The
    fields [metric] and [hw_addr_len] are [int]s; [ifindex], [mtu], [mtu6]
    and [bandwidth] are [unsigned int]s, [status] is a byte and [flags] has
    64 bits. *)
Record interface := mk_interface {
  ifp_ifindex : Z;
  ifp_status : Z;
  ifp_flags : Z;
  ifp_metric : Z;
  ifp_mtu : Z;
  ifp_mtu6 : Z;
  ifp_bandwidth : Z;
  ifp_hw_addr_len : Z;
  ifp_hw_addr : list Z
}.

Definition set_ifp_ifindex (v : Z) (i : interface) : interface :=
  {| ifp_ifindex := v; ifp_status := ifp_status i; ifp_flags := ifp_flags i;
     ifp_metric := ifp_metric i; ifp_mtu := ifp_mtu i; ifp_mtu6 := ifp_mtu6 i;
     ifp_bandwidth := ifp_bandwidth i; ifp_hw_addr_len := ifp_hw_addr_len i;
     ifp_hw_addr := ifp_hw_addr i |}.

Definition set_ifp_status (v : Z) (i : interface) : interface :=
  {| ifp_ifindex := ifp_ifindex i; ifp_status := v; ifp_flags := ifp_flags i;
     ifp_metric := ifp_metric i; ifp_mtu := ifp_mtu i; ifp_mtu6 := ifp_mtu6 i;
     ifp_bandwidth := ifp_bandwidth i; ifp_hw_addr_len := ifp_hw_addr_len i;
     ifp_hw_addr := ifp_hw_addr i |}.

Definition set_ifp_flags (v : Z) (i : interface) : interface :=
  {| ifp_ifindex := ifp_ifindex i; ifp_status := ifp_status i; ifp_flags := v;
     ifp_metric := ifp_metric i; ifp_mtu := ifp_mtu i; ifp_mtu6 := ifp_mtu6 i;
     ifp_bandwidth := ifp_bandwidth i; ifp_hw_addr_len := ifp_hw_addr_len i;
     ifp_hw_addr := ifp_hw_addr i |}.

Definition set_ifp_metric (v : Z) (i : interface) : interface :=
  {| ifp_ifindex := ifp_ifindex i; ifp_status := ifp_status i; ifp_flags := ifp_flags i;
     ifp_metric := v; ifp_mtu := ifp_mtu i; ifp_mtu6 := ifp_mtu6 i;
     ifp_bandwidth := ifp_bandwidth i; ifp_hw_addr_len := ifp_hw_addr_len i;
     ifp_hw_addr := ifp_hw_addr i |}.

Definition set_ifp_mtu (v : Z) (i : interface) : interface :=
  {| ifp_ifindex := ifp_ifindex i; ifp_status := ifp_status i; ifp_flags := ifp_flags i;
     ifp_metric := ifp_metric i; ifp_mtu := v; ifp_mtu6 := ifp_mtu6 i;
     ifp_bandwidth := ifp_bandwidth i; ifp_hw_addr_len := ifp_hw_addr_len i;
     ifp_hw_addr := ifp_hw_addr i |}.

Definition set_ifp_mtu6 (v : Z) (i : interface) : interface :=
  {| ifp_ifindex := ifp_ifindex i; ifp_status := ifp_status i; ifp_flags := ifp_flags i;
     ifp_metric := ifp_metric i; ifp_mtu := ifp_mtu i; ifp_mtu6 := v;
     ifp_bandwidth := ifp_bandwidth i; ifp_hw_addr_len := ifp_hw_addr_len i;
     ifp_hw_addr := ifp_hw_addr i |}.

Definition set_ifp_bandwidth (v : Z) (i : interface) : interface :=
  {| ifp_ifindex := ifp_ifindex i; ifp_status := ifp_status i; ifp_flags := ifp_flags i;
     ifp_metric := ifp_metric i; ifp_mtu := ifp_mtu i; ifp_mtu6 := ifp_mtu6 i;
     ifp_bandwidth := v; ifp_hw_addr_len := ifp_hw_addr_len i;
     ifp_hw_addr := ifp_hw_addr i |}.

Definition set_ifp_hw_addr_len (v : Z) (i : interface) : interface :=
  {| ifp_ifindex := ifp_ifindex i; ifp_status := ifp_status i; ifp_flags := ifp_flags i;
     ifp_metric := ifp_metric i; ifp_mtu := ifp_mtu i; ifp_mtu6 := ifp_mtu6 i;
     ifp_bandwidth := ifp_bandwidth i; ifp_hw_addr_len := v;
     ifp_hw_addr := ifp_hw_addr i |}.

Definition set_ifp_hw_addr (v : list Z) (i : interface) : interface :=
  {| ifp_ifindex := ifp_ifindex i; ifp_status := ifp_status i; ifp_flags := ifp_flags i;
     ifp_metric := ifp_metric i; ifp_mtu := ifp_mtu i; ifp_mtu6 := ifp_mtu6 i;
     ifp_bandwidth := ifp_bandwidth i; ifp_hw_addr_len := ifp_hw_addr_len i;
     ifp_hw_addr := v |}.

(** [struct connected] of if.h, with the fields this file uses: the flags
    and the two prefixes it points to (the destination may be NULL). *)
Record connected := mk_connected {
  conn_flags : Z;
  conn_address : option struct_prefix;
  conn_destination : option struct_prefix
}.

Definition set_conn_flags (v : Z) (c : connected) : connected :=
  {| conn_flags := v; conn_address := conn_address c;
     conn_destination := conn_destination c |}.

Definition set_conn_destination (v : option struct_prefix) (c : connected) : connected :=
  {| conn_flags := conn_flags c; conn_address := conn_address c;
     conn_destination := v |}.

(** What the decoders use of code that is not part of this file.  The
    interface registry (if.c) answers with the interface or the connected
    address it finds or makes, or with NULL; [prefix_blen] (prefix.c) gives
    the number of address bytes of a prefix; [sizeof_prefix_u] is the size
    of the union [u] of [struct prefix].  The spec has [stream_getq] read a
    "host-endian u64": the value of its eight bytes is the host's.  All of
    them are left open. *)
Class if_h := {
  INTERFACE_NAMSIZ : Z;
  sizeof_prefix_u : nat;
  prefix_blen : struct_prefix -> Z;
  uint64_of_bytes : list Z -> Z;
  if_get_by_name_len : list Z -> Z -> interface;
  if_lookup_by_name_len : list Z -> Z -> option interface;
  if_lookup_by_index : Z -> option interface;
  connected_add_by_prefix :
    interface -> struct_prefix -> option struct_prefix -> option connected;
  connected_delete_by_prefix : interface -> struct_prefix -> option connected
}.

Section Decoders.

Context `{zh : zebra_h} `{ih : if_h}.

Definition stream_getq (s : stream) : option (Z * stream) :=
  '(bs, s) ← stream_get s 8;
  Some (uint64_of_bytes bs, s).

(** Router-id update from zebra daemon. *)
Definition zebra_router_id_update_read (s : stream) (rid : struct_prefix)
  : option (struct_prefix * stream) :=
  '(c, s) ← stream_getc s;
  let rid := set_pfx_family c rid in
  let plen := prefix_blen rid in
  '(bs, s) ← stream_get s plen;
  u ← memcpy (pfx_u rid) bs;
  let rid := set_pfx_u u rid in
  '(c, s) ← stream_getc s;
  Some (set_pfx_prefixlen c rid, s).

(** The seven values every interface message carries, in the order
    ifindex, status, flags, metric, mtu, mtu6, bandwidth. *)
Definition zebra_interface_if_set_value (s : stream) (ifp : interface)
  : option (interface * stream) :=
  '(v, s) ← stream_getl s;
  let ifp := set_ifp_ifindex v ifp in
  '(v, s) ← stream_getc s;
  let ifp := set_ifp_status v ifp in
  '(v, s) ← stream_getq s;
  let ifp := set_ifp_flags v ifp in
  '(v, s) ← stream_getl s;
  let ifp := set_ifp_metric (int_of_u32 v) ifp in
  '(v, s) ← stream_getl s;
  let ifp := set_ifp_mtu v ifp in
  '(v, s) ← stream_getl s;
  let ifp := set_ifp_mtu6 v ifp in
  '(v, s) ← stream_getl s;
  let ifp := set_ifp_bandwidth v ifp in
  Some (ifp, s).

(** Interface addition from zebra daemon, in a build without
    [struct sockaddr_dl]: the hardware address follows with its length.  A
    negative [hw_addr_len] is, as the [size_t] that [stream_get] takes, more
    than a stream holds. *)
Definition zebra_interface_add_read (s : stream) : option (interface * stream) :=
  '(ifname_tmp, s) ← stream_get s INTERFACE_NAMSIZ;
  let ifp := if_get_by_name_len ifname_tmp
               (Z.of_nat (strnlen ifname_tmp (Z.to_nat INTERFACE_NAMSIZ))) in
  '(v, s) ← stream_getl s;
  let ifp := set_ifp_ifindex v ifp in
  '(v, s) ← stream_getc s;
  let ifp := set_ifp_status v ifp in
  '(v, s) ← stream_getq s;
  let ifp := set_ifp_flags v ifp in
  '(v, s) ← stream_getl s;
  let ifp := set_ifp_metric (int_of_u32 v) ifp in
  '(v, s) ← stream_getl s;
  let ifp := set_ifp_mtu v ifp in
  '(v, s) ← stream_getl s;
  let ifp := set_ifp_mtu6 v ifp in
  '(v, s) ← stream_getl s;
  let ifp := set_ifp_bandwidth v ifp in
  '(v, s) ← stream_getl s;
  let ifp := set_ifp_hw_addr_len (int_of_u32 v) ifp in
  if truthy (ifp_hw_addr_len ifp)
  then
    '(bs, s) ← stream_get s (ifp_hw_addr_len ifp);
    hw ← memcpy (ifp_hw_addr ifp) bs;
    Some (set_ifp_hw_addr hw ifp, s)
  else Some (ifp, s).

(** Read interface up/down msg from zebra server: NULL when no interface
    has the name. *)
Definition zebra_interface_state_read (s : stream) : option (option interface * stream) :=
  '(ifname_tmp, s) ← stream_get s INTERFACE_NAMSIZ;
  match if_lookup_by_name_len ifname_tmp
          (Z.of_nat (strnlen ifname_tmp (Z.to_nat INTERFACE_NAMSIZ))) with
  | None => Some (None, s)
  | Some ifp =>
      '(v, s) ← stream_getl s;
      let ifp := set_ifp_ifindex v ifp in
      '(v, s) ← stream_getc s;
      let ifp := set_ifp_status v ifp in
      '(v, s) ← stream_getq s;
      let ifp := set_ifp_flags v ifp in
      '(v, s) ← stream_getl s;
      let ifp := set_ifp_metric (int_of_u32 v) ifp in
      '(v, s) ← stream_getl s;
      let ifp := set_ifp_mtu v ifp in
      '(v, s) ← stream_getl s;
      let ifp := set_ifp_mtu6 v ifp in
      '(v, s) ← stream_getl s;
      let ifp := set_ifp_bandwidth v ifp in
      Some (Some ifp, s)
  end.

(** Whether the first [n] bytes of [s] all are [c]; reading past the end
    of the object is undefined. *)
Fixpoint memconstant (s : list Z) (c : Z) (n : nat) {struct n} : option Z :=
  match n with
  | O => Some 1
  | S n' =>
      match s with
      | [] => None
      | b :: p => if negb (b =? c) then Some 0 else memconstant p c n'
      end
  end.

(** Interface address addition or deletion from zebra daemon.  The two
    local prefixes start zeroed; the [assert] on the type aborts. *)
Definition zebra_interface_address_read (type : Z) (s : stream)
  : option (option connected * stream) :=
  let p := {| pfx_family := 0; pfx_prefixlen := 0;
              pfx_u := replicate sizeof_prefix_u 0 |} in
  let d := {| pfx_family := 0; pfx_prefixlen := 0;
              pfx_u := replicate sizeof_prefix_u 0 |} in
  '(ifindex, s) ← stream_getl s;
  match if_lookup_by_index ifindex with
  | None => Some (None, s)
  | Some ifp =>
      '(ifc_flags, s) ← stream_getc s;
      '(family, s) ← stream_getc s;
      let p := set_pfx_family family p in
      let plen := prefix_blen p in
      '(bs, s) ← stream_get s plen;
      u ← memcpy (pfx_u p) bs;
      let p := set_pfx_u u p in
      '(c, s) ← stream_getc s;
      let p := set_pfx_prefixlen c p in
      '(bs, s) ← stream_get s plen;
      u ← memcpy (pfx_u d) bs;
      let d := set_pfx_u u d in
      let d := set_pfx_family family d in
      if type =? ZEBRA_INTERFACE_ADDRESS_ADD
      then
        z ← memconstant (pfx_u d) 0 (Z.to_nat plen);
        match connected_add_by_prefix ifp p (if truthy z then None else Some d) with
        | Some ifc =>
            let ifc := set_conn_flags ifc_flags ifc in
            match conn_destination ifc with
            | Some destination =>
                address ← conn_address ifc;
                let destination :=
                  set_pfx_prefixlen (pfx_prefixlen address) destination in
                Some (Some (set_conn_destination (Some destination) ifc), s)
            | None => Some (Some ifc, s)
            end
        | None => Some (None, s)
        end
      else if type =? ZEBRA_INTERFACE_ADDRESS_DELETE
      then Some (connected_delete_by_prefix ifp p, s)
      else None
  end.

End Decoders.

(** ** Notions for the decoders *)

(** The bytes of a stream that are not read yet, and the stream with [n]
    more bytes read. *)
Definition stream_unread (s : stream) : list Z :=
  drop (Z.to_nat (st_getp s)) (st_data s).

Definition stream_forward (s : stream) (n : Z) : stream :=
  {| st_size := st_size s; st_getp := st_getp s + n; st_data := st_data s |}.

(** A reader that takes the bytes [bs] off the unread part of a stream and
    gives the value [v]. *)
Definition reads {A : Type} (f : stream -> option (A * stream)) (bs : list Z) (v : A)
  : Prop :=
  forall s rest, 0 <= st_getp s <= stream_get_endp s -> stream_unread s = bs ++ rest ->
    f s = Some (v, stream_forward s (Z.of_nat (length bs))).

(** The seven values of an interface message on the wire: 29 bytes. *)
Definition interface_values (ifindex status : Z) (flags : list Z)
    (metric mtu mtu6 bandwidth : Z) : list Z :=
  be32 ifindex ++ [status] ++ flags ++ be32 metric ++ be32 mtu ++ be32 mtu6
  ++ be32 bandwidth.

(** A local [struct prefix] of [zebra_interface_address_read]: zeroed, then
    given a family, a prefix length and the bytes of an address. *)
Definition local_prefix `{ih : if_h} (family prefixlen : Z) (addr : list Z)
  : struct_prefix :=
  {| pfx_family := family; pfx_prefixlen := prefixlen;
     pfx_u := addr ++ replicate (sizeof_prefix_u - length addr) 0 |}.

(** What [zebra_interface_address_read] does to the connected address the
    registry hands out: it takes the flags of the message and its
    destination, if any, the prefix length of its address. *)
Definition connected_patched (ifc_flags : Z) (ifc : connected) : option connected :=
  match conn_destination ifc with
  | Some destination =>
      address ← conn_address ifc;
      Some {| conn_flags := ifc_flags; conn_address := conn_address ifc;
              conn_destination :=
                Some (set_pfx_prefixlen (pfx_prefixlen address) destination) |}
  | None => Some {| conn_flags := ifc_flags; conn_address := conn_address ifc;
                    conn_destination := None |}
  end.

(** ** Notions for the inbound dispatcher *)

(** The world with another input stream. *)
Definition with_ibuf (s : stream) (w : world) : world :=
  set_zc (set_ibuf s (zc w)) w.

(** A message as the peer sends it: the header with the length of the
    whole, then the body. *)
Definition frame (command : Z) (body : list Z) : list Z :=
  framed ([ZEBRA_HEADER_MARKER; ZSERV_VERSION] ++ be16 command ++ body).

(** The input stream [s] once the bytes [X] of a frame of the length [L]
    are in it: when the header is there, the read cursor is behind it and
    the stream has grown to hold the frame. *)
Definition receiving (L : Z) (X : list Z) (s : stream) : stream :=
  {| st_size := if ZEBRA_HEADER_SIZE <=? Z.of_nat (length X)
                then Z.max (st_size s) L else st_size s;
     st_getp := if ZEBRA_HEADER_SIZE <=? Z.of_nat (length X)
                then ZEBRA_HEADER_SIZE else st_getp s;
     st_data := X |}.

(** What [zclient_event (ZCLIENT_READ)] does to the world, on either
    back-end, and the read token taken away. *)
Definition arm_read (w : world) : world :=
  if zclient_nexus w
  then match qf (zc w) with
       | Some f => set_zc (set_qf (Some (qps_enable_read f A_zclient_read_r)) (zc w)) w
       | None => w
       end
  else set_zc (set_t_read (Some (mk_thread (THREAD_READ (sock (zc w))) F_zclient_read_t))
                 (zc w)) w.

Definition disarm_read (w : world) : world :=
  if zclient_nexus w
  then match qf (zc w) with
       | Some f => set_zc (set_qf (Some (qps_disable_read f)) (zc w)) w
       | None => w
       end
  else set_zc (set_t_read None (zc w)) w.

(** Two worlds that differ at most in the input stream, in the bytes that
    wait in the socket and in the read token. *)
Definition alike (a b : world) : Prop :=
  forall s q, set_rxq q (with_ibuf s (disarm_read a)) = set_rxq q (with_ibuf s (disarm_read b)).

(** The client waits for its socket to be readable. *)
Definition read_armed (w : world) : Prop :=
  if zclient_nexus w
  then exists f, qf (zc w) = Some f /\ is_Some (qf_read f)
  else is_Some (t_read (zc w)).

Section ReadNotions.

Context `{zh : zebra_h}.

(** The handler the [switch] of [zclient_read] picks for a command. *)
Definition handler_for (hs : handlers) (command : Z) : option handler :=
  if command =? ZEBRA_ROUTER_ID_UPDATE then router_id_update hs
  else if command =? ZEBRA_INTERFACE_ADD then interface_add hs
  else if command =? ZEBRA_INTERFACE_DELETE then interface_delete hs
  else if command =? ZEBRA_INTERFACE_ADDRESS_ADD then interface_address_add hs
  else if command =? ZEBRA_INTERFACE_ADDRESS_DELETE then interface_address_delete hs
  else if command =? ZEBRA_INTERFACE_UP then interface_up hs
  else if command =? ZEBRA_INTERFACE_DOWN then interface_down hs
  else if command =? ZEBRA_IPV4_ROUTE_ADD then ipv4_route_add hs
  else if command =? ZEBRA_IPV4_ROUTE_DELETE then ipv4_route_delete hs
  else if command =? ZEBRA_IPV6_ROUTE_ADD then ipv6_route_add hs
  else if command =? ZEBRA_IPV6_ROUTE_DELETE then ipv6_route_delete hs
  else None.

(** The end of [zclient_read], behind its [switch]. *)
Definition after_dispatch : M Z :=
  zclient ← get_zc;
  if sock zclient <? 0 then mret (-1)
  else
    modify_zc (fun c => set_ibuf (stream_reset (ibuf c)) c);;
    zclient_event ZCLIENT_READ;;
    mret 0.

(** The part of [zclient_read] behind the checks of the header: "Read rest
    of zebra packet", the [switch] and the end. *)
Definition read_body (hs : handlers) (length command already : Z) : M Z :=
  r ← (if already <? length
       then
         nbyte ← stream_read_try (length - already);
         if (nbyte =? 0) || (nbyte =? -1)
         then r ← zclient_failed; mret (Some r)
         else if negb (nbyte =? length - already)
         then zclient_event ZCLIENT_READ;; mret (Some 0)
         else mret None
       else mret None);
  match r with
  | Some r => mret r
  | None => zclient_read_dispatch hs command (length - ZEBRA_HEADER_SIZE);; after_dispatch
  end.

(** The six bytes of a header. *)
Definition header (length command : Z) : list Z :=
  be16 length ++ [ZEBRA_HEADER_MARKER; ZSERV_VERSION] ++ be16 command.

(** The socket of the client becomes readable. *)
Definition read_event (w : world) (hs : handlers) : reactor_event :=
  if zclient_nexus w then Nexus_read hs else Thread_read hs.

(** The peer sends a frame in pieces, and the client reads after each. *)
Fixpoint feed (nexus : bool) (hs : handlers) (pieces : list (list Z)) : list reactor_event :=
  match pieces with
  | [] => []
  | p :: rest =>
      Peer_sends p :: (if nexus then Nexus_read hs else Thread_read hs) :: feed nexus hs rest
  end.

(** The client [s] waits for the rest of a frame of the length [L] of
    which it has the bytes [X]; but for that it is as [w]. *)
Record waiting (L : Z) (X : list Z) (w s : world) : Prop := mk_waiting {
  waiting_armed : read_armed s;
  waiting_tokens : tokens_ok s;
  waiting_idle : rx_idle s = -2;
  waiting_rxq : rxq s = [];
  waiting_data : st_data (ibuf (zc s)) = X;
  waiting_size : ZEBRA_HEADER_SIZE <= st_size (ibuf (zc s));
  waiting_max : Z.max (st_size (ibuf (zc s))) L = Z.max (st_size (ibuf (zc w))) L;
  waiting_alike : alike s w
}.

End ReadNotions.

(** ** Notions for the life cycle *)

(** The client after [zclient_stop]: no token armed, the streams and the
    write buffer empty, the socket closed. *)
Definition stopped (w : world) : world :=
  set_trace (trace w ++ (if sock (zc w) >=? 0 then [IoClose (sock (zc w))] else []))
    (set_zc {| sock := if sock (zc w) >=? 0 then -1 else sock (zc w);
               enable := enable (zc w); fail := fail (zc w);
               redist_default := redist_default (zc w); redist := redist (zc w);
               default_information := default_information (zc w);
               ibuf := stream_reset (ibuf (zc w));
               obuf := stream_reset (obuf (zc w));
               wb := [];
               t_read := None; t_write := None; t_connect := None;
               qf := (fun f => qps_file_unset_fd (qps_remove_file f)) <$> qf (zc w);
               qtr := (fun _ => qtimer_unset) <$> qtr (zc w) |} w).

(** What [zclient_event (ZCLIENT_SCHEDULE)] does to the world: a connect
    as soon as possible, unless one is pending. *)
Definition schedule_connect (w : world) : world :=
  if zclient_nexus w
  then if qtimer_is_active (qtr (zc w)) then w
       else set_zc (set_qtr (Some (qtimer_set 0 A_zclient_connect_r)) (zc w)) w
  else if bool_decide (is_Some (t_connect (zc w))) then w
       else set_zc (set_t_connect (Some (mk_thread THREAD_EVENT F_zclient_connect_t))
                      (zc w)) w.

(** The client after [zclient_init]. *)
Definition initialised `{zh : zebra_h} (redist_default : Z) (w : world) : world :=
  schedule_connect
    (set_zc {| sock := -1; enable := 1; fail := 0; redist_default := redist_default;
               redist := <[Z.to_nat redist_default := 1]>
                           (replicate (Z.to_nat ZEBRA_ROUTE_MAX) 0);
               default_information := 0;
               ibuf := ibuf (zc w); obuf := obuf (zc w); wb := wb (zc w);
               t_read := t_read (zc w); t_write := t_write (zc w);
               t_connect := t_connect (zc w); qf := qf (zc w); qtr := qtr (zc w) |} w).

(** ** Notions for the invariants *)

(** Code that leaves an observation of the world as it is, and code that
    keeps an invariant of the world. *)
Definition unchanged {B A : Type} (obs : world -> B) (m : M A) : Prop :=
  forall w a w', m w = Some (a, w') -> obs w' = obs w.

Definition invariant {A : Type} (I : world -> Prop) (m : M A) : Prop :=
  forall w a w', I w -> m w = Some (a, w') -> I w'.

(** The handlers of the daemon keep an invariant. *)
Definition handlers_keep (I : world -> Prop) (hs : handlers) : Prop :=
  forall h, h ∈ [router_id_update hs; interface_add hs; interface_delete hs;
                 interface_up hs; interface_down hs;
                 interface_address_add hs; interface_address_delete hs;
                 ipv4_route_add hs; ipv4_route_delete hs;
                 ipv6_route_add hs; ipv6_route_delete hs] ->
    forall f, h = Some f -> forall command length, invariant I (f command length).

(** A run of events, each of which the guard [ok] lets pass in the world
    it meets. *)
Inductive guarded_run `{zh : zebra_h} (ok : world -> reactor_event -> Prop)
  : world -> list reactor_event -> world -> Prop :=
  | guarded_nil (w : world) : guarded_run ok w [] w
  | guarded_cons (w w1 w2 : world) (e : reactor_event) (es : list reactor_event) :
      ok w e -> react e w = Some (tt, w1) -> guarded_run ok w1 es w2 ->
      guarded_run ok w (e :: es) w2.

(** The descriptors the kernel has given and that were not closed since,
    as the trace tells. *)
Definition descriptor_step (open : list Z) (e : io_event) : list Z :=
  match e with
  | IoConnect fd => if fd >=? 0 then fd :: open else open
  | IoClose fd => filter (fun x => x <> fd) open
  | _ => open
  end.

Definition open_descriptors (t : list io_event) : list Z := foldl descriptor_step [] t.

(** No descriptor is lost: the socket of the client is the one descriptor
    that is open, and none is open when the client has no socket. *)
Definition descriptors_tidy (w : world) : Prop :=
  open_descriptors (trace w) = if sock (zc w) >=? 0 then [sock (zc w)] else [].

(** What the invariant on the descriptors looks at. *)
Definition connection (w : world) : Z * list Z :=
  (sock (zc w), open_descriptors (trace w)).

(** The events that lose no descriptor: all, but for [zclient_init] on a
    client that has a socket, and for handlers that lose one themselves. *)
Definition tidy_event (w : world) (e : reactor_event) : Prop :=
  match e with
  | Call (Zclient_init _) => sock (zc w) < 0
  | Thread_read hs | Nexus_read hs => handlers_keep descriptors_tidy hs
  | _ => True
  end.

(** The client waits for its socket to be writable only when bytes wait
    in the write buffer, and only on the back-end in use: the write token
    of the other back-end is never armed. *)
Definition write_tidy (w : world) : Prop :=
  if zclient_nexus w
  then t_write (zc w) = None
       /\ (is_Some (qf (zc w) ≫= qf_write) -> wb (zc w) <> [])
  else qf (zc w) ≫= qf_write = None
       /\ (is_Some (t_write (zc w)) -> wb (zc w) <> []).

(** What the invariant on the write buffer looks at. *)
Definition writing (w : world) : bool * list Z * option thread * option qps_action :=
  (zclient_nexus w, wb (zc w), t_write (zc w), qf (zc w) ≫= qf_write).

(** The events that keep the invariant on the write buffer: all, but for
    a change of the back-end, and for handlers that break it themselves. *)
Definition steady_event (w : world) (e : reactor_event) : Prop :=
  match e with
  | Call (Zclient_init_r n) => n = zclient_nexus w
  | Thread_read hs | Nexus_read hs => handlers_keep write_tidy hs
  | _ => True
  end.

(** ** Concrete inputs *)

(** A client of the thread back-end, of own type 9 and subscribed to the
    types 2 and 5, that is about to connect, and its world: the kernel
    gives the descriptor 5 and takes writes as [kw] says. *)
Definition demo_client : zclient :=
  {| sock := -1; enable := 1; fail := 0; redist_default := 9;
     redist := [0; 0; 1; 0; 0; 1; 0; 0; 0; 1; 0];
     default_information := 0;
     ibuf := stream_new 4096; obuf := stream_new 4096; wb := [];
     t_read := None; t_write := None; t_connect := None;
     qf := None; qtr := None |}.

Definition demo_world (kw : nat -> option nat) : world :=
  {| zclient_nexus := false; zc := demo_client;
     k_connect := fun _ => 5; n_connect := 0; k_write := kw; n_write := 0;
     rxq := []; rx_idle := -2; trace := [] |}.

(** The kernel takes every write but the [n]-th. *)
Definition fails_at (n : nat) (i : nat) : option nat :=
  if (i =? n)%nat then None else Some 4096%nat.

(** The prefix 10.0.0.0/8 and a blackhole route to it, without and with a
    nexthop. *)
Definition demo_prefix : prefix := {| prefixlen := 8; prefix_bytes := [10; 0; 0; 0] |}.

Definition demo_blackhole : zapi :=
  {| type := 1; flags := 4; message := 1; safi := 1;
     nexthop := []; ifindex := []; distance := 0; metric := 0 |}.

Definition demo_blackhole_nexthop : zapi :=
  {| type := 1; flags := 4; message := 1; safi := 1;
     nexthop := [[192; 168; 0; 1]]; ifindex := [3]; distance := 0; metric := 0 |}.

(** The client of [demo_client] connected on the descriptor [fd], with
    the bytes [rx] waiting in its socket; the kernel takes every write. *)
Definition demo_connected (fd : Z) (rx : list Z) : world :=
  {| zclient_nexus := false;
     zc := set_t_read (Some (mk_thread (THREAD_READ fd) F_zclient_read_t))
             (set_sock fd demo_client);
     k_connect := fun _ => fd; n_connect := 1;
     k_write := fun _ => Some 4096%nat; n_write := 0;
     rxq := rx; rx_idle := -2; trace := [IoConnect fd] |}.

(** A daemon that registers no handler. *)
Definition no_handlers : handlers :=
  {| router_id_update := None; interface_add := None; interface_delete := None;
     interface_up := None; interface_down := None;
     interface_address_add := None; interface_address_delete := None;
     ipv4_route_add := None; ipv4_route_delete := None;
     ipv6_route_add := None; ipv6_route_delete := None |}.

(** An interface with room for a hardware address of 20 bytes, and a
    registry that knows it under the name "eth" and the index 3.  The
    families 2 and 10 have addresses of 4 and of 16 bytes, the union of
    [struct prefix] has 16 bytes, and the host is big-endian. *)
Definition demo_interface : interface :=
  {| ifp_ifindex := 0; ifp_status := 0; ifp_flags := 0; ifp_metric := 0;
     ifp_mtu := 0; ifp_mtu6 := 0; ifp_bandwidth := 0;
     ifp_hw_addr_len := 0; ifp_hw_addr := replicate 20 0 |}.

Definition demo_name : list Z := [101; 116; 104] ++ replicate 17 0.

Definition demo_if_h : if_h := {|
  INTERFACE_NAMSIZ := 20;
  sizeof_prefix_u := 16;
  prefix_blen := fun p =>
    if pfx_family p =? 2 then 4 else if pfx_family p =? 10 then 16 else 0;
  uint64_of_bytes := foldl (fun a b => a * 256 + b) 0;
  if_get_by_name_len := fun _ _ => demo_interface;
  if_lookup_by_name_len := fun name len =>
    if bool_decide (take (Z.to_nat len) name = [101; 116; 104])
    then Some demo_interface else None;
  if_lookup_by_index := fun i => if i =? 3 then Some demo_interface else None;
  connected_add_by_prefix := fun _ p d =>
    Some {| conn_flags := 0; conn_address := Some p; conn_destination := d |};
  connected_delete_by_prefix := fun _ p =>
    Some {| conn_flags := 0; conn_address := Some p; conn_destination := None |}
|}.

(** The seven values of an interface that is up, with the index 3, an MTU
    of 1500 and a metric whose 32 bits all are set, and an address message
    for 10.0.0.1/24 with the destination 10.0.0.255 on it. *)
Definition demo_values : list Z :=
  interface_values 3 1 [0; 0; 0; 0; 0; 1; 16; 67] 4294967295 1500 1500 0.

Definition demo_address : list Z :=
  be32 3 ++ [1] ++ [2] ++ [10; 0; 0; 1] ++ [24] ++ [10; 0; 0; 255].

(** A stream that holds the bytes [bs], none of them read. *)
Definition demo_stream (bs : list Z) : stream :=
  {| st_size := 4096; st_getp := 0; st_data := bs |}.

(** A daemon whose one handler, for interfaces that come up, answers 0
    and does nothing. *)
Definition demo_handlers : handlers :=
  {| router_id_update := None; interface_add := None; interface_delete := None;
     interface_up := Some (fun _ _ => mret 0); interface_down := None;
     interface_address_add := None; interface_address_delete := None;
     ipv4_route_add := None; ipv4_route_delete := None;
     ipv6_route_add := None; ipv6_route_delete := None |}.


Definition demo_slow (fd : Z) : world :=
  {| zclient_nexus := false;
     zc := set_t_read (Some (mk_thread (THREAD_READ fd) F_zclient_read_t))
             (set_sock fd demo_client);
     k_connect := fun _ => fd; n_connect := 1;
     k_write := fun _ => Some 2%nat; n_write := 0;
     rxq := []; rx_idle := -2; trace := [IoConnect fd] |}.

(** * Properties *)

(** ** The stream library *)

Lemma stream_append_app {B : Type} (s : stream) (a b : list Z) (k : stream -> option B) :
  (stream_append s a ≫= fun s1 => stream_append s1 b ≫= k)
  = stream_append s (a ++ b) ≫= k.
Proof.
  unfold stream_append, STREAM_WRITEABLE, stream_get_endp.
  rewrite length_app.
  destruct (Z.leb_spec (Z.of_nat (length a))
              (st_size s - Z.of_nat (length (st_data s)))) as [Ha|Ha]; cbn.
  - rewrite length_app.
    destruct (Z.leb_spec (Z.of_nat (length b))
                (st_size s - Z.of_nat (length (st_data s) + length a))) as [Hb|Hb];
      destruct (Z.leb_spec (Z.of_nat (length a + length b))
                  (st_size s - Z.of_nat (length (st_data s)))) as [Hc|Hc];
      cbn; try lia; try reflexivity.
    by rewrite app_assoc.
  - destruct (Z.leb_spec (Z.of_nat (length a + length b))
                (st_size s - Z.of_nat (length (st_data s)))) as [Hc|Hc]; [lia | done].
Qed.

Lemma stream_append_app_end (s : stream) (a b : list Z) :
  (stream_append s a ≫= fun s1 => stream_append s1 b) = stream_append s (a ++ b).
Proof.
  pose proof (stream_append_app s a b Some) as H.
  destruct (stream_append s (a ++ b)) as [s2|]; cbn in H;
    (destruct (stream_append s a) as [s1|]; cbn in *; [|done]);
    by destruct (stream_append s1 b).
Qed.

Lemma stream_append_Some (s s' : stream) (bs : list Z) :
  stream_append s bs = Some s' <->
  Z.of_nat (length (st_data s)) + Z.of_nat (length bs) <= st_size s
  /\ s' = {| st_size := st_size s; st_getp := st_getp s; st_data := st_data s ++ bs |}.
Proof.
  unfold stream_append, STREAM_WRITEABLE, stream_get_endp.
  destruct (Z.leb_spec (Z.of_nat (length bs))
              (st_size s - Z.of_nat (length (st_data s)))); split.
  - intros [= <-]. split; [lia | done].
  - by intros [_ ->].
  - done.
  - intros [? _]; lia.
Qed.

Lemma stream_append_None (s : stream) (bs : list Z) :
  stream_append s bs = None <->
  st_size s < Z.of_nat (length (st_data s)) + Z.of_nat (length bs).
Proof.
  unfold stream_append, STREAM_WRITEABLE, stream_get_endp.
  destruct (Z.leb_spec (Z.of_nat (length bs))
              (st_size s - Z.of_nat (length (st_data s)))); split; (done || lia).
Qed.

Lemma stream_append_writeable (s s' : stream) (bs : list Z) :
  stream_append s bs = Some s' -> 0 <= STREAM_WRITEABLE s'.
Proof.
  intros [H ->]%stream_append_Some. unfold STREAM_WRITEABLE, stream_get_endp. cbn.
  rewrite length_app. lia.
Qed.

Lemma writes_append (bs : list Z) : writes (fun s => stream_append s bs) bs.
Proof. by intros s _. Qed.

Lemma writes_nil : writes Some [].
Proof.
  intros s Hs. symmetry. apply stream_append_Some. cbn. split.
  - unfold STREAM_WRITEABLE, stream_get_endp in Hs. lia.
  - rewrite app_nil_r. by destruct s.
Qed.

Lemma writes_bind (f g : stream -> option stream) (a b : list Z) :
  writes f a -> writes g b -> writes (fun s => f s ≫= g) (a ++ b).
Proof.
  intros Hf Hg s Hs. rewrite (Hf s Hs), <- stream_append_app_end.
  destruct (stream_append s a) as [s1|] eqn:E; cbn; [|done].
  apply Hg. eauto using stream_append_writeable.
Qed.

Lemma writes_if (c : bool) (f g : stream -> option stream) (a b : list Z) :
  writes f a -> writes g b ->
  writes (fun s => if c then f s else g s) (if c then a else b).
Proof. by destruct c. Qed.

Lemma chain_step {B : Type} (blk : stream -> option stream) (f' g : stream -> option B)
    (a b : list Z) :
  writes blk a -> chain f' b g -> chain (fun s => blk s ≫= f') (a ++ b) g.
Proof.
  intros Hblk Hf s Hs. rewrite (Hblk s Hs), <- stream_append_app.
  destruct (stream_append s a) as [s1|] eqn:E; cbn; [|done].
  apply Hf. eauto using stream_append_writeable.
Qed.

Lemma chain_last {B : Type} (blk : stream -> option stream) (g : stream -> option B)
    (a : list Z) :
  writes blk a -> chain (fun s => blk s ≫= g) a g.
Proof. intros Hblk s Hs. by rewrite (Hblk s Hs). Qed.

Lemma chain_bytes {B : Type} (f g : stream -> option B) (a b : list Z) :
  chain f a g -> a = b -> chain f b g.
Proof. by intros H <-. Qed.

Lemma be16_value (w : Z) :
  0 <= w < 65536 -> (w / 256) mod 256 * 256 + w mod 256 = w.
Proof.
  intros H. pose proof (Z.div_mod w 256 ltac:(lia)) as Hd.
  assert (0 <= w / 256 < 256) as Hq
    by (split; [apply Z.div_pos | apply Z.div_lt_upper_bound]; lia).
  rewrite (Z.mod_small (w / 256)) by done. lia.
Qed.

(** A frame built behind a six-byte placeholder and patched: it is the
    framed body when it fits the stream, and the code gives up otherwise. *)
Lemma patched_frame (s : stream) (body : list Z) :
  stream_append (stream_reset s) (be16 ZEBRA_HEADER_SIZE ++ body) ≫= patch_length
  = if 2 + Z.of_nat (length body) <=? st_size s
    then Some (holding (framed body) s) else None.
Proof.
  destruct (stream_append _ _) as [s1|] eqn:E.
  - apply stream_append_Some in E as [Hfit ->]. cbn in Hfit.
    destruct (Z.leb_spec (2 + Z.of_nat (length body)) (st_size s)); [|lia].
    cbn. unfold patch_length, stream_putw_at, stream_get_endp. cbn.
    destruct (Z.leb_spec (0 + 2) (Z.of_nat (S (S (length body))))); [|lia]. cbn.
    unfold holding, framed. change (Z.to_nat 0) with 0%nat. cbn.
    by replace (Z.of_nat (S (S (length body)))) with (2 + Z.of_nat (length body)) by lia.
  - apply stream_append_None in E. cbn in E.
    destruct (Z.leb_spec (2 + Z.of_nat (length body)) (st_size s)); [lia|done].
Qed.

Lemma framed_length_field (body : list Z) :
  2 + Z.of_nat (length body) < 65536 ->
  frame_length_field (framed body) = Some (Z.of_nat (length (framed body))).
Proof.
  intros H. unfold framed. cbn. f_equal.
  rewrite be16_value by lia. lia.
Qed.

(** ** The encoders *)

Section Encoders.

Context `{zh : zebra_h}.

Lemma writes_putc (c : Z) : writes (fun s => stream_putc s c) [c mod 256].
Proof. apply writes_append. Qed.

Lemma writes_putw (w : Z) : writes (fun s => stream_putw s w) (be16 w).
Proof. apply writes_append. Qed.

Lemma writes_putl (l : Z) : writes (fun s => stream_putl s l) (be32 l).
Proof. apply writes_append. Qed.

Lemma writes_put (n : nat) (src : list Z) (size : Z) :
  size = Z.of_nat n -> (n <= length src)%nat ->
  writes (fun s => stream_put s src size) (take n src).
Proof.
  intros -> Hn s _. unfold stream_put.
  destruct (Z.leb_spec 0 (Z.of_nat n)); [|lia].
  destruct (Z.leb_spec (Z.of_nat n) (Z.of_nat (length src))); [|lia].
  cbn. by rewrite Nat2Z.id.
Qed.

Lemma writes_create_header (command : Z) :
  writes (fun s => zclient_create_header s command)
         (be16 ZEBRA_HEADER_SIZE ++ [ZEBRA_HEADER_MARKER; ZSERV_VERSION] ++ be16 command).
Proof.
  intros s _. unfold zclient_create_header, stream_putw, stream_putc.
  rewrite !stream_append_app, stream_append_app_end. reflexivity.
Qed.

Lemma writes_nexthops_ipv4 (nhs : list (list Z)) :
  Forall (fun addr => (4 <= length addr)%nat) nhs ->
  writes (fun s => put_nexthops_ipv4 s nhs) (concat (entry_ipv4 <$> nhs)).
Proof.
  induction 1 as [|a nhs Ha _ IH]; cbn.
  - apply writes_nil.
  - apply (writes_bind (fun s => stream_putc s ZEBRA_NEXTHOP_IPV4) _ [_] (_ ++ _)).
    + apply writes_putc.
    + apply (writes_bind (fun s => stream_put_in_addr s a)); [|apply IH].
      by apply (writes_put 4).
Qed.

Lemma writes_nexthops_ipv6 (nhs : list (list Z)) :
  Forall (fun addr => (16 <= length addr)%nat) nhs ->
  writes (fun s => put_nexthops_ipv6 s nhs) (concat (entry_ipv6 <$> nhs)).
Proof.
  induction 1 as [|a nhs Ha _ IH]; cbn.
  - apply writes_nil.
  - apply (writes_bind (fun s => stream_putc s ZEBRA_NEXTHOP_IPV6) _ [_] (_ ++ _)).
    + apply writes_putc.
    + apply (writes_bind (fun s => stream_put s a 16)); [|apply IH].
      by apply (writes_put 16).
Qed.

Lemma writes_ifindexes (l : list Z) :
  writes (fun s => put_ifindexes s l) (concat (entry_ifindex <$> l)).
Proof.
  induction l as [|i l IH]; cbn.
  - apply writes_nil.
  - apply (writes_bind (fun s => stream_putc s ZEBRA_NEXTHOP_IFINDEX) _ [_]
             (be32 i ++ concat (entry_ifindex <$> l))).
    + apply writes_putc.
    + apply (writes_bind (fun s => stream_putl s i)); [apply writes_putl | apply IH].
Qed.

(** On a stream of negative capacity nothing can be written. *)
Lemma create_header_no_room (s : stream) (command : Z) :
  st_size s < 0 -> zclient_create_header (stream_reset s) command = None.
Proof.
  intros H. unfold zclient_create_header, stream_putw.
  by rewrite (proj2 (stream_append_None _ _)) by (cbn; lia).
Qed.

Ltac chain_steps :=
  repeat first
    [ eapply chain_last; [ | ]
    | eapply chain_step ].

Lemma zapi_ipv4_route_obuf_eq (cmd : Z) (p : prefix) (api : zapi) (s : stream) :
  route_args_ok 4 p api ->
  zapi_ipv4_route_obuf cmd p api s
  = if Z.of_nat (length (ipv4_route_frame cmd p api)) <=? st_size s
    then Some (holding (ipv4_route_frame cmd p api) s) else None.
Proof.
  intros [Hp Hn].
  assert (Z.of_nat (length (ipv4_route_frame cmd p api))
          = 2 + Z.of_nat (length (route_front cmd p api ++ nexthops_ipv4 api
                                  ++ route_back api))) as ->
    by (unfold ipv4_route_frame, framed; rewrite length_app; cbn [length be16]; lia).
  unfold ipv4_route_frame. rewrite <- patched_frame.
  destruct (Z.le_gt_cases 0 (st_size s)) as [Hs|Hs].
  - unfold zapi_ipv4_route_obuf. cbn zeta.
    assert (0 <= STREAM_WRITEABLE (stream_reset s)) as Hw
      by (unfold STREAM_WRITEABLE, stream_get_endp; cbn; lia).
    revert Hw. generalize (stream_reset s). 
    eapply chain_bytes.
    + eapply chain_step; [apply writes_create_header|].
      eapply chain_step; [apply writes_putc|].
      eapply chain_step; [apply writes_putc|].
      eapply chain_step; [apply writes_putc|].
      eapply chain_step; [apply writes_putw|].
      eapply chain_step; [apply writes_putc|].
      eapply chain_step; [apply (writes_put (Z.to_nat (PSIZE (prefixlen p)))); lia|].
      eapply chain_step.
      { apply writes_if; [|apply writes_nil].
        eapply writes_bind.
        - apply writes_if; [|apply writes_putc].
          eapply writes_bind; apply writes_putc.
        - eapply writes_bind; [by apply writes_nexthops_ipv4 | apply writes_ifindexes]. }
      eapply chain_step; [apply writes_if; [apply writes_putc | apply writes_nil]|].
      eapply chain_last. apply writes_if; [apply writes_putl | apply writes_nil].
    + unfold route_front, nexthops_ipv4, route_back, entry_blackhole.
      repeat case_match; cbn; rewrite <- ?app_assoc; reflexivity.
  - unfold zapi_ipv4_route_obuf. cbn zeta. rewrite create_header_no_room by done.
    by rewrite (proj2 (stream_append_None _ _)) by (cbn; lia).
Qed.

End Encoders.

Section EncoderFrames.

Context `{zh : zebra_h}.

Lemma zapi_ipv6_route_obuf_eq (cmd : Z) (p : prefix) (api : zapi) (s : stream) :
  route_args_ok 16 p api ->
  zapi_ipv6_route_obuf cmd p api s
  = if Z.of_nat (length (ipv6_route_frame cmd p api)) <=? st_size s
    then Some (holding (ipv6_route_frame cmd p api) s) else None.
Proof.
  intros [Hp Hn].
  assert (Z.of_nat (length (ipv6_route_frame cmd p api))
          = 2 + Z.of_nat (length (route_front cmd p api ++ nexthops_ipv6 api
                                  ++ route_back api))) as ->
    by (unfold ipv6_route_frame, framed; rewrite length_app; cbn [length be16]; lia).
  unfold ipv6_route_frame. rewrite <- patched_frame.
  destruct (Z.le_gt_cases 0 (st_size s)) as [Hs|Hs].
  - unfold zapi_ipv6_route_obuf. cbn zeta.
    assert (0 <= STREAM_WRITEABLE (stream_reset s)) as Hw
      by (unfold STREAM_WRITEABLE, stream_get_endp; cbn; lia).
    revert Hw. generalize (stream_reset s).
    eapply chain_bytes.
    + eapply chain_step; [apply writes_create_header|].
      eapply chain_step; [apply writes_putc|].
      eapply chain_step; [apply writes_putc|].
      eapply chain_step; [apply writes_putc|].
      eapply chain_step; [apply writes_putw|].
      eapply chain_step; [apply writes_putc|].
      eapply chain_step; [apply (writes_put (Z.to_nat (PSIZE (prefixlen p)))); lia|].
      eapply chain_step.
      { apply writes_if; [|apply writes_nil].
        eapply writes_bind; [apply writes_putc|].
        eapply writes_bind; [by apply writes_nexthops_ipv6 | apply writes_ifindexes]. }
      eapply chain_step; [apply writes_if; [apply writes_putc | apply writes_nil]|].
      eapply chain_last. apply writes_if; [apply writes_putl | apply writes_nil].
    + unfold route_front, nexthops_ipv6, route_back.
      repeat case_match; cbn; rewrite <- ?app_assoc; reflexivity.
  - unfold zapi_ipv6_route_obuf. cbn zeta. rewrite create_header_no_room by done.
    by rewrite (proj2 (stream_append_None _ _)) by (cbn; lia).
Qed.

Lemma zebra_redistribute_obuf_eq (command type : Z) (s : stream) :
  zebra_redistribute_obuf command type s
  = if 7 <=? st_size s then Some (holding (type_frame command type) s) else None.
Proof.
  change (type_frame command type)
    with (framed ([ZEBRA_HEADER_MARKER; ZSERV_VERSION] ++ be16 command ++ [type mod 256])).
  change 7 with (2 + Z.of_nat (length ([ZEBRA_HEADER_MARKER; ZSERV_VERSION]
                                       ++ be16 command ++ [type mod 256]))).
  rewrite <- patched_frame.
  destruct (Z.le_gt_cases 0 (st_size s)) as [Hs|Hs].
  - unfold zebra_redistribute_obuf. cbn zeta.
    assert (0 <= STREAM_WRITEABLE (stream_reset s)) as Hw
      by (unfold STREAM_WRITEABLE, stream_get_endp; cbn; lia).
    revert Hw. generalize (stream_reset s).
    eapply chain_bytes.
    + eapply chain_step; [apply writes_create_header|].
      eapply chain_last. apply writes_putc.
    + reflexivity.
  - unfold zebra_redistribute_obuf. cbn zeta. rewrite create_header_no_room by done.
    by rewrite (proj2 (stream_append_None _ _)) by (cbn; lia).
Qed.

Lemma zebra_hello_obuf_eq (redist_default : Z) (s : stream) :
  zebra_hello_obuf redist_default s
  = if 7 <=? st_size s
    then Some (holding (type_frame ZEBRA_HELLO redist_default) s) else None.
Proof. apply zebra_redistribute_obuf_eq. Qed.

Lemma zebra_message_obuf_eq (command : Z) (s : stream) :
  zclient_create_header (stream_reset s) command
  = if 6 <=? st_size s then Some (holding (message_frame command) s) else None.
Proof.
  destruct (Z.le_gt_cases 0 (st_size s)) as [Hs|Hs].
  - rewrite writes_create_header
      by (unfold STREAM_WRITEABLE, stream_get_endp; cbn; lia).
    destruct (stream_append _ _) eqn:E;
      [apply stream_append_Some in E as [Hfit ->] | apply stream_append_None in E];
      cbn in *; destruct (Z.leb_spec 6 (st_size s)); (done || lia).
  - rewrite create_header_no_room by done.
    destruct (Z.leb_spec 6 (st_size s)); (done || lia).
Qed.

Lemma length_field_of_frame (f : list Z) (s s' : stream) :
  st_size s < 65536 ->
  (if Z.of_nat (length f) <=? st_size s then Some (holding f s) else None) = Some s' ->
  (exists body, f = framed body) ->
  frame_length_field (st_data s') = Some (stream_get_endp s').
Proof.
  intros Hs Hr [body ->].
  destruct (Z.leb_spec (Z.of_nat (length (framed body))) (st_size s)) as [Hf|]; [|done].
  injection Hr as <-. unfold stream_get_endp. cbn [holding st_data].
  apply framed_length_field. unfold framed in Hf. rewrite length_app in Hf.
  cbn [length be16] in Hf. lia.
Qed.

End EncoderFrames.

(** ** Sending a frame *)

Ltac munfold :=
  cbv [mbind M_bind mret M_ret get_zc get_world modify_zc modify_world emit
       lift_option undefined on_obuf on_ibuf on_qf ibuf_get].

#[global] Instance stable_refl : Reflexive stable.
Proof. by intros w; split. Qed.

#[global] Instance stable_trans : Transitive stable.
Proof.
  intros w1 w2 w3 [] []. split; try congruence; auto.
Qed.

#[global] Instance calm_refl : Reflexive calm.
Proof. by intros w; split. Qed.

#[global] Instance calm_trans : Transitive calm.
Proof. intros w1 w2 w3 [] []. split; congruence. Qed.

Section Sending.

Context `{zh : zebra_h}.

Lemma stable_tokens_ok (w w' : world) : stable w w' -> tokens_ok w -> tokens_ok w'.
Proof.
  intros [] Hok Hn. destruct Hok as [? ?]; [congruence|]. auto.
Qed.

Lemma calm_connect_timer (w w' : world) :
  stable w w' -> calm w w' -> connect_timer w' = connect_timer w.
Proof.
  intros Hs Hc. unfold connect_timer.
  by rewrite (stable_nexus _ _ Hs), (calm_t_connect _ _ Hc), (calm_qtr _ _ Hc).
Qed.

(** The client fails: the count goes up, everything is stopped, the retry
    is armed as the count allows. *)
Lemma zclient_failed_run (w : world) :
  tokens_ok w ->
  exists w', zclient_failed w = Some (-1, w')
    /\ stable w w'
    /\ sock (zc w') = (if sock (zc w) >=? 0 then -1 else sock (zc w))
    /\ fail (zc w') = fail (zc w) + 1
    /\ trace w' = trace w ++ (if sock (zc w) >=? 0 then [IoClose (sock (zc w))] else [])
    /\ n_write w' = n_write w /\ n_connect w' = n_connect w
    /\ rxq w' = rxq w /\ rx_idle w' = rx_idle w
    /\ ibuf (zc w') = stream_reset (ibuf (zc w))
    /\ st_data (obuf (zc w')) = [] /\ wb (zc w') = []
    /\ t_read (zc w') = None /\ t_write (zc w') = None
    /\ connect_timer w' = retry_delay (fail (zc w) + 1).
Proof.
  intros Hok. unfold zclient_failed, zclient_stop, zclient_event, zclient_event_r,
    zclient_event_t, tokens_ok, connect_timer, retry_delay in *.
  munfold. cbn.
  destruct (zclient_nexus w) eqn:En.
  - destruct Hok as [[f Ef] [t Et]]; [done|]. rewrite Ef, Et. cbn.
    destruct (sock (zc w) >=? 0) eqn:Es; cbn; rewrite ?En; cbn;
      destruct (fail (zc w) + 1 >=? 10) eqn:E10; cbn;
      (eexists; split; [reflexivity|]); cbn; rewrite ?En, ?Es, ?app_nil_r;
      repeat split; cbn; eauto; try congruence.
  - destruct (qf (zc w)) as [f|] eqn:Ef, (qtr (zc w)) as [t|] eqn:Et; cbn;
      destruct (sock (zc w) >=? 0) eqn:Es; cbn; rewrite ?En; cbn;
      destruct (fail (zc w) + 1 >=? 10) eqn:E10; cbn;
      (eexists; split; [reflexivity|]); cbn; rewrite ?En, ?Ef, ?Et, ?Es, ?app_nil_r;
      repeat split; cbn; eauto; try congruence.
Qed.

Lemma send_frame_down (f : list Z) (w : world) :
  sock (zc w) < 0 ->
  exists w', send_frame f w = Some (-1, w')
    /\ stable w w' /\ calm w w' /\ trace w' = trace w /\ n_write w' = n_write w.
Proof.
  intros Hs. unfold send_frame, zclient_send_message. munfold. cbn.
  destruct (Z.ltb_spec (sock (zc w)) 0); [|lia].
  eexists; split; [reflexivity|]. by split_and!.
Qed.

Lemma send_frame_ok (f : list Z) (w : world) (k : nat) :
  0 <= sock (zc w) -> tokens_ok w -> k_write w (n_write w) = Some k ->
  exists w' st, send_frame f w = Some (0, w')
    /\ stable w w' /\ calm w w'
    /\ trace w' = trace w ++ [IoWrite (sock (zc w)) f st]
    /\ st <> BUFFER_ERROR
    /\ n_write w' = S (n_write w).
Proof.
  intros Hs Hok Hk.
  unfold send_frame, zclient_send_message, buffer_write, THREAD_WRITE_ON, tokens_ok in *.
  munfold. cbn.
  destruct (Z.ltb_spec (sock (zc w)) 0); [lia|]. cbn. rewrite Hk. cbn.
  destruct (drop k (wb (zc w) ++ f)) as [|b rest]; cbn;
    destruct (zclient_nexus w) eqn:En; cbn.
  1,3: destruct Hok as [[q Eq] Ht]; [done|]; rewrite Eq; cbn.
  4: destruct (t_write (zc w)) as [t|] eqn:Et; cbn.
  all: do 2 eexists; (split; [reflexivity|]); cbn;
    rewrite ?Eq; repeat split; cbn; eauto; done.
Qed.

Lemma send_frame_err (f : list Z) (w : world) :
  0 <= sock (zc w) -> tokens_ok w -> k_write w (n_write w) = None ->
  exists w', send_frame f w = Some (-1, w')
    /\ stable w w'
    /\ sock (zc w') = -1
    /\ fail (zc w') = fail (zc w) + 1
    /\ trace w' = trace w ++ [IoWrite (sock (zc w)) f BUFFER_ERROR; IoClose (sock (zc w))]
    /\ n_write w' = S (n_write w) /\ n_connect w' = n_connect w
    /\ connect_timer w' = retry_delay (fail (zc w) + 1).
Proof.
  intros Hs Hok Hk.
  unfold send_frame, zclient_send_message, buffer_write.
  munfold. cbn.
  destruct (Z.ltb_spec (sock (zc w)) 0); [lia|]. cbn. rewrite Hk. cbn.
  match goal with
  | |- context [zclient_failed ?W] =>
      destruct (zclient_failed_run W) as (w' & -> & Hst & Hsock & Hfail & Htr & Hnw & Hnc
                                             & _ & _ & _ & _ & _ & _ & _ & Htimer)
  end.
  { exact Hok. }
  cbn in *. destruct (Z.geb_spec (sock (zc w)) 0); [|lia].
  exists w'. split; [done|]. rewrite <- app_assoc in Htr.
  destruct Hst; cbn in *. repeat split; auto.
Qed.

End Sending.

(** ** The handshake *)

Section Handshake.

Context `{zh : zebra_h}.

Lemma on_obuf_send (enc : stream -> option stream) (f : list Z) (w : world) :
  enc (obuf (zc w)) = Some (holding f (obuf (zc w))) ->
  (on_obuf enc;; zclient_send_message) w = send_frame f w.
Proof.
  intros H. unfold send_frame. munfold. by rewrite H.
Qed.

Lemma zebra_message_send_eq (command : Z) (w : world) :
  6 <= st_size (obuf (zc w)) ->
  zebra_message_send command w = send_frame (message_frame command) w.
Proof.
  intros H. apply on_obuf_send. rewrite zebra_message_obuf_eq.
  by destruct (Z.leb_spec 6 (st_size (obuf (zc w)))); [|lia].
Qed.

Lemma zebra_redistribute_send_eq (command type : Z) (w : world) :
  7 <= st_size (obuf (zc w)) ->
  zebra_redistribute_send command type w = send_frame (type_frame command type) w.
Proof.
  intros H. apply on_obuf_send. rewrite zebra_redistribute_obuf_eq.
  by destruct (Z.leb_spec 7 (st_size (obuf (zc w)))); [|lia].
Qed.

Lemma zebra_hello_send_eq (w : world) :
  7 <= st_size (obuf (zc w)) ->
  zebra_hello_send w
  = if truthy (redist_default (zc w))
    then send_frame (type_frame ZEBRA_HELLO (redist_default (zc w))) w
    else Some (0, w).
Proof.
  intros H. unfold zebra_hello_send. munfold. cbn.
  destruct (truthy (redist_default (zc w))); [|done].
  apply on_obuf_send. rewrite zebra_hello_obuf_eq.
  by destruct (Z.leb_spec 7 (st_size (obuf (zc w)))); [|lia].
Qed.

Lemma zapi_ipv4_route_eq (cmd : Z) (p : prefix) (api : zapi) (w : world) :
  route_args_ok 4 p api ->
  Z.of_nat (length (ipv4_route_frame cmd p api)) <= st_size (obuf (zc w)) ->
  zapi_ipv4_route cmd p api w = send_frame (ipv4_route_frame cmd p api) w.
Proof.
  intros Hok H. apply on_obuf_send. rewrite zapi_ipv4_route_obuf_eq by done.
  by destruct (Z.leb_spec (Z.of_nat (length (ipv4_route_frame cmd p api)))
                 (st_size (obuf (zc w)))); [|lia].
Qed.

Lemma zapi_ipv6_route_eq (cmd : Z) (p : prefix) (api : zapi) (w : world) :
  route_args_ok 16 p api ->
  Z.of_nat (length (ipv6_route_frame cmd p api)) <= st_size (obuf (zc w)) ->
  zapi_ipv6_route cmd p api w = send_frame (ipv6_route_frame cmd p api) w.
Proof.
  intros Hok H. apply on_obuf_send. rewrite zapi_ipv6_route_obuf_eq by done.
  by destruct (Z.leb_spec (Z.of_nat (length (ipv6_route_frame cmd p api)))
                 (st_size (obuf (zc w)))); [|lia].
Qed.

Lemma frames_of_app (t1 t2 : list io_event) :
  frames_of (t1 ++ t2) = frames_of t1 ++ frames_of t2.
Proof. apply omap_app. Qed.

Lemma sent_write (w w' : world) (fd : Z) (f : list Z) (st : buffer_status) :
  trace w' = trace w ++ [IoWrite fd f st] -> st <> BUFFER_ERROR ->
  sent w' = sent w ++ [f].
Proof.
  intros Ht Hst. unfold sent. rewrite Ht, frames_of_app. f_equal.
  by destruct st.
Qed.

Lemma sent_same (w w' : world) : trace w' = trace w -> sent w' = sent w.
Proof. unfold sent. by intros ->. Qed.

(** Every send gives a result and keeps the configuration. *)
Lemma send_frame_total (f : list Z) (w : world) :
  tokens_ok w -> exists r w', send_frame f w = Some (r, w') /\ stable w w'.
Proof.
  intros Hok. destruct (Z.lt_ge_cases (sock (zc w)) 0) as [Hs|Hs].
  - destruct (send_frame_down f w Hs) as (w' & E & ? & _). eauto.
  - destruct (k_write w (n_write w)) as [k|] eqn:Ek.
    + destruct (send_frame_ok f w k Hs Hok Ek) as (w' & st & E & ? & _). eauto.
    + destruct (send_frame_err f w Hs Hok Ek) as (w' & E & ? & _). eauto.
Qed.

Lemma attempts_down (fs : list (list Z)) (w : world) :
  sock (zc w) < 0 ->
  exists w', attempts fs w = Some (tt, w')
    /\ stable w w' /\ calm w w' /\ trace w' = trace w /\ n_write w' = n_write w.
Proof.
  revert w. induction fs as [|f fs IH]; intros w Hs; cbn.
  - exists w. by split_and!.
  - destruct (send_frame_down f w Hs) as (w1 & E & Hst & Hc & Ht & Hn).
    destruct (IH w1) as (w2 & E2 & Hst2 & Hc2 & Ht2 & Hn2).
    { rewrite (calm_sock _ _ Hc). done. }
    exists w2. unfold mbind, M_bind. rewrite E. split; [done|].
    split_and!; try (etrans; eassumption).
Qed.

Lemma attempts_ok (fs : list (list Z)) (w : world) :
  0 <= sock (zc w) -> tokens_ok w ->
  (forall i, (i < length fs)%nat -> k_write w (n_write w + i)%nat <> None) ->
  exists w', attempts fs w = Some (tt, w')
    /\ stable w w' /\ calm w w'
    /\ sent w' = sent w ++ fs
    /\ n_write w' = (n_write w + length fs)%nat.
Proof.
  revert w. induction fs as [|f fs IH]; intros w Hs Hok Hk; cbn.
  - exists w. rewrite app_nil_r. split_and!; (done || lia).
  - destruct (k_write w (n_write w)) as [k|] eqn:Ek.
    2: { specialize (Hk 0%nat). rewrite Nat.add_0_r in Hk. cbn in Hk.
         exfalso. apply Hk; [lia | done]. }
    destruct (send_frame_ok f w k Hs Hok Ek) as (w1 & st & E & Hst & Hc & Ht & Hne & Hn).
    destruct (IH w1) as (w2 & E2 & Hst2 & Hc2 & Ht2 & Hn2).
    { rewrite (calm_sock _ _ Hc). done. }
    { eauto using stable_tokens_ok. }
    { intros i Hi. rewrite (stable_k_write _ _ Hst), Hn.
      replace (S (n_write w) + i)%nat with (n_write w + S i)%nat by lia.
      apply Hk. cbn. lia. }
    exists w2. unfold mbind, M_bind. rewrite E. split; [done|].
    split_and!; try (etrans; eassumption).
    + rewrite Ht2, (sent_write _ _ _ _ _ Ht Hne), <- app_assoc. done.
    + cbn in *. lia.
Qed.

Lemma attempts_err (j : nat) (fs : list (list Z)) (w : world) :
  0 <= sock (zc w) -> tokens_ok w -> (j < length fs)%nat ->
  (forall i, (i < j)%nat -> k_write w (n_write w + i)%nat <> None) ->
  k_write w (n_write w + j)%nat = None ->
  exists w', attempts fs w = Some (tt, w')
    /\ stable w w'
    /\ sent w' = sent w ++ take j fs
    /\ sock (zc w') = -1
    /\ fail (zc w') = fail (zc w) + 1
    /\ n_connect w' = n_connect w
    /\ connect_timer w' = retry_delay (fail (zc w) + 1).
Proof.
  revert fs w. induction j as [|j IH]; intros [|f fs] w Hs Hok Hj Hk Hnone;
    cbn in Hj; try lia; cbn [attempts take].
  - rewrite Nat.add_0_r in Hnone.
    destruct (send_frame_err f w Hs Hok Hnone)
      as (w1 & E & Hst & Hsock & Hfail & Ht & Hn & Hnc & Htimer).
    destruct (attempts_down fs w1) as (w2 & E2 & Hst2 & Hc2 & Ht2 & Hn2); [lia|].
    exists w2. unfold mbind, M_bind. rewrite E. split; [done|].
    split; [by etrans|].
    split. { rewrite (sent_same _ _ Ht2). unfold sent. rewrite Ht, frames_of_app.
             cbn. by rewrite !app_nil_r. }
    rewrite (calm_sock _ _ Hc2), (calm_fail _ _ Hc2), (calm_n_connect _ _ Hc2),
      (calm_connect_timer _ _ Hst2 Hc2).
    done.
  - destruct (k_write w (n_write w)) as [k|] eqn:Ek.
    2: { specialize (Hk 0%nat). rewrite Nat.add_0_r in Hk.
         exfalso. apply Hk; [lia | done]. }
    destruct (send_frame_ok f w k Hs Hok Ek) as (w1 & st & E & Hst & Hc & Ht & Hne & Hn).
    destruct (IH fs w1) as (w2 & E2 & Hst2 & Hs2 & Hsock & Hfail & Hnc & Htimer).
    { rewrite (calm_sock _ _ Hc). done. }
    { eauto using stable_tokens_ok. }
    { lia. }
    { intros i Hi. rewrite (stable_k_write _ _ Hst), Hn.
      replace (S (n_write w) + i)%nat with (n_write w + S i)%nat by lia.
      apply Hk. lia. }
    { rewrite (stable_k_write _ _ Hst), Hn.
      by replace (S (n_write w) + j)%nat with (n_write w + S j)%nat by lia. }
    exists w2. unfold mbind, M_bind. rewrite E. split; [done|].
    split; [by etrans|].
    split. { rewrite Hs2, (sent_write _ _ _ _ _ Ht Hne), <- app_assoc. done. }
    rewrite Hsock, Hfail, Hnc, Htimer, (calm_fail _ _ Hc), (calm_n_connect _ _ Hc).
    done.
Qed.

Lemma subscribed_stable (rd : Z) (r : list Z) (di : Z) (w w' : world) :
  stable w w' -> subscribed rd r di w -> subscribed rd r di w'.
Proof.
  intros Hst []. split; eauto using stable_tokens_ok.
  - by rewrite (stable_obuf_size _ _ Hst).
  - by rewrite (stable_redist_default _ _ Hst).
  - by rewrite (stable_redist _ _ Hst).
  - by rewrite (stable_default_information _ _ Hst).
Qed.

Lemma attempts_total (fs : list (list Z)) (w : world) :
  tokens_ok w -> exists w', attempts fs w = Some (tt, w') /\ stable w w'.
Proof.
  revert w. induction fs as [|f fs IH]; intros w Hok; cbn.
  - by exists w.
  - destruct (send_frame_total f w Hok) as (r & w1 & E & Hst).
    destruct (IH w1) as (w2 & E2 & Hst2); [eauto using stable_tokens_ok|].
    exists w2. unfold mbind, M_bind. rewrite E. split; [done | by etrans].
Qed.

Lemma attempts_app (fs gs : list (list Z)) (w : world) :
  attempts (fs ++ gs) w = (attempts fs;; attempts gs) w.
Proof.
  revert w. induction fs as [|f fs IH]; intros w; cbn; [done|].
  unfold mbind, M_bind. destruct (send_frame f w) as [[r w1]|]; [|done].
  apply IH.
Qed.

Lemma sends_step {A : Type} (rd : Z) (r : list Z) (di : Z) (m : M A) (K : M Z)
    (fs rest : list (list Z)) :
  sends rd r di m fs ->
  (forall w1, subscribed rd r di w1 -> K w1 = (attempts rest;; mret 0) w1) ->
  forall w, subscribed rd r di w -> (m;; K) w = (attempts (fs ++ rest);; mret 0) w.
Proof.
  intros Hm HK w Hw. specialize (Hm w Hw).
  destruct (attempts_total fs w (sub_tokens _ _ _ _ Hw)) as (w1 & E1 & Hst).
  unfold mbind, M_bind in *. rewrite attempts_app. unfold mbind, M_bind.
  rewrite E1 in *. destruct (m w) as [[a w1']|]; [|done].
  cbn in Hm. injection Hm as ->. apply HK. eauto using subscribed_stable.
Qed.

Lemma sends_send_frame (rd : Z) (r : list Z) (di : Z) (f : list Z) :
  sends rd r di (send_frame f) [f].
Proof.
  intros w Hw. cbn. unfold mbind, M_bind.
  by destruct (send_frame f w) as [[? ?]|].
Qed.

Lemma sends_message (rd : Z) (r : list Z) (di : Z) (command : Z) :
  sends rd r di (zebra_message_send command) [message_frame command].
Proof.
  intros w Hw. rewrite zebra_message_send_eq; [exact (sends_send_frame rd r di _ w Hw)|].
  pose proof (sub_obuf _ _ _ _ Hw). lia.
Qed.

Lemma sends_hello (rd : Z) (r : list Z) (di : Z) :
  sends rd r di zebra_hello_send
        (if truthy rd then [type_frame ZEBRA_HELLO rd] else []).
Proof.
  intros w Hw. rewrite zebra_hello_send_eq by apply Hw.
  rewrite (sub_redist_default _ _ _ _ Hw).
  destruct (truthy rd); [exact (sends_send_frame rd r di _ w Hw) | done].
Qed.

Lemma redist_wanted_eq (c : zclient) (rd : Z) (r : list Z) (t : Z) :
  redist_default c = rd -> redist c = r ->
  redist_wanted c t
  = negb (t =? rd) && match array_get r t with Some x => truthy x | None => false end.
Proof. by intros <- <-. Qed.

Lemma sends_redist_loop (rd : Z) (r : list Z) (di : Z) (c : zclient) (n : nat) (i : Z) :
  redist_default c = rd -> redist c = r ->
  0 <= i -> i + Z.of_nat n <= Z.of_nat (length r) ->
  sends rd r di (zclient_start_redist n i)
        (type_frame ZEBRA_REDISTRIBUTE_ADD
           <$> filter (fun t => redist_wanted c t = true) (seqZ i (Z.of_nat n))).
Proof.
  intros Hrd Hr. revert i. induction n as [|n IH]; intros i Hi Hn w Hw; [done|].
  rewrite seqZ_cons by lia. rewrite filter_cons.
  replace (Z.pred (Z.of_nat (S n))) with (Z.of_nat n) by lia.
  cbn [zclient_start_redist]. munfold. cbn.
  rewrite (sub_redist _ _ _ _ Hw), (sub_redist_default _ _ _ _ Hw).
  destruct (array_get r i) as [x|] eqn:Ex.
  2: { unfold array_get in Ex. destruct (Z.ltb_spec i 0); [lia|].
       apply lookup_ge_None in Ex. lia. }
  rewrite (redist_wanted_eq c rd r i Hrd Hr), Ex.
  destruct (negb (i =? rd) && truthy x) eqn:Ew.
  - rewrite decide_True by done. cbn [fmap list_fmap attempts].
    rewrite zebra_redistribute_send_eq by apply Hw.
    destruct (send_frame_total (type_frame ZEBRA_REDISTRIBUTE_ADD i) w
                (sub_tokens _ _ _ _ Hw)) as (x' & w1 & E & Hst).
    unfold mbind, M_bind. rewrite E.
    apply (IH (Z.succ i)); [lia | lia | eauto using subscribed_stable].
  - rewrite decide_False by done.
    apply (IH (Z.succ i)); [lia | lia | done].
Qed.

Lemma handshake_tail (rd : Z) (r : list Z) (di : Z) (w : world) :
  subscribed rd r di w ->
  (zclient ← get_zc;
   (if truthy (default_information zclient)
    then zebra_message_send ZEBRA_REDISTRIBUTE_DEFAULT_ADD;; mret tt
    else mret tt);;
   mret 0) w
  = (attempts (if truthy di then [message_frame ZEBRA_REDISTRIBUTE_DEFAULT_ADD] else []);;
     mret 0) w.
Proof.
  intros Hw. pose proof (sends_message rd r di ZEBRA_REDISTRIBUTE_DEFAULT_ADD w Hw) as H.
  unfold mbind at 1 3. unfold M_bind at 1 3. unfold get_zc. cbv beta iota.
  rewrite (sub_default_information _ _ _ _ Hw).
  destruct (truthy di); [|done].
  cbn [attempts] in *. unfold mbind, M_bind, mret, M_ret in *.
  destruct (zebra_message_send _ w) as [[x w1]|],
    (send_frame (message_frame ZEBRA_REDISTRIBUTE_DEFAULT_ADD) w) as [[y w2]|];
    cbn in *; congruence.
Qed.

(** [zclient_start] on a client that is ready and gets a descriptor: the
    client is connected, then the handshake is sent. *)
Lemma zclient_start_connects (w : world) (fd : Z) :
  start_ready w -> k_connect w (n_connect w) = fd -> 0 <= fd ->
  exists w1, zclient_start w = (attempts (handshake (zc w));; mret 0) w1
    /\ stable w w1
    /\ sock (zc w1) = fd /\ fail (zc w1) = 0
    /\ trace w1 = trace w ++ [IoConnect fd]
    /\ n_write w1 = n_write w /\ n_connect w1 = S (n_connect w)
    /\ connect_timer w1 = None.
Proof.
  intros [Hen Hs Htc Hq Hok Hob Hr] Hfd Hpos.
  assert (forall w1, subscribed (redist_default (zc w)) (redist (zc w))
                       (default_information (zc w)) w1 ->
    (zebra_hello_send;;
     zebra_message_send ZEBRA_ROUTER_ID_ADD;;
     zebra_message_send ZEBRA_INTERFACE_ADD;;
     zclient_start_redist (Z.to_nat ZEBRA_ROUTE_MAX) 0;;
     zclient ← get_zc;
     (if truthy (default_information zclient)
      then zebra_message_send ZEBRA_REDISTRIBUTE_DEFAULT_ADD;; mret tt
      else mret tt);;
     mret 0) w1 = (attempts (handshake (zc w));; mret 0) w1) as Hhs.
  { apply sends_step; [apply sends_hello|].
    apply (sends_step _ _ _ _ _ [_]); [apply sends_message|].
    apply (sends_step _ _ _ _ _ [_]); [apply sends_message|].
    apply sends_step.
    - replace ZEBRA_ROUTE_MAX with (Z.of_nat (Z.to_nat ZEBRA_ROUTE_MAX)) at 2 by lia.
      apply sends_redist_loop; (done || lia).
    - apply handshake_tail. }
  unfold zclient_start, zclient_socket_connect, zclient_event, zclient_event_r,
    zclient_event_t, tokens_ok, connect_timer in *.
  munfold. cbn. rewrite Hen. cbn.
  destruct (Z.geb_spec (sock (zc w)) 0); [lia|]. rewrite Htc. cbn.
  rewrite Hq. cbn. rewrite Hfd.
  destruct (Z.ltb_spec fd 0); [lia|]. cbn.
  destruct (zclient_nexus w) eqn:En; cbn.
  - destruct Hok as [[q Eq] [t Et]]; [done|]. rewrite Eq. cbn. rewrite En. cbn.
    eexists. split.
    { apply Hhs. split; cbn; try done; intros _; cbn; rewrite ?Et; eauto. }
    cbn. rewrite En, Et in *. split_and!; try done.
    all: try (split; cbn; rewrite ?Et; by eauto).
    apply bool_decide_eq_false in Hq.
    destruct t as [[[? []]|]]; cbn in *; try done; destruct Hq; eauto.
  - rewrite ?En. cbn. eexists. split.
    { apply Hhs. split; cbn; try done; intros ?; cbn in *; congruence. }
    cbn. rewrite En, Htc. split_and!; try done.
    all: try (split; cbn; by eauto).
Qed.

End Handshake.

(** ** The claims on the handshake *)

Section HandshakeClaims.

Context `{zh : zebra_h}.

Lemma wanted_types_sorted (P : Z -> Prop) `{forall t, Decision (P t)} (n : nat) (i : Z) :
  StronglySorted Z.lt (filter P (seqZ i (Z.of_nat n))).
Proof.
  revert i. induction n as [|n IH]; intros i; [constructor|].
  rewrite seqZ_cons by lia.
  replace (Z.pred (Z.of_nat (S n))) with (Z.of_nat n) by lia.
  rewrite filter_cons. case_decide; [|apply IH].
  constructor; [apply IH|].
  apply list.Forall_forall. intros t [_ Ht%elem_of_seqZ]%list_elem_of_filter. lia.
Qed.

(** What [zclient_start] sends on a successful connection, with [j] the
    number of writes the socket takes before its first error. *)
Lemma zclient_start_sends (w : world) (fd : Z) (j : nat) :
  start_ready w ->
  k_connect w (n_connect w) = fd -> 0 <= fd ->
  (forall i, (i < j)%nat -> k_write w (n_write w + i)%nat <> None) ->
  ((j < length (handshake (zc w)))%nat -> k_write w (n_write w + j)%nat = None) ->
  (j <= length (handshake (zc w)))%nat ->
  exists w', zclient_start w = Some (0, w')
    /\ sent w' = sent w ++ take j (handshake (zc w))
    /\ if decide (j < length (handshake (zc w)))%nat
       then sock (zc w') = -1 /\ fail (zc w') = 1 /\ connect_timer w' = Some 10
       else sock (zc w') = fd /\ fail (zc w') = 0 /\ connect_timer w' = None.
Proof.
  intros Hready Hfd Hpos Hk Hnone Hj.
  destruct (zclient_start_connects w fd Hready Hfd Hpos)
    as (w1 & -> & Hst & Hsock & Hfail & Htr & Hnw & Hnc & Htimer).
  assert (tokens_ok w1) as Hok1
    by (eapply stable_tokens_ok; [done | apply Hready]).
  assert (sent w1 = sent w) as Hsent1.
  { unfold sent. rewrite Htr, frames_of_app. cbn. by rewrite app_nil_r. }
  unfold mbind, M_bind. case_decide as Hlt.
  - destruct (attempts_err j (handshake (zc w)) w1)
      as (w' & -> & Hst' & Hsent & Hsock' & Hfail' & _ & Htimer'); try done.
    + lia.
    + intros i Hi. rewrite (stable_k_write _ _ Hst), Hnw. by apply Hk.
    + rewrite (stable_k_write _ _ Hst), Hnw. by apply Hnone.
    + exists w'. split; [done|]. rewrite Hsent, Hsent1, Hfail', Htimer', Hfail.
      done.
  - destruct (attempts_ok (handshake (zc w)) w1)
      as (w' & -> & Hst' & Hc & Hsent & _); try done.
    + lia.
    + intros i Hi. rewrite (stable_k_write _ _ Hst), Hnw. apply Hk. lia.
    + exists w'. split; [done|].
      rewrite Hsent, Hsent1, (calm_sock _ _ Hc), (calm_fail _ _ Hc),
        (calm_connect_timer _ _ Hst' Hc), take_ge by lia.
      done.
Qed.

(** C5.  On a successful connection [zclient_start] sends the handshake in
    its order: HELLO if redist_default is set, ROUTER_ID_ADD,
    INTERFACE_ADD, the REDISTRIBUTE_ADD messages, REDISTRIBUTE_DEFAULT_ADD
    if default_information is set ([handshake]).  With [j] the number of
    writes the socket takes before its first error, exactly the first [j]
    frames are sent; when that stops the handshake short, nothing more is
    sent and the client has failed: the socket is closed, the failure is
    counted and the retry is armed. *)
Theorem handshake_in_order_until_error (w : world) (fd : Z) (j : nat) :
  start_ready w ->
  k_connect w (n_connect w) = fd -> 0 <= fd ->
  (forall i, (i < j)%nat -> k_write w (n_write w + i)%nat <> None) ->
  ((j < length (handshake (zc w)))%nat -> k_write w (n_write w + j)%nat = None) ->
  (j <= length (handshake (zc w)))%nat ->
  exists w', zclient_start w = Some (0, w')
    /\ sent w' = sent w ++ take j (handshake (zc w))
    /\ if decide (j < length (handshake (zc w)))%nat
       then sock (zc w') = -1 /\ fail (zc w') = 1 /\ connect_timer w' = Some 10
       else sock (zc w') = fd /\ fail (zc w') = 0 /\ connect_timer w' = None.
Proof. apply zclient_start_sends. Qed.

(** C4, as the code has it.  On a successful connection whose writes the
    socket takes, the REDISTRIBUTE_ADD messages [zclient_start] sends are
    those of the types [ts]: in ascending order, each type once, and a type
    is among them exactly when its flag in [redist] is set and it is not
    [redist_default]. *)
Theorem redistribute_replay (w : world) (fd : Z) :
  start_ready w ->
  k_connect w (n_connect w) = fd -> 0 <= fd ->
  (forall i, (i < length (handshake (zc w)))%nat ->
             k_write w (n_write w + i)%nat <> None) ->
  exists w' ts,
    zclient_start w = Some (0, w')
    /\ sent w' = sent w
         ++ (if truthy (redist_default (zc w))
             then [type_frame ZEBRA_HELLO (redist_default (zc w))] else [])
         ++ [message_frame ZEBRA_ROUTER_ID_ADD; message_frame ZEBRA_INTERFACE_ADD]
         ++ (type_frame ZEBRA_REDISTRIBUTE_ADD <$> ts)
         ++ (if truthy (default_information (zc w))
             then [message_frame ZEBRA_REDISTRIBUTE_DEFAULT_ADD] else [])
    /\ StronglySorted Z.lt ts
    /\ NoDup ts
    /\ forall t, t ∈ ts <->
         t <> redist_default (zc w)
         /\ exists r, array_get (redist (zc w)) t = Some r /\ r <> 0.
Proof.
  intros Hready Hfd Hpos Hk.
  destruct (zclient_start_sends w fd (length (handshake (zc w))))
    as (w' & E & Hsent & _); try done; [lia|].
  exists w', (filter (fun t => redist_wanted (zc w) t = true) (seqZ 0 ZEBRA_ROUTE_MAX)).
  rewrite take_ge in Hsent by lia.
  split; [done|]. split; [done|].
  pose proof (ready_redist _ Hready) as Hlen.
  split; [|split].
  - rewrite <- Hlen. apply wanted_types_sorted.
  - apply list.NoDup_filter, NoDup_seqZ.
  - intros t. rewrite list_elem_of_filter, elem_of_seqZ.
    unfold redist_wanted, array_get, truthy.
    destruct (Z.eqb_spec t (redist_default (zc w))) as [->|Hne]; cbn.
    + split; [by intros [? _] | by intros [? _]].
    + destruct (Z.ltb_spec t 0) as [Hneg|Hnn].
      * split; [by intros [? _] | by intros [_ (r & ? & _)]].
      * destruct (redist (zc w) !! Z.to_nat t) as [r|] eqn:Er.
        -- apply lookup_lt_Some in Er.
           destruct (Z.eqb_spec r 0) as [->|Hr]; cbn.
           ++ split; [by intros [? _] | by intros [_ (r & [= <-] & ?)]].
           ++ split; [eauto | intros _; split; [done | lia]].
        -- split; [by intros [? _] | by intros [_ (r & ? & _)]].
Qed.

End HandshakeClaims.

(** ** The claims on the encoders *)

Section EncoderClaims.

Context `{zh : zebra_h}.

Lemma patches_length_frame (enc : stream -> option stream) (body : list Z) (s : stream) :
  st_size s < 65536 ->
  enc s = (if Z.of_nat (length (framed body)) <=? st_size s
           then Some (holding (framed body) s) else None) ->
  patches_length enc (framed body) s.
Proof.
  intros Hs He. unfold patches_length. rewrite He. split.
  - intros Hfit. by destruct (Z.leb_spec (Z.of_nat (length (framed body))) (st_size s));
      [eexists | lia].
  - intros s' Hs'. split.
    + by destruct (_ <=? _); [injection Hs' as <- | ].
    + eapply length_field_of_frame; eauto.
Qed.

(** C6.  In every message the encoders build, the big-endian length field
    at offset 0 is the number of bytes written to the output stream, the
    header included; and the encoders do build their frame when it fits
    the stream. *)
Theorem length_field_counts_bytes (s : stream) :
  st_size s < 65536 ->
  (forall cmd p api, route_args_ok 4 p api ->
     patches_length (zapi_ipv4_route_obuf cmd p api) (ipv4_route_frame cmd p api) s)
  /\ (forall cmd p api, route_args_ok 16 p api ->
        patches_length (zapi_ipv6_route_obuf cmd p api) (ipv6_route_frame cmd p api) s)
  /\ (forall command type,
        patches_length (zebra_redistribute_obuf command type) (type_frame command type) s)
  /\ (forall redist_default,
        patches_length (zebra_hello_obuf redist_default)
                       (type_frame ZEBRA_HELLO redist_default) s).
Proof.
  intros Hs. split_and!.
  - intros cmd p api Hok. apply patches_length_frame; [done|].
    by apply zapi_ipv4_route_obuf_eq.
  - intros cmd p api Hok. apply patches_length_frame; [done|].
    by apply zapi_ipv6_route_obuf_eq.
  - intros command type.
    apply (patches_length_frame _ ([ZEBRA_HEADER_MARKER; ZSERV_VERSION] ++ be16 command
                                   ++ [type mod 256])); [done|].
    apply zebra_redistribute_obuf_eq.
  - intros redist_default.
    apply (patches_length_frame _ ([ZEBRA_HEADER_MARKER; ZSERV_VERSION] ++ be16 ZEBRA_HELLO
                                   ++ [redist_default mod 256])); [done|].
    apply zebra_hello_obuf_eq.
Qed.

(** C7.  A route with the NEXTHOP message flag and the BLACKHOLE flag and
    neither nexthop nor ifindex: between the prefix and the distance and
    metric, the frame holds the count 1 and the one byte of the type
    NEXTHOP_BLACKHOLE, and no address. *)
Theorem blackhole_route_frame (cmd : Z) (p : prefix) (api : zapi) (s : stream) :
  route_args_ok 4 p api ->
  truthy (CHECK_FLAG (message api) ZAPI_MESSAGE_NEXTHOP) = true ->
  truthy (CHECK_FLAG (flags api) ZEBRA_FLAG_BLACKHOLE) = true ->
  nexthop_num api = 0 -> ifindex_num api = 0 ->
  let f := framed (route_front cmd p api
                   ++ [1; ZEBRA_NEXTHOP_BLACKHOLE mod 256]
                   ++ route_back api) in
  zapi_ipv4_route_obuf cmd p api s
  = if Z.of_nat (length f) <=? st_size s then Some (holding f s) else None.
Proof.
  intros Hok Hn Hb Hnh Hif f. rewrite zapi_ipv4_route_obuf_eq by done.
  assert (ipv4_route_frame cmd p api = f) as ->; [|done].
  unfold f, ipv4_route_frame, nexthops_ipv4, nexthop_num, ifindex_num in *.
  rewrite Hn, Hb.
  destruct (nexthop api); [|cbn in Hnh; lia].
  destruct (ifindex api); [|cbn in Hif; lia].
  done.
Qed.

(** C9.  With the NEXTHOP message flag and the BLACKHOLE flag and some
    nexthop or ifindex, the frame holds the count 1, the NEXTHOP_BLACKHOLE
    entry and, behind it, an entry for every nexthop and for every
    ifindex: more entries than the count says. *)
Theorem blackhole_route_extra_entries (cmd : Z) (p : prefix) (api : zapi) (s : stream) :
  route_args_ok 4 p api ->
  truthy (CHECK_FLAG (message api) ZAPI_MESSAGE_NEXTHOP) = true ->
  truthy (CHECK_FLAG (flags api) ZEBRA_FLAG_BLACKHOLE) = true ->
  0 < nexthop_num api \/ 0 < ifindex_num api ->
  let entries := [entry_blackhole] ++ (entry_ipv4 <$> nexthop api)
                 ++ (entry_ifindex <$> ifindex api) in
  let f := framed (route_front cmd p api ++ [1] ++ concat entries ++ route_back api) in
  zapi_ipv4_route_obuf cmd p api s
  = (if Z.of_nat (length f) <=? st_size s then Some (holding f s) else None)
  /\ Z.of_nat (length entries) = 1 + nexthop_num api + ifindex_num api
  /\ 1 < Z.of_nat (length entries).
Proof.
  intros Hok Hn Hb Hnum entries f.
  assert (Z.of_nat (length entries) = 1 + nexthop_num api + ifindex_num api) as Hlen.
  { unfold entries, nexthop_num, ifindex_num.
    rewrite !length_app, !length_fmap. cbn. lia. }
  split; [|split; [done | rewrite Hlen; unfold nexthop_num, ifindex_num in *; lia]].
  rewrite zapi_ipv4_route_obuf_eq by done.
  assert (ipv4_route_frame cmd p api = f) as ->; [|done].
  unfold f, entries, ipv4_route_frame, nexthops_ipv4. rewrite Hn, Hb.
  rewrite !concat_app. cbn. by rewrite <- !app_assoc.
Qed.

End EncoderClaims.


(** ** The claim on the connect retry *)

Section RetryClaims.

Context `{zh : zebra_h}.



Lemma connect_timer_fires_idle (w : world) :
  idle w -> connect_timer_fires w = Some (tt, w).
Proof.
  intros [Htc Hq]. unfold connect_timer_fires, react. munfold. cbn.
  rewrite Htc. destruct (zclient_nexus w); cbn; [|done].
  destruct (qtr (zc w)) as [[[[? []]|]]|]; cbn in *; try done;
    by apply bool_decide_eq_false in Hq; destruct Hq.
Qed.


(** [boot] is the world of a client just made by [zclient_new]. *)
Lemma zclient_new_boot (nexus : bool) (kc : nat -> Z) (kw : nat -> option nat) :
  zclient_new (boot nexus kc kw) = Some (tt, boot nexus kc kw).
Proof. by destruct nexus. Qed.



End RetryClaims.

(** ** The claim on the inbound dispatcher *)

Section ReadClaims.

Context `{zh : zebra_h}.

Lemma bind_run {A B : Type} (m : M A) (k : A -> M B) (w w1 : world) (a : A) :
  m w = Some (a, w1) -> (m ≫= k) w = k a w1.
Proof. intros H. unfold mbind, M_bind. by rewrite H. Qed.

Lemma on_ibuf_run (f : stream -> option stream) (w : world) (s : stream) :
  f (ibuf (zc w)) = Some s -> on_ibuf f w = Some (tt, set_zc (set_ibuf s (zc w)) w).
Proof. intros H. unfold on_ibuf. munfold. by rewrite H. Qed.

Lemma ibuf_get_run (f : stream -> option (Z * stream)) (w : world) (x : Z) (s : stream) :
  f (ibuf (zc w)) = Some (x, s) ->
  ibuf_get f w = Some (x, set_zc (set_ibuf s (zc w)) w).
Proof. intros H. unfold ibuf_get. munfold. by rewrite H. Qed.

(** The header is in the input stream and it is bad: the client fails. *)
Lemma zclient_read_packet_bad (hs : handlers) (already : Z) (w : world)
    (l1 l0 m v c1 c0 : Z) (rest : list Z) :
  st_data (ibuf (zc w)) = l1 :: l0 :: m :: v :: c1 :: c0 :: rest ->
  m <> ZEBRA_HEADER_MARKER \/ v <> ZSERV_VERSION \/ l1 * 256 + l0 < ZEBRA_HEADER_SIZE ->
  exists s, st_data s = st_data (ibuf (zc w)) /\ st_size s = st_size (ibuf (zc w))
    /\ zclient_read_packet hs already w = zclient_failed (set_zc (set_ibuf s (zc w)) w).
Proof.
  intros Hd Hbad. unfold zclient_read_packet.
  erewrite bind_run
    by (apply on_ibuf_run; unfold stream_set_getp, stream_get_endp; rewrite Hd;
        reflexivity).
  erewrite bind_run
    by (apply ibuf_get_run; unfold stream_getw, stream_getc; cbn; rewrite ?Hd;
        reflexivity).
  erewrite bind_run
    by (apply ibuf_get_run; unfold stream_getc; cbn; rewrite ?Hd; reflexivity).
  erewrite bind_run
    by (apply ibuf_get_run; unfold stream_getc; cbn; rewrite ?Hd; reflexivity).
  erewrite bind_run
    by (apply ibuf_get_run; unfold stream_getw, stream_getc; cbn; rewrite ?Hd;
        reflexivity).
  eexists. split; [|split]; [| |
    destruct (Z.eqb_spec m ZEBRA_HEADER_MARKER), (Z.eqb_spec v ZSERV_VERSION); cbn;
    [destruct (Z.ltb_spec (l1 * 256 + l0) ZEBRA_HEADER_SIZE); [reflexivity | lia]
    | reflexivity ..]]; cbn; rewrite ?Hd; done.
Qed.

Lemma header_in_ibuf (data rxq : list Z) (l1 l0 m v c1 c0 : Z) :
  take 6 (data ++ rxq) = [l1; l0; m; v; c1; c0] ->
  (6 <= length data)%nat ->
  exists rest, data = l1 :: l0 :: m :: v :: c1 :: c0 :: rest.
Proof.
  intros H Hlen. rewrite take_app_le in H by done.
  exists (drop 6 data). by rewrite <- (take_drop 6 data) at 1; rewrite H.
Qed.

(** C2.  The client reads from its socket, and the six bytes of the header
    of the frame being received (in the input stream already, or coming
    from the socket) have a marker other than 0xFF, a version other than 2
    or a length below the size of the header: [zclient_read] fails the
    client.  The failure is counted, the socket is closed, the streams and
    the write buffer are reset, the retry is armed as the count allows
    ([retry_delay]; it is pending whenever the count stays below 10), and
    no handler is called: the close is all the client does. *)
Theorem bad_header_fails (hs : handlers) (w : world) (l1 l0 m v c1 c0 : Z) :
  tokens_ok w ->
  0 <= sock (zc w) ->
  ZEBRA_HEADER_SIZE <= st_size (ibuf (zc w)) ->
  take 6 (st_data (ibuf (zc w)) ++ rxq w) = [l1; l0; m; v; c1; c0] ->
  m <> ZEBRA_HEADER_MARKER \/ v <> ZSERV_VERSION \/ l1 * 256 + l0 < ZEBRA_HEADER_SIZE ->
  exists w', zclient_read hs w = Some (-1, w')
    /\ fail (zc w') = fail (zc w) + 1
    /\ sock (zc w') = -1
    /\ trace w' = trace w ++ [IoClose (sock (zc w))]
    /\ st_data (ibuf (zc w')) = [] /\ st_data (obuf (zc w')) = [] /\ wb (zc w') = []
    /\ t_read (zc w') = None /\ t_write (zc w') = None
    /\ connect_timer w' = retry_delay (fail (zc w) + 1)
    /\ (fail (zc w) + 1 < 10 -> is_Some (connect_timer w')).
Proof.
  intros Hok Hsock Hsize Hhdr Hbad.
  assert (forall w1 : world,
    tokens_ok w1 -> sock (zc w1) = sock (zc w) -> fail (zc w1) = fail (zc w) ->
    trace w1 = trace w ->
    (exists rest, st_data (ibuf (zc w1)) = l1 :: l0 :: m :: v :: c1 :: c0 :: rest) ->
    forall already,
    exists w', zclient_read_packet hs already w1 = Some (-1, w')
      /\ fail (zc w') = fail (zc w) + 1
      /\ sock (zc w') = -1
      /\ trace w' = trace w ++ [IoClose (sock (zc w))]
      /\ st_data (ibuf (zc w')) = [] /\ st_data (obuf (zc w')) = [] /\ wb (zc w') = []
      /\ t_read (zc w') = None /\ t_write (zc w') = None
      /\ connect_timer w' = retry_delay (fail (zc w) + 1)
      /\ (fail (zc w) + 1 < 10 -> is_Some (connect_timer w'))) as Hpacket.
  { intros w1 Hok1 Hs1 Hf1 Ht1 [rest Hd] already.
    destruct (zclient_read_packet_bad hs already w1 _ _ _ _ _ _ rest Hd Hbad)
      as (s & _ & _ & ->).
    match goal with
    | |- context [zclient_failed ?W] =>
        destruct (zclient_failed_run W)
          as (w' & -> & _ & Hs' & Hf' & Ht' & _ & _ & _ & _ & Hib & Hob & Hwb & Htr & Htw
                 & Htimer)
    end.
    { exact Hok1. }
    cbn in *. rewrite Hs1, Hf1, Ht1 in *.
    destruct (Z.geb_spec (sock (zc w)) 0); [|lia].
    exists w'. split_and!; try done.
    - by rewrite Hib.
    - intros Hlt. rewrite Htimer. unfold retry_delay.
      destruct (Z.geb_spec (fail (zc w) + 1) 10); [lia | eauto]. }
  unfold zclient_read, zclient_read_header. munfold. cbn.
  unfold stream_get_endp.
  destruct (Z.ltb_spec (Z.of_nat (length (st_data (ibuf (zc w))))) ZEBRA_HEADER_SIZE)
    as [Hshort|Hlong].
  - (* the header comes from the socket *)
    assert (length (take 6 (st_data (ibuf (zc w)) ++ rxq w)) = 6%nat) as Hlen6
      by (by rewrite Hhdr).
    rewrite length_take, length_app in Hlen6.
    unfold stream_read_try, STREAM_WRITEABLE, stream_get_endp, ZEBRA_HEADER_SIZE in *.
    munfold. cbn.
    destruct (Z.leb_spec 0 (6 - Z.of_nat (length (st_data (ibuf (zc w)))))); [|lia].
    destruct (Z.leb_spec (6 - Z.of_nat (length (st_data (ibuf (zc w)))))
                (st_size (ibuf (zc w)) - Z.of_nat (length (st_data (ibuf (zc w))))));
      [|lia].
    cbn. destruct (rxq w) as [|b bs] eqn:Erx; [cbn [length] in Hlen6; lia|]. cbn.
    set (k := Nat.min (Z.to_nat (6 - Z.of_nat (length (st_data (ibuf (zc w))))))
                      (S (length bs))).
    assert (k = (6 - length (st_data (ibuf (zc w))))%nat) as Hk
      by (unfold k; cbn [length] in Hlen6; lia).
    unfold stream_append, STREAM_WRITEABLE, stream_get_endp.
    rewrite length_take.
    destruct (Z.leb_spec (Z.of_nat (Nat.min k (length (b :: bs))))
                (st_size (ibuf (zc w)) - Z.of_nat (length (st_data (ibuf (zc w))))));
      [|cbn in *; lia].
    cbn. destruct (Z.eqb_spec (Z.of_nat k) 0); [lia|].
    destruct (Z.eqb_spec (Z.of_nat k) (-1)); [lia|]. cbn.
    destruct (Z.eqb_spec (Z.of_nat k) (6 - Z.of_nat (length (st_data (ibuf (zc w))))));
      [|lia].
    cbn. apply Hpacket; try done. cbn.
    exists []. rewrite <- Hhdr, take_app_ge by lia. by rewrite Hk.
  - cbn. apply Hpacket; try done.
    apply (header_in_ibuf _ (rxq w)); [done | unfold ZEBRA_HEADER_SIZE in *; lia].
Qed.

End ReadClaims.

(** ** The claims on the redistribution requests *)

Section RedistributeClaims.

Context `{zh : zebra_h}.

Lemma array_get_set (a : list Z) (i v : Z) :
  0 <= i < Z.of_nat (length a) ->
  exists a', array_set a i v = Some a' /\ array_get a' i = Some v
    /\ length a' = length a.
Proof.
  intros Hi. unfold array_set, array_get.
  destruct (Z.leb_spec 0 i); [|lia].
  destruct (Z.ltb_spec i (Z.of_nat (length a))); [|lia]. cbn.
  eexists. split; [done|]. destruct (Z.ltb_spec i 0); [lia|].
  split; [|by rewrite length_insert].
  apply list_lookup_insert_eq. lia.
Qed.

Lemma array_get_in_range (a : list Z) (i : Z) :
  0 <= i < Z.of_nat (length a) -> exists r, array_get a i = Some r.
Proof.
  intros Hi. unfold array_get. destruct (Z.ltb_spec i 0); [lia|].
  apply lookup_lt_is_Some. lia.
Qed.

Lemma sent_failed_write (w w' : world) (fd : Z) (f : list Z) :
  trace w' = trace w ++ [IoWrite fd f BUFFER_ERROR; IoClose fd] -> sent w' = sent w.
Proof.
  intros Ht. unfold sent. rewrite Ht, frames_of_app. cbn. by rewrite app_nil_r.
Qed.

(** A request that changes the subscription: the flag is set, and the
    message is sent if the descriptor is positive. *)
Lemma zclient_redistribute_changes (command type r : Z) (w : world) :
  array_get (redist (zc w)) type = Some r ->
  (if command =? ZEBRA_REDISTRIBUTE_ADD then truthy r else negb (truthy r)) = false ->
  exists a, array_set (redist (zc w)) type
              (if command =? ZEBRA_REDISTRIBUTE_ADD then 1 else 0) = Some a
    /\ array_get a type = Some (if command =? ZEBRA_REDISTRIBUTE_ADD then 1 else 0)
    /\ zclient_redistribute command type w
       = (if sock (zc w) >? 0
          then zebra_redistribute_send command type;; mret tt
          else mret tt) (set_zc (set_redist a (zc w)) w).
Proof.
  intros Hget Hstate.
  destruct (array_get_set (redist (zc w)) type
              (if command =? ZEBRA_REDISTRIBUTE_ADD then 1 else 0)) as (a & Hset & Ha & _).
  { unfold array_get in Hget. destruct (Z.ltb_spec type 0); [done|].
    apply lookup_lt_Some in Hget. lia. }
  exists a. split; [done|]. split; [done|].
  unfold zclient_redistribute. munfold. cbn. rewrite Hget, Hstate, Hset.
  by destruct (sock (zc w) >? 0).
Qed.

(** C8, as the code has it.  [zclient_redistribute] is idempotent.  After
    a call with ADD for the type [t], a second such call changes nothing
    and sends nothing, and the two calls send at most the one
    REDISTRIBUTE_ADD message; they send exactly that one when the client is
    connected (a positive descriptor), [t] was not subscribed and the
    socket takes the write.  A call with DELETE (any command but ADD) for a
    type that is not subscribed changes nothing and sends nothing. *)
Theorem redistribute_idempotent (w : world) (t : Z) :
  tokens_ok w ->
  7 <= st_size (obuf (zc w)) ->
  0 <= t < Z.of_nat (length (redist (zc w))) ->
  (exists w1,
     zclient_redistribute ZEBRA_REDISTRIBUTE_ADD t w = Some (tt, w1)
     /\ zclient_redistribute ZEBRA_REDISTRIBUTE_ADD t w1 = Some (tt, w1)
     /\ (sent w1 = sent w \/ sent w1 = sent w ++ [type_frame ZEBRA_REDISTRIBUTE_ADD t])
     /\ (0 < sock (zc w) -> array_get (redist (zc w)) t = Some 0 ->
         k_write w (n_write w) <> None ->
         sent w1 = sent w ++ [type_frame ZEBRA_REDISTRIBUTE_ADD t]))
  /\ (forall command, command <> ZEBRA_REDISTRIBUTE_ADD ->
        array_get (redist (zc w)) t = Some 0 ->
        zclient_redistribute command t w = Some (tt, w)).
Proof.
  intros Hok Hsize Ht. split.
  - destruct (array_get_in_range _ _ Ht) as [r Hr].
    destruct (truthy r) eqn:Etr.
    { (* already subscribed: both calls return at once *)
      assert (zclient_redistribute ZEBRA_REDISTRIBUTE_ADD t w = Some (tt, w)) as E.
      { unfold zclient_redistribute. munfold. cbn.
        by rewrite Hr, Z.eqb_refl, Etr. }
      exists w. split_and!; eauto.
      intros _ Hr0. rewrite Hr in Hr0. injection Hr0 as ->. done. }
    destruct (zclient_redistribute_changes ZEBRA_REDISTRIBUTE_ADD t r w Hr)
      as (a & Hset & Ha & E).
    { by rewrite Z.eqb_refl. }
    rewrite Z.eqb_refl in Ha. rewrite E. clear E.
    set (w0 := set_zc (set_redist a (zc w)) w).
    assert (forall w1, stable w0 w1 ->
              zclient_redistribute ZEBRA_REDISTRIBUTE_ADD t w1 = Some (tt, w1)) as Hagain.
    { intros w1 Hst. unfold zclient_redistribute. munfold. cbn.
      rewrite (stable_redist _ _ Hst). cbn. by rewrite Ha, Z.eqb_refl. }
    assert (tokens_ok w0) as Hok0 by done.
    destruct (Z.gtb_spec (sock (zc w)) 0) as [Hpos|Hneg].
    + unfold mbind, M_bind. rewrite zebra_redistribute_send_eq by done.
      destruct (k_write w (n_write w)) as [k|] eqn:Ek.
      * destruct (send_frame_ok (type_frame ZEBRA_REDISTRIBUTE_ADD t) w0 k)
          as (w1 & st & E1 & Hst & _ & Htr & Hne & _); try done; [cbn; lia|].
        rewrite E1. cbn.
        pose proof (sent_write w0 w1 _ _ _ Htr Hne) as Hsent.
        change (sent w0) with (sent w) in Hsent.
        exists w1. split_and!; eauto.
      * destruct (send_frame_err (type_frame ZEBRA_REDISTRIBUTE_ADD t) w0)
          as (w1 & E1 & Hst & _ & _ & Htr & _); try done; [cbn; lia|].
        rewrite E1. cbn.
        pose proof (sent_failed_write w0 w1 _ _ Htr) as Hsent.
        change (sent w0) with (sent w) in Hsent.
        exists w1. split_and!; eauto. done.
    + exists w0. split_and!; eauto; [by apply Hagain | lia].
  - intros command Hc Hr. unfold zclient_redistribute. munfold. cbn.
    rewrite Hr. by destruct (Z.eqb_spec command ZEBRA_REDISTRIBUTE_ADD).
Qed.

Lemma zclient_send_message_writes (w : world) :
  0 <= sock (zc w) -> tokens_ok w ->
  exists r w' st rest, zclient_send_message w = Some (r, w')
    /\ trace w' = trace w ++ IoWrite (sock (zc w)) (st_data (obuf (zc w))) st :: rest.
Proof.
  intros Hs Hok.
  unfold zclient_send_message, buffer_write, THREAD_WRITE_ON, tokens_ok in *.
  munfold. cbn. destruct (Z.ltb_spec (sock (zc w)) 0); [lia|].
  destruct (k_write w (n_write w)) as [k|] eqn:Ek.
  - destruct (drop k (wb (zc w) ++ st_data (obuf (zc w)))) as [|b rest]; cbn;
      destruct (zclient_nexus w) eqn:En; cbn.
    1,3: destruct Hok as [[q Eq] Ht]; [done|]; rewrite Eq; cbn.
    4: destruct (t_write (zc w)) as [t|] eqn:Et; cbn.
    all: do 3 eexists; exists []; (split; [reflexivity|]); done.
  - match goal with
    | |- context [zclient_failed ?W] =>
        destruct (zclient_failed_run W) as (w' & -> & _ & _ & _ & Htr & _)
    end.
    { exact Hok. }
    cbn in Htr. rewrite <- app_assoc in Htr. eauto 10.
Qed.

(** C10.  On a connection whose descriptor is 0, [zclient_redistribute]
    and [zclient_redistribute_default] change the subscription and send
    nothing, whereas [zclient_send_message] hands its frame to the socket. *)
Theorem descriptor_zero_is_not_sent (w : world) :
  sock (zc w) = 0 ->
  (forall command type r,
     array_get (redist (zc w)) type = Some r ->
     (if command =? ZEBRA_REDISTRIBUTE_ADD then truthy r else negb (truthy r)) = false ->
     exists w', zclient_redistribute command type w = Some (tt, w')
       /\ array_get (redist (zc w')) type
          = Some (if command =? ZEBRA_REDISTRIBUTE_ADD then 1 else 0)
       /\ trace w' = trace w)
  /\ (forall command,
        (if command =? ZEBRA_REDISTRIBUTE_DEFAULT_ADD
         then truthy (default_information (zc w))
         else negb (truthy (default_information (zc w)))) = false ->
        exists w', zclient_redistribute_default command w = Some (tt, w')
          /\ default_information (zc w')
             = (if command =? ZEBRA_REDISTRIBUTE_DEFAULT_ADD then 1 else 0)
          /\ trace w' = trace w)
  /\ (tokens_ok w ->
      exists r w' st rest, zclient_send_message w = Some (r, w')
        /\ trace w' = trace w ++ IoWrite 0 (st_data (obuf (zc w))) st :: rest).
Proof.
  intros Hs. split_and!.
  - intros command type r Hr Hstate.
    destruct (zclient_redistribute_changes command type r w Hr Hstate)
      as (a & _ & Ha & E).
    rewrite E, Hs. cbn. eauto.
  - intros command Hstate. unfold zclient_redistribute_default. munfold. cbn.
    rewrite Hstate, Hs. cbn. eauto.
  - intros Hok. rewrite <- Hs. apply zclient_send_message_writes; [lia | done].
Qed.

End RedistributeClaims.

(** ** The claim on the own type of the client *)

Lemma keeps_ret {A : Type} (a : A) : keeps (mret a).
Proof. by intros w a' w' [= <- <-]. Qed.

Lemma keeps_bind {A B : Type} (m : M A) (k : A -> M B) :
  keeps m -> (forall a, keeps (k a)) -> keeps (m ≫= k).
Proof.
  intros Hm Hk w b w'. unfold mbind, M_bind.
  destruct (m w) as [[a w1]|] eqn:E; [|done].
  intros Hb. destruct (Hm _ _ _ E) as [Hr Hd], (Hk a _ _ _ Hb) as [Hr' Hd'].
  split; congruence.
Qed.

Lemma keeps_get_zc : keeps get_zc.
Proof. by intros w a w' [= <- <-]. Qed.

Lemma keeps_get_world : keeps get_world.
Proof. by intros w a w' [= <- <-]. Qed.

Lemma keeps_emit (e : io_event) : keeps (emit e).
Proof. by intros w a w' [= <- <-]. Qed.

Lemma keeps_undefined {A : Type} : keeps (@undefined A).
Proof. by intros w a w'. Qed.

Lemma keeps_lift_option {A : Type} (o : option A) : keeps (lift_option o).
Proof. intros w a w'. unfold lift_option. destruct o; [|done]. by intros [= <- <-]. Qed.

Lemma keeps_modify_zc (f : zclient -> zclient) :
  (forall c, redist (f c) = redist c /\ redist_default (f c) = redist_default c) ->
  keeps (modify_zc f).
Proof. intros Hf w a w' [= <- <-]. apply Hf. Qed.

Lemma keeps_modify_world (f : world -> world) :
  (forall w, zc (f w) = zc w) -> keeps (modify_world f).
Proof. intros Hf w a w' [= <- <-]. by rewrite Hf. Qed.

Lemma keeps_preserves {A : Type} (m : M A) : keeps m -> preserves m.
Proof.
  intros Hm w a w' Hw E. destruct (Hm _ _ _ E) as [Hr Hd].
  unfold redist_default_subscribed. by rewrite Hr, Hd.
Qed.

Lemma preserves_bind {A B : Type} (m : M A) (k : A -> M B) :
  preserves m -> (forall a, preserves (k a)) -> preserves (m ≫= k).
Proof.
  intros Hm Hk w b w' Hw. unfold mbind, M_bind.
  destruct (m w) as [[a w1]|] eqn:E; [|done].
  apply Hk. eauto.
Qed.

Create HintDb keeps_db.

#[global] Hint Resolve keeps_ret keeps_get_zc keeps_get_world keeps_emit keeps_undefined
  keeps_lift_option : keeps_db.

(** One step of a proof that code keeps the flags. *)
Ltac keeps_step :=
  match goal with
  | |- keeps (_ ≫= _) => apply keeps_bind; [|intros ?]
  | |- keeps (if ?c then _ else _) => destruct c
  | |- keeps (match ?x with _ => _ end) => destruct x
  | |- keeps (modify_zc _) => apply keeps_modify_zc; intros ?; split; reflexivity
  | |- keeps (modify_world _) => apply keeps_modify_world; intros ?; reflexivity
  | |- keeps _ => progress cbv zeta
  | |- keeps _ => solve [auto with keeps_db]
  end.

Ltac keeps_auto := repeat keeps_step.

Section OwnType.

Context `{zh : zebra_h}.

Lemma keeps_zclient_event (ev : event) : keeps (zclient_event ev).
Proof.
  unfold zclient_event, zclient_event_r, zclient_event_t. destruct ev; keeps_auto.
Qed.

Lemma keeps_zclient_stop : keeps zclient_stop.
Proof. unfold zclient_stop. keeps_auto. Qed.

Lemma keeps_zclient_socket_connect : keeps zclient_socket_connect.
Proof. unfold zclient_socket_connect. keeps_auto. Qed.

#[local] Hint Resolve keeps_zclient_event keeps_zclient_stop keeps_zclient_socket_connect
  : keeps_db.

Lemma keeps_zclient_failed : keeps zclient_failed.
Proof. unfold zclient_failed. keeps_auto. Qed.

Lemma keeps_buffer_write (fd : Z) (p : list Z) : keeps (buffer_write fd p).
Proof.
  intros w a w'. unfold buffer_write. destruct (k_write w (n_write w)); by intros [= <- <-].
Qed.

Lemma keeps_buffer_flush_available (fd : Z) : keeps (buffer_flush_available fd).
Proof.
  intros w a w'. unfold buffer_flush_available.
  destruct (k_write w (n_write w)); by intros [= <- <-].
Qed.

Lemma keeps_on_qf (f : qps_file -> qps_file) : keeps (on_qf f).
Proof. unfold on_qf. keeps_auto. Qed.

Lemma keeps_on_obuf (f : stream -> option stream) : keeps (on_obuf f).
Proof. unfold on_obuf. keeps_auto. Qed.

Lemma keeps_on_ibuf (f : stream -> option stream) : keeps (on_ibuf f).
Proof. unfold on_ibuf. keeps_auto. Qed.

Lemma keeps_ibuf_get (f : stream -> option (Z * stream)) : keeps (ibuf_get f).
Proof. unfold ibuf_get. keeps_auto. Qed.

#[local] Hint Resolve keeps_zclient_failed keeps_buffer_write keeps_buffer_flush_available
  keeps_on_qf keeps_on_obuf keeps_on_ibuf keeps_ibuf_get : keeps_db.

Lemma keeps_zclient_send_message : keeps zclient_send_message.
Proof. unfold zclient_send_message, THREAD_WRITE_ON. keeps_auto. Qed.

Lemma keeps_zclient_flush_data_r : keeps zclient_flush_data_r.
Proof. unfold zclient_flush_data_r. keeps_auto. Qed.

Lemma keeps_zclient_flush_data_t : keeps zclient_flush_data_t.
Proof. unfold zclient_flush_data_t. keeps_auto. Qed.

#[local] Hint Resolve keeps_zclient_send_message keeps_zclient_flush_data_r
  keeps_zclient_flush_data_t : keeps_db.

Lemma keeps_zebra_message_send (command : Z) : keeps (zebra_message_send command).
Proof. unfold zebra_message_send. keeps_auto. Qed.

Lemma keeps_zebra_hello_send : keeps zebra_hello_send.
Proof. unfold zebra_hello_send. keeps_auto. Qed.

Lemma keeps_zebra_redistribute_send (command type : Z) :
  keeps (zebra_redistribute_send command type).
Proof. unfold zebra_redistribute_send. keeps_auto. Qed.

Lemma keeps_zapi_ipv4_route (cmd : Z) (p : prefix) (api : zapi) :
  keeps (zapi_ipv4_route cmd p api).
Proof. unfold zapi_ipv4_route. keeps_auto. Qed.

Lemma keeps_zapi_ipv6_route (cmd : Z) (p : prefix) (api : zapi) :
  keeps (zapi_ipv6_route cmd p api).
Proof. unfold zapi_ipv6_route. keeps_auto. Qed.

#[local] Hint Resolve keeps_zebra_message_send keeps_zebra_hello_send
  keeps_zebra_redistribute_send keeps_zapi_ipv4_route keeps_zapi_ipv6_route : keeps_db.

Lemma keeps_zclient_start_redist (n : nat) (i : Z) : keeps (zclient_start_redist n i).
Proof.
  revert i. induction n as [|n IH]; intros i; cbn [zclient_start_redist]; keeps_auto.
Qed.

#[local] Hint Resolve keeps_zclient_start_redist : keeps_db.

Lemma keeps_zclient_start : keeps zclient_start.
Proof. unfold zclient_start. keeps_auto. Qed.

#[local] Hint Resolve keeps_zclient_start : keeps_db.

Lemma keeps_zclient_redistribute_default (command : Z) :
  keeps (zclient_redistribute_default command).
Proof. unfold zclient_redistribute_default. keeps_auto. Qed.

Lemma keeps_stream_read_try (size : Z) : keeps (stream_read_try size).
Proof. unfold stream_read_try. keeps_auto. Qed.

Lemma keeps_zclient_read_header : keeps zclient_read_header.
Proof.
  pose proof keeps_stream_read_try.
  unfold zclient_read_header. keeps_auto.
Qed.

#[local] Hint Resolve keeps_zclient_redistribute_default keeps_stream_read_try
  keeps_zclient_read_header : keeps_db.

Lemma preserves_call_handler (h : option handler) (command length : Z) :
  (forall f, h = Some f -> forall command length, preserves (f command length)) ->
  preserves (call_handler h command length).
Proof.
  intros Hh. unfold call_handler. destruct h as [f|].
  - apply preserves_bind; [apply keeps_preserves; keeps_auto | intros _].
    apply preserves_bind; [by apply Hh | intros _].
    apply keeps_preserves. keeps_auto.
  - apply keeps_preserves. keeps_auto.
Qed.

Lemma preserves_zclient_read_dispatch (hs : handlers) (command length : Z) :
  handlers_preserve hs -> preserves (zclient_read_dispatch hs command length).
Proof.
  intros Hhs. unfold zclient_read_dispatch.
  repeat match goal with
         | |- preserves (if ?c then _ else _) => destruct c
         end;
    try solve [apply keeps_preserves; keeps_auto];
    apply preserves_call_handler, Hhs;
    repeat first [apply list_elem_of_here | apply list_elem_of_further].
Qed.

Lemma preserves_zclient_read (hs : handlers) :
  handlers_preserve hs -> preserves (zclient_read hs).
Proof.
  intros Hhs. unfold zclient_read.
  apply preserves_bind; [apply keeps_preserves; keeps_auto | intros [r|already]].
  { apply keeps_preserves. keeps_auto. }
  unfold zclient_read_packet.
  repeat (apply preserves_bind; [apply keeps_preserves; keeps_auto | intros ?]).
  repeat match goal with
         | |- preserves (if ?c then _ else _) => destruct c
         end;
    try solve [apply keeps_preserves; keeps_auto].
  all: apply preserves_bind; [apply keeps_preserves; keeps_auto | intros ?].
  all: apply preserves_bind; [apply keeps_preserves; keeps_auto | intros ?].
  all: apply preserves_bind; [apply keeps_preserves; keeps_auto | intros [r|]].
  all: try solve [apply keeps_preserves; keeps_auto].
  all: apply preserves_bind; [by apply preserves_zclient_read_dispatch | intros _].
  all: apply keeps_preserves; keeps_auto.
Qed.

Lemma preserves_zclient_init (redist_default : Z) :
  forall w a w', zclient_init redist_default w = Some (a, w') ->
    redist_default_subscribed w'.
Proof.
  intros w [] w'. unfold zclient_init, array_set. munfold. cbn.
  rewrite length_replicate.
  destruct ((0 <=? redist_default)
            && (redist_default <? Z.of_nat (Z.to_nat ZEBRA_ROUTE_MAX))) eqn:Er; [|done].
  apply andb_prop in Er as [H0%Z.leb_le H1%Z.ltb_lt]. cbn.
  destruct (zclient_event ZCLIENT_SCHEDULE _) as [[[] w1]|] eqn:E; [|done].
  intros [= <-]. destruct (keeps_zclient_event _ _ _ _ E) as [Hr Hd].
  unfold redist_default_subscribed. rewrite Hr, Hd. cbn.
  unfold array_get. destruct (Z.ltb_spec redist_default 0); [lia|].
  apply list_lookup_insert_eq. rewrite length_replicate. lia.
Qed.

Lemma preserves_zclient_redistribute (command type : Z) (w w' : world) :
  command = ZEBRA_REDISTRIBUTE_ADD \/ type <> redist_default (zc w) ->
  redist_default_subscribed w ->
  zclient_redistribute command type w = Some (tt, w') ->
  redist_default_subscribed w'.
Proof.
  intros Hallowed Hw. unfold zclient_redistribute. munfold. cbn.
  destruct (array_get (redist (zc w)) type) as [r|] eqn:Hr; [|done].
  destruct (if command =? ZEBRA_REDISTRIBUTE_ADD then truthy r else negb (truthy r));
    [by intros [= <-]|].
  unfold array_set.
  destruct ((0 <=? type) && (type <? Z.of_nat (length (redist (zc w))))) eqn:Er; [|done].
  apply andb_prop in Er as [H0%Z.leb_le H1%Z.ltb_lt]. cbn.
  set (w0 := set_zc _ w).
  assert (redist_default_subscribed w0) as Hw0.
  { unfold redist_default_subscribed, array_get in *. cbn.
    destruct (Z.ltb_spec (redist_default (zc w)) 0); [done|].
    destruct (Z.eq_dec type (redist_default (zc w))) as [->|Hne].
    - destruct Hallowed as [->|]; [|done]. rewrite Z.eqb_refl.
      apply list_lookup_insert_eq. lia.
    - rewrite list_lookup_insert_ne by lia. done. }
  destruct (sock (zc w) >? 0).
  - destruct (zebra_redistribute_send command type w0) as [[x w1]|] eqn:E; [|done].
    intros [= <-].
    exact (keeps_preserves _ (keeps_zebra_redistribute_send command type) w0 x w1 Hw0 E).
  - by intros [= <-].
Qed.

Lemma keeps_inv {A : Type} (m : M A) (w w' : world) (a : A) :
  keeps m -> redist_default_subscribed w -> m w = Some (a, w') ->
  redist_default_subscribed w'.
Proof. intros Hm Hw E. by apply (keeps_preserves m Hm w a). Qed.

Lemma get_zc_bind {A : Type} (k : zclient -> M A) (w : world) :
  (get_zc ≫= k) w = k (zc w) w.
Proof. reflexivity. Qed.

Lemma preserves_react (e : reactor_event) (w w' : world) :
  allowed w e -> redist_default_subscribed w -> react e w = Some (tt, w') ->
  redist_default_subscribed w'.
Proof.
  intros Hallowed Hw.
  assert (forall (m : M unit), preserves m -> (zclient ← get_zc; m) w = Some (tt, w') ->
            redist_default_subscribed w') as Hvia.
  { intros m Hm E. by apply (Hm w tt w'). }
  assert (forall (m : M unit), keeps m -> (zclient ← get_zc; m) w = Some (tt, w') ->
            redist_default_subscribed w') as Hkeeps.
  { intros m Hm. by apply Hvia, keeps_preserves. }
  unfold react.
  destruct e as [c| | hs | | | hs | | |];
    [destruct c; cbn [run_call] | ..].
  - apply Hkeeps. unfold zclient_init_r. keeps_auto.
  - rewrite get_zc_bind. apply preserves_zclient_init.
  - apply Hkeeps. unfold zlookup_schedule. keeps_auto.
  - apply Hkeeps. keeps_auto.
  - rewrite get_zc_bind. unfold zclient_reset. cbv [mbind M_bind get_zc].
    destruct (zclient_stop w) as [[[] w1]|]; [|done]. apply preserves_zclient_init.
  - apply Hkeeps. keeps_auto.
  - apply Hkeeps. keeps_auto.
  - apply Hkeeps. keeps_auto.
  - apply Hkeeps. keeps_auto.
  - apply Hkeeps. keeps_auto.
  - rewrite get_zc_bind. by apply preserves_zclient_redistribute.
  - apply Hkeeps. keeps_auto.
  - rewrite get_zc_bind.
    destruct (t_connect (zc w)) as [[? []]|]; try (by intros [= <-]);
      apply (keeps_inv _ w w' tt); try done;
      unfold zclient_connect_t, zlookup_connect_t; keeps_auto.
  - rewrite get_zc_bind. destruct (t_read (zc w)); [|by intros [= <-]].
    intros E. refine (preserves_bind _ (fun _ => mret tt) _ _ w tt w' Hw E);
      [|by intros ? ? ? ? ? [= <- <-]].
    unfold zclient_read_t.
    apply preserves_bind; [apply keeps_preserves; keeps_auto | intros _].
    by apply preserves_zclient_read.
  - rewrite get_zc_bind. destruct (t_write (zc w)); [|by intros [= <-]].
    apply (keeps_inv _ w w' tt); try done. keeps_auto.
  - rewrite get_zc_bind.
    destruct (qtr (zc w)) as [[[[? []]|]]|]; try (by intros [= <-]);
      apply (keeps_inv _ w w' tt); try done;
      unfold zclient_connect_r, zlookup_connect_r; keeps_auto.
  - rewrite get_zc_bind.
    destruct (qf (zc w)) as [[? [?|] ?]|]; try by intros [= <-].
    intros E. revert E. apply (fun H => H w tt w' Hw). unfold zclient_read_r.
    apply preserves_bind; [apply keeps_preserves; keeps_auto | intros _].
    apply preserves_bind; [by apply preserves_zclient_read | intros _].
    apply keeps_preserves. keeps_auto.
  - rewrite get_zc_bind.
    destruct (qf (zc w)) as [[? ? [?|]]|]; try (by intros [= <-]).
    apply (keeps_inv _ w w' tt); try done. keeps_auto.
  - apply Hkeeps. keeps_auto.
  - apply Hkeeps. keeps_auto.
Qed.

Lemma allowed_run_run (w w' : world) (es : list reactor_event) :
  allowed_run w es w' -> run es w = Some (tt, w').
Proof.
  induction 1 as [|w w1 w2 e es _ Hreact _ IH]; [done|].
  cbn. unfold mbind, M_bind. by rewrite Hreact.
Qed.

(** C1, as the code has it.  After [zclient_init] the flag of the own type
    of the client, [redist] at [redist_default], is 1, and it stays 1
    through every run of calls and events in which [zclient_redistribute]
    is not called on the own type with another command than
    REDISTRIBUTE_ADD (and in which the handlers of the daemon do not clear
    the flag themselves). *)
Theorem redist_default_stays_subscribed (redist_default : Z) (w0 w1 w2 : world)
    (es : list reactor_event) :
  zclient_init redist_default w0 = Some (tt, w1) ->
  allowed_run w1 es w2 ->
  redist_default_subscribed w2.
Proof.
  intros Hinit Hrun. apply preserves_zclient_init in Hinit.
  induction Hrun as [|w w' w'' e es Hallowed Hreact _ IH]; [done|].
  apply IH. by apply (preserves_react e w).
Qed.

End OwnType.

(** * Further properties of the code *)

(** ** The decoders *)

Lemma stream_unread_forward (s : stream) (n : nat) :
  0 <= st_getp s ->
  stream_unread (stream_forward s (Z.of_nat n)) = drop n (stream_unread s).
Proof.
  intros H. unfold stream_unread, stream_forward. cbn.
  rewrite drop_drop. f_equal. lia.
Qed.

Lemma stream_forward_forward (s : stream) (n m : Z) :
  stream_forward (stream_forward s n) m = stream_forward s (n + m).
Proof. unfold stream_forward. cbn. f_equal. lia. Qed.

Lemma stream_forward_getp (s : stream) (bs rest : list Z) :
  0 <= st_getp s <= stream_get_endp s -> stream_unread s = bs ++ rest ->
  0 <= st_getp (stream_forward s (Z.of_nat (length bs)))
    <= stream_get_endp (stream_forward s (Z.of_nat (length bs))).
Proof.
  intros Hp Hu. unfold stream_get_endp in *. cbn.
  assert (length (stream_unread s) = length bs + length rest)%nat as Hl.
  { rewrite Hu, length_app. done. }
  unfold stream_unread in Hl. rewrite length_drop in Hl. lia.
Qed.

Lemma reads_getc (b : Z) : reads stream_getc [b] b.
Proof.
  intros s rest [Hp _] Hu. unfold stream_getc.
  destruct (Z.ltb_spec (st_getp s) 0); [lia|].
  unfold stream_unread in Hu.
  assert (st_data s !! Z.to_nat (st_getp s) = Some b) as ->; [|done].
  rewrite <- (Nat.add_0_r (Z.to_nat (st_getp s))), <- lookup_drop, Hu. done.
Qed.

(** Readers in a row. *)
Lemma reads_bind {A B : Type} (f : stream -> option (A * stream))
    (g : A -> stream -> option (B * stream)) (bs cs : list Z) (a : A) (b : B) :
  reads f bs a -> reads (g a) cs b ->
  reads (fun s => f s ≫= fun r => g r.1 r.2) (bs ++ cs) b.
Proof.
  intros Hf Hg s rest Hp Hu. rewrite <- app_assoc in Hu.
  rewrite (Hf s _ Hp Hu). cbn.
  rewrite (Hg _ rest).
  - rewrite stream_forward_forward, length_app, Nat2Z.inj_add. done.
  - by eapply stream_forward_getp.
  - rewrite stream_unread_forward, Hu, drop_app_length; [done|lia].
Qed.

Lemma reads_ext {A : Type} (f g : stream -> option (A * stream)) (bs : list Z) (v : A) :
  (forall s, f s = g s) -> reads g bs v -> reads f bs v.
Proof. intros E H s rest Hp Hu. rewrite E. exact (H s rest Hp Hu). Qed.

Lemma reads_ret {A : Type} (v : A) : reads (fun s => Some (v, s)) [] v.
Proof.
  intros s rest _ _. unfold stream_forward. cbn. destruct s. cbn.
  do 3 f_equal. lia.
Qed.

(** One reader run on a stream. *)
Lemma reads_run {A : Type} (f : stream -> option (A * stream)) (bs : list Z) (v : A)
    (s : stream) (rest : list Z) :
  reads f bs v -> 0 <= st_getp s <= stream_get_endp s ->
  stream_unread s = bs ++ rest ->
  exists s', f s = Some (v, s') /\ 0 <= st_getp s' <= stream_get_endp s'
             /\ stream_unread s' = rest
             /\ s' = stream_forward s (Z.of_nat (length bs)).
Proof.
  intros Hf Hp Hu. eexists. split; [exact (Hf s rest Hp Hu)|].
  split; [by eapply stream_forward_getp|]. split; [|done].
  rewrite stream_unread_forward, Hu, drop_app_length; [done|lia].
Qed.

Ltac reads_next H :=
  match goal with
  | Hp : 0 <= st_getp ?s <= _, Hu : stream_unread ?s = _ |- _ =>
      let s' := fresh "s" in
      let E := fresh "E" in
      let Hp' := fresh "Hp" in
      let Hu' := fresh "Hu" in
      let F := fresh "F" in
      destruct (reads_run _ _ _ s _ H Hp Hu) as (s' & E & Hp' & Hu' & F);
      rewrite E; clear E; cbn [mbind option_bind fst snd];
      try (rewrite F; rewrite ?stream_forward_forward; clear F);
      clear Hp Hu
  end.

Lemma reads_getl (b3 b2 b1 b0 : Z) :
  reads stream_getl [b3; b2; b1; b0] (((b3 * 256 + b2) * 256 + b1) * 256 + b0).
Proof.
  intros s rest Hp Hu. unfold stream_getl.
  change ([b3; b2; b1; b0] ++ rest) with ([b3] ++ [b2] ++ [b1] ++ [b0] ++ rest) in Hu.
  destruct (reads_run _ _ _ s _ (reads_getc b3) Hp Hu) as (s1 & -> & Hp1 & Hu1 & ->).
  cbn [mbind option_bind].
  destruct (reads_run _ _ _ _ _ (reads_getc b2) Hp1 Hu1) as (s2 & -> & Hp2 & Hu2 & ->).
  cbn [mbind option_bind].
  destruct (reads_run _ _ _ _ _ (reads_getc b1) Hp2 Hu2) as (s3 & -> & Hp3 & Hu3 & ->).
  cbn [mbind option_bind].
  destruct (reads_run _ _ _ _ _ (reads_getc b0) Hp3 Hu3) as (s4 & -> & Hp4 & Hu4 & ->).
  cbn [mbind option_bind]. rewrite !stream_forward_forward. done.
Qed.

Lemma be32_value (x : Z) :
  0 <= x < 4294967296 ->
  (((x / 16777216) mod 256 * 256 + (x / 65536) mod 256) * 256 + (x / 256) mod 256) * 256
  + x mod 256 = x.
Proof.
  intros H.
  assert (x / 16777216 = x / 256 / 256 / 256) as ->.
  { rewrite !Z.div_div by lia. done. }
  assert (x / 65536 = x / 256 / 256) as ->.
  { rewrite !Z.div_div by lia. done. }
  pose proof (Z.div_mod x 256 ltac:(lia)).
  pose proof (Z.div_mod (x / 256) 256 ltac:(lia)).
  pose proof (Z.div_mod (x / 256 / 256) 256 ltac:(lia)).
  pose proof (Z.mod_pos_bound x 256 ltac:(lia)).
  pose proof (Z.mod_pos_bound (x / 256) 256 ltac:(lia)).
  pose proof (Z.mod_pos_bound (x / 256 / 256) 256 ltac:(lia)).
  assert (0 <= x / 256 / 256 / 256 < 256).
  { split; [repeat apply Z.div_pos; lia|].
    repeat (apply Z.div_lt_upper_bound; [lia|]). lia. }
  rewrite (Z.mod_small (x / 256 / 256 / 256)) by lia. lia.
Qed.

Lemma reads_getl_be32 (x : Z) :
  0 <= x < 4294967296 -> reads stream_getl (be32 x) x.
Proof.
  intros H. unfold be32.
  pose proof (reads_getl ((x / 16777216) mod 256) ((x / 65536) mod 256)
                ((x / 256) mod 256) (x mod 256)) as R.
  rewrite be32_value in R by done. exact R.
Qed.

Lemma reads_get (bs : list Z) :
  reads (fun s => stream_get s (Z.of_nat (length bs))) bs bs.
Proof.
  intros s rest Hp Hu. unfold stream_get, stream_get_endp in *.
  assert (length (stream_unread s) = length bs + length rest)%nat as Hl.
  { rewrite Hu, length_app. done. }
  unfold stream_unread in Hl, Hu. rewrite length_drop in Hl.
  destruct (Z.leb_spec 0 (Z.of_nat (length bs))); [|lia].
  destruct (Z.leb_spec 0 (st_getp s)); [|lia].
  destruct (Z.leb_spec (st_getp s + Z.of_nat (length bs)) (Z.of_nat (length (st_data s))));
    [|lia].
  cbn. rewrite Hu, Nat2Z.id, take_app_length. done.
Qed.

Lemma reads_get_size (bs : list Z) (size : Z) :
  size = Z.of_nat (length bs) -> reads (fun s => stream_get s size) bs bs.
Proof. intros ->. apply reads_get. Qed.

Section DecoderFacts.

Context `{zh : zebra_h} `{ih : if_h}.

Lemma reads_getq (bs : list Z) :
  length bs = 8%nat -> reads stream_getq bs (uint64_of_bytes bs).
Proof.
  intros Hl s rest Hp Hu. unfold stream_getq.
  rewrite (reads_get_size bs 8 ltac:(lia) s rest Hp Hu). done.
Qed.

End DecoderFacts.
Section DecoderClaims.

Context `{zh : zebra_h} `{ih : if_h}.

Ltac reads_step H :=
  match goal with
  | Hp : 0 <= st_getp ?s <= _, Hu : stream_unread ?s = _ |- _ =>
      let s' := fresh "s" in
      let E := fresh "E" in
      let Hp' := fresh "Hp" in
      let Hu' := fresh "Hu" in
      let F := fresh "F" in
      destruct (reads_run _ _ _ s _ H Hp Hu) as (s' & E & Hp' & Hu' & F);
      cbv beta in E; rewrite E; clear E; cbn [mbind option_bind];
      clear Hp Hu
  end.

Lemma memcpy_fits (dst src : list Z) :
  (length src <= length dst)%nat -> memcpy dst src = Some (src ++ drop (length src) dst).
Proof.
  intros H. unfold memcpy. destruct (Nat.leb_spec (length src) (length dst)); [done|lia].
Qed.

Lemma memcpy_overflow (dst src : list Z) :
  (length dst < length src)%nat -> memcpy dst src = None.
Proof.
  intros H. unfold memcpy. destruct (Nat.leb_spec (length src) (length dst)); [lia|done].
Qed.

(** The seven values, read one after the other. *)
Lemma reads_interface_values (ifp : interface) (ifindex status metric mtu mtu6 bandwidth : Z)
    (flags : list Z) :
  0 <= ifindex < 4294967296 -> 0 <= metric < 4294967296 -> 0 <= mtu < 4294967296 ->
  0 <= mtu6 < 4294967296 -> 0 <= bandwidth < 4294967296 -> length flags = 8%nat ->
  reads (fun s => zebra_interface_if_set_value s ifp)
    (interface_values ifindex status flags metric mtu mtu6 bandwidth)
    {| ifp_ifindex := ifindex; ifp_status := status;
       ifp_flags := uint64_of_bytes flags; ifp_metric := int_of_u32 metric; ifp_mtu := mtu;
       ifp_mtu6 := mtu6; ifp_bandwidth := bandwidth;
       ifp_hw_addr_len := ifp_hw_addr_len ifp; ifp_hw_addr := ifp_hw_addr ifp |}.
Proof.
  intros Hi Hm Hu Hu6 Hb Hf s rest Hp Hs.
  unfold zebra_interface_if_set_value, interface_values in *.
  rewrite <- !app_assoc in Hs.
  reads_step (reads_getl_be32 ifindex Hi). subst.
  reads_step (reads_getc status). subst.
  reads_step (reads_getq flags Hf). subst.
  reads_step (reads_getl_be32 metric Hm). subst.
  reads_step (reads_getl_be32 mtu Hu). subst.
  reads_step (reads_getl_be32 mtu6 Hu6). subst.
  reads_step (reads_getl_be32 bandwidth Hb). subst.
  rewrite !stream_forward_forward, !length_app, Hf. cbn.
  do 3 f_equal.
Qed.

(** The readers of interface messages repeat the body of
    [zebra_interface_if_set_value]. *)
Lemma if_set_value_inline {A : Type} (s : stream) (ifp : interface)
    (k : interface -> stream -> option A) :
  ('(v, s) ← stream_getl s;
   let ifp := set_ifp_ifindex v ifp in
   '(v, s) ← stream_getc s;
   let ifp := set_ifp_status v ifp in
   '(v, s) ← stream_getq s;
   let ifp := set_ifp_flags v ifp in
   '(v, s) ← stream_getl s;
   let ifp := set_ifp_metric (int_of_u32 v) ifp in
   '(v, s) ← stream_getl s;
   let ifp := set_ifp_mtu v ifp in
   '(v, s) ← stream_getl s;
   let ifp := set_ifp_mtu6 v ifp in
   '(v, s) ← stream_getl s;
   let ifp := set_ifp_bandwidth v ifp in
   k ifp s)
  = '(ifp, s) ← zebra_interface_if_set_value s ifp; k ifp s.
Proof.
  unfold zebra_interface_if_set_value.
  destruct (stream_getl s) as [[v1 s1]|]; [|done]. cbn [mbind option_bind].
  destruct (stream_getc s1) as [[v2 s2]|]; [|done]. cbn [mbind option_bind].
  destruct (stream_getq s2) as [[v3 s3]|]; [|done]. cbn [mbind option_bind].
  destruct (stream_getl s3) as [[v4 s4]|]; [|done]. cbn [mbind option_bind].
  destruct (stream_getl s4) as [[v5 s5]|]; [|done]. cbn [mbind option_bind].
  destruct (stream_getl s5) as [[v6 s6]|]; [|done]. cbn [mbind option_bind].
  destruct (stream_getl s6) as [[v7 s7]|]; done.
Qed.

(** X1.  [zebra_interface_if_set_value] takes the 29 bytes of the seven
    values off the stream, in the order ifindex, status, flags, metric, mtu,
    mtu6, bandwidth, the 32-bit ones big-endian; it leaves the hardware
    address of the interface alone.  The metric is an [int]: a value of the
    wire from [2^31] on is stored as a negative number. *)
Theorem if_set_value_decodes (s : stream) (ifp : interface) (rest flags : list Z)
    (ifindex status metric mtu mtu6 bandwidth : Z) :
  0 <= st_getp s <= stream_get_endp s ->
  stream_unread s
  = interface_values ifindex status flags metric mtu mtu6 bandwidth ++ rest ->
  0 <= ifindex < 4294967296 -> 0 <= metric < 4294967296 -> 0 <= mtu < 4294967296 ->
  0 <= mtu6 < 4294967296 -> 0 <= bandwidth < 4294967296 -> length flags = 8%nat ->
  zebra_interface_if_set_value s ifp
  = Some ({| ifp_ifindex := ifindex; ifp_status := status;
             ifp_flags := uint64_of_bytes flags; ifp_metric := int_of_u32 metric;
             ifp_mtu := mtu; ifp_mtu6 := mtu6; ifp_bandwidth := bandwidth;
             ifp_hw_addr_len := ifp_hw_addr_len ifp;
             ifp_hw_addr := ifp_hw_addr ifp |},
          stream_forward s 29).
Proof.
  intros Hp Hs Hi Hm Hu Hu6 Hb Hf.
  rewrite (reads_interface_values ifp ifindex status metric mtu mtu6 bandwidth flags
             Hi Hm Hu Hu6 Hb Hf s rest Hp Hs).
  unfold interface_values. rewrite !length_app, Hf. cbn [length be32]. do 3 f_equal.
Qed.

(** X2.  [zebra_router_id_update_read] takes the family, the address and the
    prefix length off the stream, in that order; the address has the
    [prefix_blen] bytes of the family.  Only that many bytes of the union of
    the caller's prefix are written: the bytes behind them stay as they
    were. *)
Theorem router_id_update_read_decodes (s : stream) (rid : struct_prefix)
    (family prefixlen : Z) (addr rest : list Z) :
  0 <= st_getp s <= stream_get_endp s ->
  stream_unread s = [family] ++ addr ++ [prefixlen] ++ rest ->
  prefix_blen (set_pfx_family family rid) = Z.of_nat (length addr) ->
  (length addr <= length (pfx_u rid))%nat ->
  zebra_router_id_update_read s rid
  = Some ({| pfx_family := family; pfx_prefixlen := prefixlen;
             pfx_u := addr ++ drop (length addr) (pfx_u rid) |},
          stream_forward s (2 + Z.of_nat (length addr))).
Proof.
  intros Hp Hs Hb Hl. unfold zebra_router_id_update_read.
  reads_step (reads_getc family). subst.
  reads_step (reads_get_size addr _ Hb). subst.
  cbn [pfx_u set_pfx_family]. rewrite memcpy_fits by done. cbn [mbind option_bind].
  reads_step (reads_getc prefixlen). subst.
  rewrite !stream_forward_forward. cbn. do 3 f_equal. lia.
Qed.

(** X3.  [zebra_interface_state_read] looks the interface up by the
    [INTERFACE_NAMSIZ] bytes of its name, cut at the first NUL.  When the
    registry has no such interface the answer is NULL and the seven values
    stay unread in the stream; otherwise they are decoded into the interface
    found, the metric as an [int]. *)
Theorem interface_state_read_decodes (s : stream) (name rest flags : list Z)
    (ifindex status metric mtu mtu6 bandwidth : Z) :
  0 <= st_getp s <= stream_get_endp s ->
  stream_unread s
  = name ++ interface_values ifindex status flags metric mtu mtu6 bandwidth ++ rest ->
  INTERFACE_NAMSIZ = Z.of_nat (length name) ->
  0 <= ifindex < 4294967296 -> 0 <= metric < 4294967296 -> 0 <= mtu < 4294967296 ->
  0 <= mtu6 < 4294967296 -> 0 <= bandwidth < 4294967296 -> length flags = 8%nat ->
  zebra_interface_state_read s
  = match if_lookup_by_name_len name (Z.of_nat (strnlen name (length name))) with
    | None => Some (None, stream_forward s INTERFACE_NAMSIZ)
    | Some ifp =>
        Some (Some {| ifp_ifindex := ifindex; ifp_status := status;
                      ifp_flags := uint64_of_bytes flags; ifp_metric := int_of_u32 metric;
                      ifp_mtu := mtu; ifp_mtu6 := mtu6; ifp_bandwidth := bandwidth;
                      ifp_hw_addr_len := ifp_hw_addr_len ifp;
                      ifp_hw_addr := ifp_hw_addr ifp |},
              stream_forward s (INTERFACE_NAMSIZ + 29))
    end.
Proof.
  intros Hp Hs Hn Hi Hm Hu Hu6 Hb Hf. unfold zebra_interface_state_read.
  reads_step (reads_get_size name _ Hn). subst s0.
  rewrite Hn, Nat2Z.id.
  destruct (if_lookup_by_name_len name _) as [ifp|]; [|done].
  rewrite (if_set_value_inline _ ifp (fun ifp s => Some (Some ifp, s))).
  rewrite (reads_interface_values ifp ifindex status metric mtu mtu6 bandwidth flags
             Hi Hm Hu Hu6 Hb Hf _ rest Hp0 Hu0).
  cbn [mbind option_bind]. rewrite stream_forward_forward. unfold interface_values.
  rewrite !length_app, Hf. cbn [length be32]. do 3 f_equal.
Qed.

(** X4.  [zebra_interface_add_read] asks the registry for the interface of
    the name, decodes the seven values into it, the metric as an [int], and
    then the hardware address behind its 32-bit length.  The length comes
    from the wire and is not checked against the array [hw_addr] of the
    interface: a longer address is written past its end, which is undefined
    ([None]), and so is a length from [2^31] on, which the [int]
    [hw_addr_len] holds as a negative number. *)
Theorem interface_add_read_decodes (s : stream) (name rest flags hw : list Z)
    (ifindex status metric mtu mtu6 bandwidth : Z) :
  0 <= st_getp s <= stream_get_endp s ->
  stream_unread s
  = name ++ interface_values ifindex status flags metric mtu mtu6 bandwidth
    ++ be32 (Z.of_nat (length hw)) ++ hw ++ rest ->
  INTERFACE_NAMSIZ = Z.of_nat (length name) ->
  0 <= ifindex < 4294967296 -> 0 <= metric < 4294967296 -> 0 <= mtu < 4294967296 ->
  0 <= mtu6 < 4294967296 -> 0 <= bandwidth < 4294967296 -> length flags = 8%nat ->
  Z.of_nat (length hw) < 4294967296 ->
  zebra_interface_add_read s
  = let ifp := if_get_by_name_len name (Z.of_nat (strnlen name (length name))) in
    if (Z.of_nat (length hw) <? 2147483648)
       && (length hw <=? length (ifp_hw_addr ifp))%nat
    then Some ({| ifp_ifindex := ifindex; ifp_status := status;
                  ifp_flags := uint64_of_bytes flags; ifp_metric := int_of_u32 metric;
                  ifp_mtu := mtu; ifp_mtu6 := mtu6; ifp_bandwidth := bandwidth;
                  ifp_hw_addr_len := Z.of_nat (length hw);
                  ifp_hw_addr := hw ++ drop (length hw) (ifp_hw_addr ifp) |},
               stream_forward s (INTERFACE_NAMSIZ + 33 + Z.of_nat (length hw)))
    else None.
Proof.
  intros Hp Hs Hn Hi Hm Hu Hu6 Hb Hf Hh. unfold zebra_interface_add_read.
  reads_step (reads_get_size name _ Hn). subst s0.
  rewrite Hn, Nat2Z.id.
  set (ifp := if_get_by_name_len name _).
  rewrite (if_set_value_inline _ ifp (fun ifp s =>
     '(v, s) ← stream_getl s;
     let ifp := set_ifp_hw_addr_len (int_of_u32 v) ifp in
     if truthy (ifp_hw_addr_len ifp)
     then '(bs, s) ← stream_get s (ifp_hw_addr_len ifp);
          hw ← memcpy (ifp_hw_addr ifp) bs;
          Some (set_ifp_hw_addr hw ifp, s)
     else Some (ifp, s))).
  reads_step (reads_interface_values ifp ifindex status metric mtu mtu6 bandwidth flags
                Hi Hm Hu Hu6 Hb Hf). subst s0.
  assert (Z.of_nat (length (interface_values ifindex status flags metric mtu mtu6 bandwidth))
          = 29) as Hl.
  { unfold interface_values. rewrite !length_app, Hf. done. }
  reads_step (reads_getl_be32 (Z.of_nat (length hw)) ltac:(lia)). subst s0.
  cbn [ifp_hw_addr_len set_ifp_hw_addr_len].
  destruct (Z.ltb_spec (Z.of_nat (length hw)) 2147483648) as [Hint|Hint];
    cbn [andb].
  - assert (int_of_u32 (Z.of_nat (length hw)) = Z.of_nat (length hw)) as Ei.
    { unfold int_of_u32. by destruct (Z.ltb_spec (Z.of_nat (length hw)) 2147483648); [|lia]. }
    rewrite !Ei. unfold truthy.
    destruct (Z.eqb_spec (Z.of_nat (length hw)) 0) as [Hz|Hz]; cbn [negb].
    + destruct hw; [|done].
      rewrite !stream_forward_forward, Hl, <- Hn. unfold set_ifp_hw_addr_len. cbn.
      rewrite drop_0. do 3 f_equal. lia.
    + reads_step (reads_get_size hw _ eq_refl). subst s0.
      cbn [ifp_hw_addr set_ifp_hw_addr_len]. unfold memcpy.
      destruct (Nat.leb_spec (length hw) (length (ifp_hw_addr ifp))); [|done].
      cbn [mbind option_bind]. rewrite !stream_forward_forward, Hl, <- Hn.
      cbn. do 3 f_equal. lia.
  - assert (int_of_u32 (Z.of_nat (length hw)) = Z.of_nat (length hw) - 4294967296) as Ei.
    { unfold int_of_u32. by destruct (Z.ltb_spec (Z.of_nat (length hw)) 2147483648); [lia|]. }
    rewrite !Ei. unfold truthy.
    destruct (Z.eqb_spec (Z.of_nat (length hw) - 4294967296) 0) as [Hz|Hz]; [lia|].
    cbn [negb]. unfold stream_get.
    destruct (Z.leb_spec 0 (Z.of_nat (length hw) - 4294967296)); [lia|done].
Qed.

Lemma memconstant_take (s : list Z) (c : Z) (n : nat) :
  (n <= length s)%nat ->
  memconstant s c n = Some (if bool_decide (take n s = replicate n c) then 1 else 0).
Proof.
  revert s. induction n as [|n IH]; intros s Hn.
  { cbn. rewrite bool_decide_eq_true_2; done. }
  destruct s as [|b p]; [cbn in Hn; lia|]. cbn in *.
  destruct (Z.eqb_spec b c) as [->|Hbc]; cbn.
  - rewrite IH by lia. do 1 f_equal.
    destruct (bool_decide_reflect (take n p = replicate n c)) as [E|E].
    + rewrite bool_decide_eq_true_2; [done|]. by rewrite E.
    + rewrite bool_decide_eq_false_2; [done|]. intros [= E']. done.
  - rewrite bool_decide_eq_false_2; [done|]. intros [= E']. done.
Qed.

(** X5.  [memconstant] answers 1 when the first [n] bytes of the object all
    are [c] and 0 otherwise; for no bytes at all it answers 1. *)
Theorem memconstant_all_equal (s : list Z) (c : Z) (n : nat) :
  (n <= length s)%nat ->
  memconstant s c n = Some (if bool_decide (take n s = replicate n c) then 1 else 0).
Proof. apply memconstant_take. Qed.

Lemma local_prefix_zeroed (family : Z) :
  set_pfx_family family {| pfx_family := 0; pfx_prefixlen := 0;
                           pfx_u := replicate sizeof_prefix_u 0 |}
  = local_prefix family 0 [].
Proof. unfold local_prefix, set_pfx_family. cbn. by rewrite Nat.sub_0_r. Qed.

Lemma memcpy_zeroed (bs : list Z) :
  (length bs <= sizeof_prefix_u)%nat ->
  memcpy (replicate sizeof_prefix_u 0) bs
  = Some (bs ++ replicate (sizeof_prefix_u - length bs) 0).
Proof.
  intros H. rewrite memcpy_fits by (rewrite length_replicate; lia).
  by rewrite drop_replicate.
Qed.

(** The part of [zebra_interface_address_read] that all message types
    share: the lookup of the interface and the two prefixes. *)
Lemma interface_address_read_front (type : Z) (s : stream) (ifp : interface)
    (ifindex ifc_flags family prefixlen : Z) (addr dest rest : list Z) :
  0 <= st_getp s <= stream_get_endp s ->
  stream_unread s
  = be32 ifindex ++ [ifc_flags] ++ [family] ++ addr ++ [prefixlen] ++ dest ++ rest ->
  0 <= ifindex < 4294967296 ->
  if_lookup_by_index ifindex = Some ifp ->
  prefix_blen (local_prefix family 0 []) = Z.of_nat (length addr) ->
  length dest = length addr ->
  (length addr <= sizeof_prefix_u)%nat ->
  zebra_interface_address_read type s
  = let s' := stream_forward s (7 + 2 * Z.of_nat (length addr)) in
    let p := local_prefix family prefixlen addr in
    let d := local_prefix family 0 dest in
    if type =? ZEBRA_INTERFACE_ADDRESS_ADD
    then
      match connected_add_by_prefix ifp p
              (if bool_decide (dest = replicate (length dest) 0) then None else Some d) with
      | Some ifc => ifc ← connected_patched ifc_flags ifc; Some (Some ifc, s')
      | None => Some (None, s')
      end
    else if type =? ZEBRA_INTERFACE_ADDRESS_DELETE
    then Some (connected_delete_by_prefix ifp p, s')
    else None.
Proof.
  intros Hp Hs Hi Hl Hb Hd Hz. unfold zebra_interface_address_read.
  reads_step (reads_getl_be32 ifindex Hi). subst s0. rewrite Hl.
  reads_step (reads_getc ifc_flags). subst s0.
  reads_step (reads_getc family). subst s0.
  rewrite local_prefix_zeroed, Hb.
  reads_step (reads_get_size addr _ eq_refl). subst s0.
  cbn [pfx_u local_prefix app]. rewrite Nat.sub_0_r, memcpy_zeroed by done.
  cbn [mbind option_bind].
  reads_step (reads_getc prefixlen). subst s0.
  reads_step (reads_get_size dest _ (f_equal Z.of_nat (eq_sym Hd))). subst s0.
  rewrite memcpy_zeroed by lia. cbn [mbind option_bind].
  rewrite !stream_forward_forward. cbn [length be32].
  replace (Z.of_nat 4 + (Z.of_nat 1 + (Z.of_nat 1 + (Z.of_nat (length addr)
           + (Z.of_nat 1 + Z.of_nat (length dest))))))
    with (7 + 2 * Z.of_nat (length addr)) by lia.
  cbv zeta.
  assert (set_pfx_prefixlen prefixlen
            (set_pfx_u (addr ++ replicate (sizeof_prefix_u - length addr) 0)
               (local_prefix family 0 []))
          = local_prefix family prefixlen addr) as -> by done.
  assert (set_pfx_family family
            (set_pfx_u (dest ++ replicate (sizeof_prefix_u - length dest) 0)
               {| pfx_family := 0; pfx_prefixlen := 0;
                  pfx_u := replicate sizeof_prefix_u 0 |})
          = local_prefix family 0 dest) as -> by done.
  destruct (type =? ZEBRA_INTERFACE_ADDRESS_ADD); [|done].
  rewrite <- Hd.
  cbn [pfx_u local_prefix]. rewrite Nat2Z.id.
  rewrite memconstant_take by (rewrite length_app; lia).
  cbn [mbind option_bind]. rewrite take_app_length.
  destruct (bool_decide (dest = replicate (length dest) 0)); cbn [truthy Z.eqb negb].
  - destruct (connected_add_by_prefix _ _ _) as [ifc|]; [|done].
    unfold connected_patched, set_conn_flags, set_conn_destination. cbn.
    destruct (conn_destination ifc); [|done].
    destruct (conn_address ifc); done.
  - destruct (connected_add_by_prefix _ _ _) as [ifc|]; [|done].
    unfold connected_patched, set_conn_flags, set_conn_destination. cbn.
    destruct (conn_destination ifc); [|done].
    destruct (conn_address ifc); done.
Qed.

(** X6.  [zebra_interface_address_read] for an address addition: the
    registry is given the address and the destination of the message, but no
    destination at all when the bytes of the destination all are zero (which
    they are when the family has no address bytes).  The connected address
    the registry hands out takes the flags of the message, and its
    destination the prefix length of its address. *)
Theorem interface_address_read_add (s : stream) (ifp : interface)
    (ifindex ifc_flags family prefixlen : Z) (addr dest rest : list Z) :
  0 <= st_getp s <= stream_get_endp s ->
  stream_unread s
  = be32 ifindex ++ [ifc_flags] ++ [family] ++ addr ++ [prefixlen] ++ dest ++ rest ->
  0 <= ifindex < 4294967296 ->
  if_lookup_by_index ifindex = Some ifp ->
  prefix_blen (local_prefix family 0 []) = Z.of_nat (length addr) ->
  length dest = length addr ->
  (length addr <= sizeof_prefix_u)%nat ->
  zebra_interface_address_read ZEBRA_INTERFACE_ADDRESS_ADD s
  = match connected_add_by_prefix ifp (local_prefix family prefixlen addr)
            (if bool_decide (dest = replicate (length dest) 0)
             then None else Some (local_prefix family 0 dest)) with
    | Some ifc =>
        ifc ← connected_patched ifc_flags ifc;
        Some (Some ifc, stream_forward s (7 + 2 * Z.of_nat (length addr)))
    | None => Some (None, stream_forward s (7 + 2 * Z.of_nat (length addr)))
    end.
Proof.
  intros Hp Hs Hi Hl Hb Hd Hz.
  rewrite (interface_address_read_front _ s ifp ifindex ifc_flags family prefixlen
             addr dest rest Hp Hs Hi Hl Hb Hd Hz).
  cbv zeta. by rewrite Z.eqb_refl.
Qed.

(** X7.  The other message types of [zebra_interface_address_read].  An
    index that the registry does not know gives NULL with only the index
    read, whatever the type.  For a known interface a deletion reads and
    drops the destination, and a type that is neither addition nor deletion
    aborts, after the message is read. *)
Theorem interface_address_read_other (type : Z) (s : stream)
    (ifindex ifc_flags family prefixlen : Z) (addr dest rest : list Z) :
  0 <= st_getp s <= stream_get_endp s ->
  stream_unread s
  = be32 ifindex ++ [ifc_flags] ++ [family] ++ addr ++ [prefixlen] ++ dest ++ rest ->
  0 <= ifindex < 4294967296 ->
  prefix_blen (local_prefix family 0 []) = Z.of_nat (length addr) ->
  length dest = length addr ->
  (length addr <= sizeof_prefix_u)%nat ->
  type <> ZEBRA_INTERFACE_ADDRESS_ADD ->
  zebra_interface_address_read type s
  = match if_lookup_by_index ifindex with
    | None => Some (None, stream_forward s 4)
    | Some ifp =>
        if type =? ZEBRA_INTERFACE_ADDRESS_DELETE
        then Some (connected_delete_by_prefix ifp (local_prefix family prefixlen addr),
                   stream_forward s (7 + 2 * Z.of_nat (length addr)))
        else None
    end.
Proof.
  intros Hp Hs Hi Hb Hd Hz Ht.
  destruct (if_lookup_by_index ifindex) as [ifp'|] eqn:Hl.
  - rewrite (interface_address_read_front _ s ifp' ifindex ifc_flags family prefixlen
               addr dest rest Hp Hs Hi Hl Hb Hd Hz).
    cbv zeta. by destruct (Z.eqb_spec type ZEBRA_INTERFACE_ADDRESS_ADD).
  - unfold zebra_interface_address_read.
    reads_step (reads_getl_be32 ifindex Hi). subst s0. by rewrite Hl.
Qed.

End DecoderClaims.
(** ** The inbound dispatcher *)

Lemma with_ibuf_ibuf (s : stream) (w : world) : ibuf (zc (with_ibuf s w)) = s.
Proof. done. Qed.

Lemma with_ibuf_with_ibuf (s1 s2 : stream) (w : world) :
  with_ibuf s2 (with_ibuf s1 w) = with_ibuf s2 w.
Proof. done. Qed.

Lemma with_ibuf_set_rxq (s : stream) (q : list Z) (w : world) :
  with_ibuf s (set_rxq q w) = set_rxq q (with_ibuf s w).
Proof. done. Qed.

Lemma set_rxq_set_rxq (q1 q2 : list Z) (w : world) :
  set_rxq q2 (set_rxq q1 w) = set_rxq q2 w.
Proof. done. Qed.

Lemma with_ibuf_same (w : world) : with_ibuf (ibuf (zc w)) w = w.
Proof. by destruct w as [? [] ? ? ? ? ? ? ?]. Qed.

Lemma set_rxq_same (w : world) : set_rxq (rxq w) w = w.
Proof. by destruct w. Qed.

Lemma frame_header (command : Z) (body : list Z) :
  frame command body = header (ZEBRA_HEADER_SIZE + Z.of_nat (length body)) command ++ body.
Proof.
  unfold frame, framed, header. rewrite <- !app_assoc. do 2 f_equal.
  rewrite !length_app. cbn [length be16]. unfold ZEBRA_HEADER_SIZE.
  replace (2 + Z.of_nat (2 + (2 + length body))) with (6 + Z.of_nat (length body)) by lia.
  done.
Qed.

Lemma frame_length (command : Z) (body : list Z) :
  Z.of_nat (length (frame command body)) = ZEBRA_HEADER_SIZE + Z.of_nat (length body).
Proof. rewrite frame_header, length_app. unfold ZEBRA_HEADER_SIZE. cbn. lia. Qed.

Lemma bind_assoc_M {A B C : Type} (m : M A) (f : A -> M B) (g : B -> M C) (w : world) :
  ((m ≫= f) ≫= g) w = (m ≫= fun a => f a ≫= g) w.
Proof. unfold mbind, M_bind. by destruct (m w) as [[a w1]|]. Qed.

Lemma bind_eq {A B : Type} (m : M A) (k : A -> M B) (w : world) (r : option (A * world)) :
  m w = r -> (m ≫= k) w = match r with Some (a, w1) => k a w1 | None => None end.
Proof. intros <-. unfold mbind, M_bind. by destruct (m w) as [[a w1]|]. Qed.

Lemma bind_ret_M {A B : Type} (a : A) (f : A -> M B) (w : world) :
  (mret a ≫= f) w = f a w.
Proof. done. Qed.

Section Reading.

Context `{zh : zebra_h}.

Lemma zclient_event_read (w : world) :
  tokens_ok w -> zclient_event ZCLIENT_READ w = Some (tt, arm_read w).
Proof.
  intros Hok. unfold zclient_event, zclient_event_r, zclient_event_t, arm_read, tokens_ok in *.
  munfold. destruct (zclient_nexus w); [|done].
  destruct Hok as [[f ->] _]; done.
Qed.

(** One read from the socket. *)
Lemma stream_read_try_run (size : Z) (w : world) :
  0 <= size <= STREAM_WRITEABLE (ibuf (zc w)) ->
  stream_read_try size w
  = match rxq w with
    | [] => Some (rx_idle w, w)
    | _ =>
        let k := Nat.min (Z.to_nat size) (length (rxq w)) in
        Some (Z.of_nat k,
              set_rxq (drop k (rxq w))
                (with_ibuf {| st_size := st_size (ibuf (zc w));
                              st_getp := st_getp (ibuf (zc w));
                              st_data := st_data (ibuf (zc w)) ++ take k (rxq w) |} w))
    end.
Proof.
  intros Hs. unfold stream_read_try. munfold.
  destruct (Z.leb_spec 0 size); [|lia].
  destruct (Z.leb_spec size (STREAM_WRITEABLE (ibuf (zc w)))); [|lia].
  cbn [andb negb]. destruct (rxq w) as [|b q] eqn:Eq; [done|].
  cbv zeta. unfold stream_append.
  destruct (Z.leb_spec (Z.of_nat (length (take (Nat.min (Z.to_nat size) (length (b :: q)))
                                                 (b :: q))))
              (STREAM_WRITEABLE (ibuf (zc w)))) as [_|Hgt].
  - cbn [fst snd]. unfold with_ibuf. cbn. rewrite Eq. done.
  - rewrite length_take in Hgt. lia.
Qed.

(** The header is in the input stream and it is good. *)
Lemma zclient_read_packet_good (hs : handlers) (already : Z) (w : world)
    (L command : Z) (rest : list Z) :
  st_data (ibuf (zc w)) = header L command ++ rest ->
  ZEBRA_HEADER_SIZE <= L < 65536 -> 0 <= command < 65536 ->
  Z.of_nat (length (st_data (ibuf (zc w)))) <= L ->
  zclient_read_packet hs already w
  = read_body hs L command already
      (with_ibuf {| st_size := Z.max (st_size (ibuf (zc w))) L;
                    st_getp := ZEBRA_HEADER_SIZE;
                    st_data := st_data (ibuf (zc w)) |} w).
Proof.
  intros Hd HL Hc Hfit. unfold zclient_read_packet, header, be16 in *.
  cbn [app] in Hd.
  erewrite bind_run
    by (apply on_ibuf_run; unfold stream_set_getp, stream_get_endp; rewrite Hd;
        reflexivity).
  erewrite bind_run
    by (apply ibuf_get_run; unfold stream_getw, stream_getc; cbn; rewrite ?Hd;
        reflexivity).
  erewrite bind_run
    by (apply ibuf_get_run; unfold stream_getc; cbn; rewrite ?Hd; reflexivity).
  erewrite bind_run
    by (apply ibuf_get_run; unfold stream_getc; cbn; rewrite ?Hd; reflexivity).
  erewrite bind_run
    by (apply ibuf_get_run; unfold stream_getw, stream_getc; cbn; rewrite ?Hd;
        reflexivity).
  rewrite !be16_value by (unfold ZEBRA_HEADER_SIZE in *; lia).
  rewrite !Z.eqb_refl. cbn [negb orb].
  destruct (Z.ltb_spec L ZEBRA_HEADER_SIZE); [lia|].
  unfold read_body.
  rewrite (bind_run get_zc _ _ _ _ eq_refl).
  cbn [zc set_zc ibuf set_ibuf stream_get_size st_size].
  destruct (Z.gtb_spec L (st_size (ibuf (zc w)))) as [Hg|Hg].
  - erewrite bind_run.
    2:{ apply on_ibuf_run. unfold stream_copy, stream_new, stream_get_endp. cbn.
        match goal with |- (if ?c then _ else _) = _ => destruct c eqn:E end;
          [reflexivity|].
        apply Z.leb_gt in E. rewrite Hd in Hfit. cbn in Hfit, E. lia. }
    cbn. rewrite Z.max_r by lia. rewrite <- Hd. done.
  - rewrite (bind_run (mret tt) _ _ _ _ eq_refl).
    cbn. rewrite Z.max_l by lia. rewrite <- Hd. done.
Qed.

(** The body phase on a frame that is not complete yet: the bytes that
    wait are taken and the read is armed again. *)
Lemma read_body_partial (hs : handlers) (L command : Z) (w : world) :
  tokens_ok w -> rx_idle w = -2 ->
  L <= st_size (ibuf (zc w)) ->
  Z.of_nat (length (st_data (ibuf (zc w)))) + Z.of_nat (length (rxq w)) < L ->
  read_body hs L command (Z.of_nat (length (st_data (ibuf (zc w))))) w
  = Some (0, arm_read (set_rxq []
                         (with_ibuf {| st_size := st_size (ibuf (zc w));
                                       st_getp := st_getp (ibuf (zc w));
                                       st_data := st_data (ibuf (zc w)) ++ rxq w |} w))).
Proof.
  intros Hok Hidle Hsize Hlen. unfold read_body.
  set (X := st_data (ibuf (zc w))) in *.
  destruct (Z.ltb_spec (Z.of_nat (length X)) L); [|lia].
  rewrite bind_assoc_M.
  erewrite bind_eq
    by (apply stream_read_try_run; unfold STREAM_WRITEABLE, stream_get_endp; fold X; lia).
  destruct (rxq w) as [|b q] eqn:Eq.
  - rewrite Hidle. change ((-2 =? 0) || (-2 =? -1)) with false. cbv iota.
    destruct (Z.eqb_spec (-2) (L - Z.of_nat (length X))); [lia|]. cbn [negb].
    rewrite bind_assoc_M. erewrite bind_eq by (by apply zclient_event_read). cbn.
    rewrite app_nil_r. do 3 f_equal.
    unfold X. rewrite <- Eq. destruct w as [? [? ? ? ? ? ? ib ? ? ? ? ? ? ?] ? ? ? ? ? ? ?]. cbn in *.
    by destruct ib.
  - cbv zeta. fold X. rewrite <- Eq in *.
    assert (Nat.min (Z.to_nat (L - Z.of_nat (length X))) (length (rxq w))
            = length (rxq w)) as -> by lia.
    rewrite take_ge, drop_ge by lia.
    destruct (Z.eqb_spec (Z.of_nat (length (rxq w))) 0); [rewrite Eq in *; cbn in *; lia|].
    destruct (Z.eqb_spec (Z.of_nat (length (rxq w))) (-1)); [lia|].
    destruct (Z.eqb_spec (Z.of_nat (length (rxq w))) (L - Z.of_nat (length X))); [lia|].
    cbn [orb negb].
    rewrite bind_assoc_M. erewrite bind_eq by (by apply zclient_event_read). done.
Qed.

(** The body phase on a frame whose bytes all are there: what is missing
    is taken from the socket and the frame is dispatched. *)
Lemma read_body_complete (hs : handlers) (L command : Z) (w : world) :
  L <= st_size (ibuf (zc w)) ->
  Z.of_nat (length (st_data (ibuf (zc w)))) <= L ->
  L <= Z.of_nat (length (st_data (ibuf (zc w)))) + Z.of_nat (length (rxq w)) ->
  read_body hs L command (Z.of_nat (length (st_data (ibuf (zc w))))) w
  = (zclient_read_dispatch hs command (L - ZEBRA_HEADER_SIZE);; after_dispatch)
      (set_rxq (drop (Z.to_nat L - length (st_data (ibuf (zc w)))) (rxq w))
         (with_ibuf {| st_size := st_size (ibuf (zc w));
                       st_getp := st_getp (ibuf (zc w));
                       st_data := st_data (ibuf (zc w))
                                  ++ take (Z.to_nat L - length (st_data (ibuf (zc w))))
                                       (rxq w) |} w)).
Proof.
  intros Hsize Hle Hlen. unfold read_body.
  set (X := st_data (ibuf (zc w))) in *.
  destruct (Z.ltb_spec (Z.of_nat (length X)) L).
  - rewrite bind_assoc_M.
    erewrite bind_eq
      by (apply stream_read_try_run; unfold STREAM_WRITEABLE, stream_get_endp; fold X; lia).
    destruct (rxq w) as [|b q] eqn:Eq; [cbn in Hlen; lia|].
    cbv zeta. fold X. rewrite <- Eq in *.
    assert (Nat.min (Z.to_nat (L - Z.of_nat (length X))) (length (rxq w))
            = (Z.to_nat L - length X)%nat) as -> by lia.
    destruct (Z.eqb_spec (Z.of_nat (Z.to_nat L - length X)) 0); [lia|].
    destruct (Z.eqb_spec (Z.of_nat (Z.to_nat L - length X)) (-1)); [lia|].
    destruct (Z.eqb_spec (Z.of_nat (Z.to_nat L - length X)) (L - Z.of_nat (length X)));
      [|lia].
    done.
  - assert (Z.to_nat L - length X = 0)%nat as -> by lia.
    rewrite take_0, drop_0, app_nil_r.
    rewrite bind_ret_M. do 2 f_equal.
    unfold X. destruct w as [? [? ? ? ? ? ? ib ? ? ? ? ? ? ?] ? ? ? ? ? ? ?]. cbn. by destruct ib.
Qed.

(** The header phase. *)
Lemma zclient_read_header_have (w : world) :
  ZEBRA_HEADER_SIZE <= Z.of_nat (length (st_data (ibuf (zc w)))) ->
  zclient_read_header w = Some (inr (Z.of_nat (length (st_data (ibuf (zc w))))), w).
Proof.
  intros H. unfold zclient_read_header. munfold. unfold stream_get_endp.
  by destruct (Z.ltb_spec (Z.of_nat (length (st_data (ibuf (zc w))))) ZEBRA_HEADER_SIZE);
    [lia|].
Qed.

Lemma zclient_read_header_partial (w : world) :
  tokens_ok w -> rx_idle w = -2 ->
  ZEBRA_HEADER_SIZE <= st_size (ibuf (zc w)) ->
  Z.of_nat (length (st_data (ibuf (zc w)))) + Z.of_nat (length (rxq w)) < ZEBRA_HEADER_SIZE ->
  zclient_read_header w
  = Some (inl 0, arm_read (set_rxq []
                             (with_ibuf {| st_size := st_size (ibuf (zc w));
                                           st_getp := st_getp (ibuf (zc w));
                                           st_data := st_data (ibuf (zc w)) ++ rxq w |} w))).
Proof.
  intros Hok Hidle Hsize Hlen. unfold zclient_read_header.
  rewrite (bind_run get_zc _ _ _ _ eq_refl). unfold stream_get_endp.
  set (X := st_data (ibuf (zc w))) in *.
  destruct (Z.ltb_spec (Z.of_nat (length X)) ZEBRA_HEADER_SIZE); [|lia].
  erewrite bind_eq
    by (apply stream_read_try_run; unfold STREAM_WRITEABLE, stream_get_endp; fold X; lia).
  destruct (rxq w) as [|b q] eqn:Eq.
  - rewrite Hidle. change ((-2 =? 0) || (-2 =? -1)) with false. cbv iota.
    destruct (Z.eqb_spec (-2) (ZEBRA_HEADER_SIZE - Z.of_nat (length X))); [lia|].
    cbn [negb].
    erewrite bind_eq by (by apply zclient_event_read). cbn.
    rewrite app_nil_r. do 3 f_equal.
    unfold X. rewrite <- Eq. destruct w as [? [? ? ? ? ? ? ib ? ? ? ? ? ? ?] ? ? ? ? ? ? ?]. cbn in *.
    by destruct ib.
  - cbv zeta. fold X. rewrite <- Eq in *.
    assert (Nat.min (Z.to_nat (ZEBRA_HEADER_SIZE - Z.of_nat (length X))) (length (rxq w))
            = length (rxq w)) as -> by lia.
    rewrite take_ge, drop_ge by lia.
    destruct (Z.eqb_spec (Z.of_nat (length (rxq w))) 0); [rewrite Eq in *; cbn in *; lia|].
    destruct (Z.eqb_spec (Z.of_nat (length (rxq w))) (-1)); [lia|].
    destruct (Z.eqb_spec (Z.of_nat (length (rxq w)))
                (ZEBRA_HEADER_SIZE - Z.of_nat (length X))); [lia|].
    cbn [orb negb].
    erewrite bind_eq by (by apply zclient_event_read). done.
Qed.

Lemma zclient_read_header_complete (w : world) :
  ZEBRA_HEADER_SIZE <= st_size (ibuf (zc w)) ->
  Z.of_nat (length (st_data (ibuf (zc w)))) < ZEBRA_HEADER_SIZE ->
  ZEBRA_HEADER_SIZE
    <= Z.of_nat (length (st_data (ibuf (zc w)))) + Z.of_nat (length (rxq w)) ->
  zclient_read_header w
  = Some (inr ZEBRA_HEADER_SIZE,
          set_rxq (drop (6 - length (st_data (ibuf (zc w)))) (rxq w))
            (with_ibuf {| st_size := st_size (ibuf (zc w));
                          st_getp := st_getp (ibuf (zc w));
                          st_data := st_data (ibuf (zc w))
                                     ++ take (6 - length (st_data (ibuf (zc w))))
                                          (rxq w) |} w)).
Proof.
  intros Hsize Hlt Hlen. unfold zclient_read_header.
  rewrite (bind_run get_zc _ _ _ _ eq_refl). unfold stream_get_endp.
  set (X := st_data (ibuf (zc w))) in *.
  destruct (Z.ltb_spec (Z.of_nat (length X)) ZEBRA_HEADER_SIZE); [|lia].
  erewrite bind_eq
    by (apply stream_read_try_run; unfold STREAM_WRITEABLE, stream_get_endp; fold X; lia).
  unfold ZEBRA_HEADER_SIZE in *.
  destruct (rxq w) as [|b q] eqn:Eq; [cbn in Hlen; lia|].
  cbv zeta. fold X. rewrite <- Eq in *.
  assert (Nat.min (Z.to_nat (6 - Z.of_nat (length X))) (length (rxq w))
          = (6 - length X)%nat) as -> by lia.
  destruct (Z.eqb_spec (Z.of_nat (6 - length X)) 0); [lia|].
  destruct (Z.eqb_spec (Z.of_nat (6 - length X)) (-1)); [lia|].
  destruct (Z.eqb_spec (Z.of_nat (6 - length X)) (6 - Z.of_nat (length X))); [|lia].
  done.
Qed.

Lemma header_of_frame (X Y more body : list Z) (command : Z) :
  X ++ Y = frame command body ++ more -> (6 <= length X)%nat ->
  X = header (ZEBRA_HEADER_SIZE + Z.of_nat (length body)) command ++ drop 6 X.
Proof.
  intros E H. rewrite <- (take_drop 6 X) at 1. f_equal.
  assert (take 6 (X ++ Y) = take 6 X) as <- by (by rewrite take_app_le).
  rewrite E, frame_header, <- app_assoc.
  by rewrite (take_app_length' (header _ _)).
Qed.

(** A packet whose header is in the input stream, and that is not
    complete yet. *)
Lemma zclient_read_packet_partial (hs : handlers) (w : world) (command : Z)
    (body tail : list Z) :
  let L := ZEBRA_HEADER_SIZE + Z.of_nat (length body) in
  tokens_ok w -> rx_idle w = -2 ->
  L < 65536 -> 0 <= command < 65536 ->
  (6 <= length (st_data (ibuf (zc w))))%nat ->
  st_data (ibuf (zc w)) ++ rxq w ++ tail = frame command body -> tail <> [] ->
  zclient_read_packet hs (Z.of_nat (length (st_data (ibuf (zc w))))) w
  = Some (0, arm_read (set_rxq []
                         (with_ibuf {| st_size := Z.max (st_size (ibuf (zc w))) L;
                                       st_getp := ZEBRA_HEADER_SIZE;
                                       st_data := st_data (ibuf (zc w)) ++ rxq w |} w))).
Proof.
  intros L Hok Hidle HL Hc H6 HF Htail.
  assert (Z.of_nat (length (st_data (ibuf (zc w)))) + Z.of_nat (length (rxq w)) < L) as Hlen.
  { pose proof (f_equal length HF) as E. rewrite !length_app in E.
    pose proof (frame_length command body). destruct tail; [done|].
    cbn [length] in E. unfold L. lia. }
  assert (forall L', L' = L -> 0 <= L') as HL0.
  { intros ? ->. unfold L, ZEBRA_HEADER_SIZE. lia. }
  rewrite (zclient_read_packet_good hs _ w L command (drop 6 (st_data (ibuf (zc w))))).
  - refine (eq_trans (read_body_partial hs L command (with_ibuf _ w) _ _ _ _) _);
      try done; cbn; lia.
  - apply (header_of_frame _ (rxq w ++ tail) [] body); [by rewrite app_nil_r|done].
  - unfold L, ZEBRA_HEADER_SIZE in *. lia.
  - done.
  - lia.
Qed.

(** A packet whose header is in the input stream, and whose other bytes
    are there or wait in the socket. *)
Lemma zclient_read_packet_complete (hs : handlers) (w : world) (command : Z)
    (body more : list Z) :
  let L := ZEBRA_HEADER_SIZE + Z.of_nat (length body) in
  L < 65536 -> 0 <= command < 65536 ->
  (6 <= length (st_data (ibuf (zc w))))%nat ->
  Z.of_nat (length (st_data (ibuf (zc w)))) <= L ->
  st_data (ibuf (zc w)) ++ rxq w = frame command body ++ more ->
  zclient_read_packet hs (Z.of_nat (length (st_data (ibuf (zc w))))) w
  = (zclient_read_dispatch hs command (Z.of_nat (length body));; after_dispatch)
      (set_rxq more
         (with_ibuf {| st_size := Z.max (st_size (ibuf (zc w))) L;
                       st_getp := ZEBRA_HEADER_SIZE;
                       st_data := frame command body |} w)).
Proof.
  intros L HL Hc H6 Hle HF.
  pose proof (frame_length command body) as HFl. fold L in HFl.
  set (X := st_data (ibuf (zc w))) in *.
  assert (X ++ take (Z.to_nat L - length X) (rxq w) = frame command body
          /\ drop (Z.to_nat L - length X) (rxq w) = more) as [E1 E2].
  { assert (take (Z.to_nat L) (X ++ rxq w) = frame command body) as T.
    { rewrite HF, take_app_length'; [done|lia]. }
    assert (drop (Z.to_nat L) (X ++ rxq w) = more) as D.
    { rewrite HF, drop_app_length'; [done|lia]. }
    rewrite take_app, take_ge in T by lia. rewrite drop_app, drop_ge in D by lia.
    done. }
  rewrite (zclient_read_packet_good hs _ w L command (drop 6 X)).
  - refine (eq_trans (read_body_complete hs L command (with_ibuf _ w) _ _ _) _).
    + cbn. lia.
    + done.
    + cbn. fold X. pose proof (f_equal length HF) as E. rewrite !length_app in E. lia.
    + cbn [ibuf zc set_zc with_ibuf set_ibuf st_data st_size st_getp rxq].
      fold X. rewrite E1, E2.
      replace (L - ZEBRA_HEADER_SIZE) with (Z.of_nat (length body)) by (unfold L; lia).
      done.
  - apply (header_of_frame _ (rxq w) more body); done.
  - unfold L, ZEBRA_HEADER_SIZE in *. lia.
  - done.
  - done.
Qed.

(** [zclient_read] on a frame of which a part is still missing. *)
Lemma zclient_read_partial (hs : handlers) (w : world) (command : Z) (body tail : list Z) :
  let L := ZEBRA_HEADER_SIZE + Z.of_nat (length body) in
  tokens_ok w -> rx_idle w = -2 ->
  ZEBRA_HEADER_SIZE <= st_size (ibuf (zc w)) ->
  L < 65536 -> 0 <= command < 65536 ->
  st_data (ibuf (zc w)) ++ rxq w ++ tail = frame command body -> tail <> [] ->
  zclient_read hs w
  = Some (0, arm_read (set_rxq []
                         (with_ibuf (receiving L (st_data (ibuf (zc w)) ++ rxq w)
                                       (ibuf (zc w))) w))).
Proof.
  intros L Hok Hidle Hsize HL Hc HF Htail. unfold zclient_read, receiving.
  set (X := st_data (ibuf (zc w))) in *.
  destruct (Z.leb_spec ZEBRA_HEADER_SIZE (Z.of_nat (length (X ++ rxq w)))) as [H6|H6];
    rewrite length_app in H6.
  - destruct (Z.le_gt_cases ZEBRA_HEADER_SIZE (Z.of_nat (length X))) as [Hx|Hx].
    + erewrite bind_eq by (by apply zclient_read_header_have).
      refine (eq_trans (zclient_read_packet_partial hs w command body tail _ _ _ _ _ _ _) _);
        try done.
      unfold ZEBRA_HEADER_SIZE in *; fold X; lia.
    + erewrite bind_eq by (by apply zclient_read_header_complete; fold X; lia).
      fold X. unfold ZEBRA_HEADER_SIZE in Hx, H6.
      match goal with
      | |- context [Some (inr ZEBRA_HEADER_SIZE, ?W)] => set (w' := W)
      end.
      assert (ZEBRA_HEADER_SIZE = Z.of_nat (length (st_data (ibuf (zc w'))))) as E6.
      { cbn. rewrite length_app, length_take. unfold ZEBRA_HEADER_SIZE. lia. }
      cbv beta iota. rewrite E6 at 1.
      rewrite (zclient_read_packet_partial hs w' command body tail); try done.
      * subst w'. cbn. rewrite <- !app_assoc, take_drop. done.
      * apply Nat2Z.inj_le. rewrite <- E6. done.
      * subst w'. cbn. rewrite <- !app_assoc, (app_assoc (take _ _)), take_drop. done.
  - erewrite bind_eq
      by (apply zclient_read_header_partial; [done|done|done|fold X; lia]).
    done.
Qed.

(** [zclient_read] on a frame whose bytes all are there or wait in the
    socket. *)
Lemma zclient_read_complete (hs : handlers) (w : world) (command : Z) (body more : list Z) :
  let L := ZEBRA_HEADER_SIZE + Z.of_nat (length body) in
  ZEBRA_HEADER_SIZE <= st_size (ibuf (zc w)) ->
  L < 65536 -> 0 <= command < 65536 ->
  Z.of_nat (length (st_data (ibuf (zc w)))) <= L ->
  st_data (ibuf (zc w)) ++ rxq w = frame command body ++ more ->
  zclient_read hs w
  = (zclient_read_dispatch hs command (Z.of_nat (length body));; after_dispatch)
      (set_rxq more
         (with_ibuf {| st_size := Z.max (st_size (ibuf (zc w))) L;
                       st_getp := ZEBRA_HEADER_SIZE;
                       st_data := frame command body |} w)).
Proof.
  intros L Hsize HL Hc Hle HF. unfold zclient_read.
  set (X := st_data (ibuf (zc w))) in *.
  pose proof (frame_length command body) as HFl. fold L in HFl.
  pose proof (f_equal length HF) as El. rewrite !length_app in El.
  destruct (Z.le_gt_cases ZEBRA_HEADER_SIZE (Z.of_nat (length X))) as [Hx|Hx].
  - erewrite bind_eq by (by apply zclient_read_header_have).
    refine (eq_trans (zclient_read_packet_complete hs w command body more _ _ _ _ _) _);
      try done.
    unfold ZEBRA_HEADER_SIZE in *; fold X; lia.
  - erewrite bind_eq
      by (apply zclient_read_header_complete; fold X; unfold L, ZEBRA_HEADER_SIZE in *; lia).
    fold X. unfold ZEBRA_HEADER_SIZE in Hx.
    match goal with
    | |- context [Some (inr ZEBRA_HEADER_SIZE, ?W)] => set (w' := W)
    end.
    assert (ZEBRA_HEADER_SIZE = Z.of_nat (length (st_data (ibuf (zc w'))))) as E6.
    { cbn. rewrite length_app, length_take. unfold L, ZEBRA_HEADER_SIZE in *. lia. }
    cbv beta iota. rewrite E6 at 1.
    rewrite (zclient_read_packet_complete hs w' command body more); try done.
    + apply Nat2Z.inj_le. rewrite <- E6. done.
    + rewrite <- E6. unfold L, ZEBRA_HEADER_SIZE. lia.
    + subst w'. cbn. rewrite <- !app_assoc, take_drop. done.
Qed.

End Reading.
Section Feeding.

Context `{zh : zebra_h}.

Lemma zclient_read_dispatch_handler (hs : handlers) (command length : Z) :
  zclient_read_dispatch hs command length
  = call_handler (handler_for hs command) command length.
Proof.
  unfold zclient_read_dispatch, handler_for.
  repeat (match goal with |- context [if ?c then _ else _] => destruct c end; [done|]).
  done.
Qed.

(** The socket becomes readable while the client waits for it. *)
Lemma react_read (hs : handlers) (w : world) :
  read_armed w ->
  react (read_event w hs) w = (zclient_read hs;; mret tt) (disarm_read w).
Proof.
  unfold read_armed, read_event, disarm_read, react. intros H.
  rewrite (bind_run get_zc _ _ _ _ eq_refl).
  destruct (zclient_nexus w).
  - destruct H as (f & Ef & [a Ea]). rewrite Ef. destruct f as [fd r wr]. cbn in Ea.
    subst r. unfold zclient_read_r, on_qf.
    rewrite bind_assoc_M, (bind_run get_zc _ _ _ _ eq_refl), Ef. done.
  - destruct H as [t Et]. rewrite Et. unfold zclient_read_t.
    by rewrite bind_assoc_M.
Qed.

Lemma alike_refl (w : world) : alike w w.
Proof. done. Qed.

Lemma alike_nexus (a b : world) : alike a b -> zclient_nexus a = zclient_nexus b.
Proof.
  intros H. specialize (H (stream_new 0) []).
  apply (f_equal zclient_nexus) in H. revert H. unfold disarm_read.
  destruct (zclient_nexus a) eqn:Ea, (zclient_nexus b) eqn:Eb; try done.
  all: destruct (qf (zc a)), (qf (zc b)); cbn; congruence.
Qed.

Lemma tokens_ok_disarm (w : world) : tokens_ok w -> tokens_ok (disarm_read w).
Proof.
  unfold tokens_ok, disarm_read. intros H.
  destruct (zclient_nexus w) eqn:En; [|by cbn; rewrite En].
  destruct (H eq_refl) as [[f Ef] Ht]. rewrite Ef. cbn. intros _. eauto.
Qed.

Lemma tokens_ok_arm (w : world) : tokens_ok w -> tokens_ok (arm_read w).
Proof.
  unfold tokens_ok, arm_read. intros H.
  destruct (zclient_nexus w) eqn:En; [|by cbn; rewrite En].
  destruct (H eq_refl) as [[f Ef] Ht]. rewrite Ef. cbn. intros _. eauto.
Qed.

Lemma read_armed_arm (w : world) : tokens_ok w -> read_armed (arm_read w).
Proof.
  unfold tokens_ok, arm_read, read_armed. intros H.
  destruct (zclient_nexus w) eqn:En; [|by cbn; rewrite En].
  destruct (H eq_refl) as [[f Ef] Ht]. rewrite Ef. cbn. rewrite En. eauto.
Qed.

(** Taking the read token away, after it was given back. *)
Lemma disarm_arm (a : world) (s s0 : stream) (q q0 p : list Z) :
  set_rxq q (with_ibuf s
    (disarm_read (arm_read (set_rxq q0 (with_ibuf s0 (disarm_read (set_rxq p a)))))))
  = set_rxq q (with_ibuf s (disarm_read a)).
Proof.
  unfold disarm_read, arm_read. destruct a as [n c kc nc kw nw rq ri tr]. cbn.
  destruct n; cbn.
  - destruct c as [? ? ? ? ? ? ? ? ? ? ? ? qf0 ?]. cbn.
    destruct qf0 as [f|]; cbn; [|done]. done.
  - done.
Qed.

Lemma disarm_read_fields (w : world) :
  rx_idle (disarm_read w) = rx_idle w /\ rxq (disarm_read w) = rxq w
  /\ ibuf (zc (disarm_read w)) = ibuf (zc w).
Proof.
  unfold disarm_read. destruct (zclient_nexus w); [|done].
  by destruct (qf (zc w)).
Qed.

Lemma arm_read_fields (w : world) :
  rx_idle (arm_read w) = rx_idle w /\ rxq (arm_read w) = rxq w
  /\ ibuf (zc (arm_read w)) = ibuf (zc w).
Proof.
  unfold arm_read. destruct (zclient_nexus w); [|done].
  by destruct (qf (zc w)).
Qed.

Lemma run_two (a b : reactor_event) (rest : list reactor_event) (w w' : world) :
  run [a; b] w = Some (tt, w') -> run (a :: b :: rest) w = run rest w'.
Proof.
  cbn [run]. unfold mbind, M_bind, mret, M_ret.
  destruct (react a w) as [[[] w1]|]; [|done].
  destruct (react b w1) as [[[] w2]|]; [|done].
  by intros [= ->].
Qed.

Lemma react_peer_sends (p : list Z) (w : world) :
  react (Peer_sends p) w = Some (tt, set_rxq (rxq w ++ p) w).
Proof. done. Qed.

Section Frame.

Variables (hs : handlers) (w : world) (command : Z) (body : list Z).

Let L := ZEBRA_HEADER_SIZE + Z.of_nat (length body).

Hypothesis HL : L < 65536.
Hypothesis Hc : 0 <= command < 65536.

(** A piece that does not complete the frame. *)
Lemma feed_step (s : world) (X p tail : list Z) :
  waiting L X w s -> X ++ p ++ tail = frame command body -> tail <> [] ->
  exists s', run [Peer_sends p; read_event s hs] s = Some (tt, s')
             /\ waiting L (X ++ p) w s'.
Proof.
  intros [Ha Ht Hi Hq Hd Hs Hm Hal] HF Htail.
  cbn [run]. rewrite (bind_run _ _ _ _ _ (react_peer_sends p s)). rewrite Hq, app_nil_l.
  change (read_event s hs) with (read_event (set_rxq p s) hs).
  set (s1 := disarm_read (set_rxq p s)).
  destruct (disarm_read_fields (set_rxq p s)) as (Ei & Eq & Eb). fold s1 in Ei, Eq, Eb.
  cbn in Ei, Eq, Eb.
  pose proof (tokens_ok_disarm (set_rxq p s) Ht : tokens_ok s1) as Ht1.
  assert (react (read_event (set_rxq p s) hs) (set_rxq p s)
          = Some (tt, arm_read (set_rxq [] (with_ibuf (receiving L (X ++ p) (ibuf (zc s)))
                                              s1)))) as E.
  { rewrite react_read by done. fold s1.
    erewrite bind_eq.
    2:{ apply (zclient_read_partial hs s1 command body tail); fold L; try done.
        - congruence.
        - by rewrite Eb.
        - by rewrite Eb, Eq, Hd. }
    by rewrite Eb, Eq, Hd. }
  rewrite (bind_run _ _ _ _ _ E). eexists. split; [reflexivity|].
  split.
  - by apply read_armed_arm.
  - by apply tokens_ok_arm.
  - rewrite (proj1 (arm_read_fields _)). cbn. congruence.
  - by rewrite (proj1 (proj2 (arm_read_fields _))).
  - by rewrite (proj2 (proj2 (arm_read_fields _))).
  - rewrite (proj2 (proj2 (arm_read_fields _))). cbn.
    destruct (ZEBRA_HEADER_SIZE <=? _); lia.
  - rewrite (proj2 (proj2 (arm_read_fields _))). cbn.
    destruct (ZEBRA_HEADER_SIZE <=? _); lia.
  - intros s' q. unfold s1. rewrite disarm_arm. apply Hal.
Qed.

(** The piece that completes the frame. *)
Lemma feed_final (s : world) (X last : list Z) :
  waiting L X w s -> X ++ last = frame command body ->
  run [Peer_sends last; read_event s hs] s
  = (zclient_read_dispatch hs command (Z.of_nat (length body));; after_dispatch;; mret tt;;
     mret tt)
      (set_rxq [] (with_ibuf {| st_size := Z.max (st_size (ibuf (zc w))) L;
                                st_getp := ZEBRA_HEADER_SIZE;
                                st_data := frame command body |} (disarm_read w))).
Proof.
  intros [Ha Ht Hi Hq Hd Hs Hm Hal] HF.
  cbn [run]. rewrite (bind_run _ _ _ _ _ (react_peer_sends last s)). rewrite Hq, app_nil_l.
  change (read_event s hs) with (read_event (set_rxq last s) hs).
  set (s1 := disarm_read (set_rxq last s)).
  destruct (disarm_read_fields (set_rxq last s)) as (Ei & Eq & Eb). fold s1 in Ei, Eq, Eb.
  cbn in Ei, Eq, Eb.
  erewrite bind_eq by (by apply react_read). fold s1.
  erewrite (bind_eq (zclient_read hs)).
  2:{ apply (zclient_read_complete hs s1 command body []); fold L; try done.
      - by rewrite Eb.
      - rewrite Eb, Hd. pose proof (f_equal length HF) as E.
        pose proof (frame_length command body). rewrite length_app in E. unfold L. lia.
      - by rewrite Eb, Eq, Hd, app_nil_r. }
  fold L. rewrite Eb, Hm.
  assert (set_rxq [] (with_ibuf {| st_size := Z.max (st_size (ibuf (zc w))) L;
                                   st_getp := ZEBRA_HEADER_SIZE;
                                   st_data := frame command body |} s1)
          = set_rxq [] (with_ibuf {| st_size := Z.max (st_size (ibuf (zc w))) L;
                                     st_getp := ZEBRA_HEADER_SIZE;
                                     st_data := frame command body |} (disarm_read w)))
    as ->.
  { rewrite <- Hal. unfold s1, disarm_read. cbn.
    destruct (zclient_nexus s); [|done]. by destruct (qf (zc s)). }
  unfold mbind, M_bind.
  destruct (zclient_read_dispatch hs command _ _) as [[[] w1]|]; [|done].
  by destruct (after_dispatch w1) as [[r w2]|].
Qed.

End Frame.

End Feeding.
Section ReadProperties.

Context `{zh : zebra_h}.

Lemma feed_pieces (hs : handlers) (w : world) (command : Z) (body last : list Z)
    (pieces : list (list Z)) (s : world) (X : list Z) :
  let L := ZEBRA_HEADER_SIZE + Z.of_nat (length body) in
  L < 65536 -> 0 <= command < 65536 ->
  waiting L X w s ->
  X ++ concat pieces ++ last = frame command body -> last <> [] ->
  run (feed (zclient_nexus w) hs (pieces ++ [last])) s
  = (zclient_read_dispatch hs command (Z.of_nat (length body));; after_dispatch;; mret tt;;
     mret tt)
      (set_rxq [] (with_ibuf {| st_size := Z.max (st_size (ibuf (zc w))) L;
                                st_getp := ZEBRA_HEADER_SIZE;
                                st_data := frame command body |} (disarm_read w))).
Proof.
  intros L HL Hc Hw HF Hlast. revert s X Hw HF.
  induction pieces as [|p ps IH]; intros s X Hw HF.
  - cbn [app feed concat] in *.
    rewrite <- (alike_nexus _ _ (waiting_alike _ _ _ _ Hw)).
    by apply (feed_final hs w command body HL Hc s X last).
  - cbn [app feed concat] in *.
    rewrite <- (alike_nexus _ _ (waiting_alike _ _ _ _ Hw)).
    destruct (feed_step hs w command body HL Hc s X p (concat ps ++ last) Hw)
      as (s' & E & Hw').
    + by rewrite <- app_assoc in HF.
    + by destruct (concat ps), last.
    + rewrite (run_two _ _ _ _ _ E).
      rewrite (alike_nexus _ _ (waiting_alike _ _ _ _ Hw)).
      apply (IH s' (X ++ p) Hw'). by rewrite <- !app_assoc in *.
Qed.

(** X8.  A frame that reaches the client in pieces, with a read after each,
    leaves the client as the frame in one piece does: the bytes of an
    incomplete frame are kept, and the frame is dispatched, once, when its
    last byte is there.  This holds for any handlers and on both back-ends. *)
Theorem frame_in_pieces (hs : handlers) (w : world) (command : Z) (body last : list Z)
    (pieces : list (list Z)) :
  ZEBRA_HEADER_SIZE + Z.of_nat (length body) < 65536 -> 0 <= command < 65536 ->
  tokens_ok w -> read_armed w -> rx_idle w = -2 -> rxq w = [] ->
  ZEBRA_HEADER_SIZE <= st_size (ibuf (zc w)) ->
  st_data (ibuf (zc w)) ++ concat pieces ++ last = frame command body -> last <> [] ->
  run (feed (zclient_nexus w) hs (pieces ++ [last])) w
  = run (feed (zclient_nexus w) hs [concat pieces ++ last]) w.
Proof.
  intros HL Hc Hok Harm Hidle Hq Hsize HF Hlast.
  assert (waiting (ZEBRA_HEADER_SIZE + Z.of_nat (length body))
            (st_data (ibuf (zc w))) w w) as Hw by (by split).
  rewrite (feed_pieces hs w command body last pieces w _ HL Hc Hw HF Hlast).
  symmetry.
  apply (feed_pieces hs w command body (concat pieces ++ last) [] w _ HL Hc Hw).
  - done.
  - by destruct (concat pieces), last.
Qed.

(** X9.  A read that does not complete the frame is no error:
    [zclient_read] answers 0, moves every byte that waits in the socket into
    the input stream, behind those it has, calls no handler, and waits for
    the socket again. *)
Theorem short_read_keeps_bytes (hs : handlers) (w : world) (command : Z)
    (body tail : list Z) :
  ZEBRA_HEADER_SIZE + Z.of_nat (length body) < 65536 -> 0 <= command < 65536 ->
  tokens_ok w -> rx_idle w = -2 ->
  ZEBRA_HEADER_SIZE <= st_size (ibuf (zc w)) ->
  st_data (ibuf (zc w)) ++ rxq w ++ tail = frame command body -> tail <> [] ->
  exists w', zclient_read hs w = Some (0, w')
    /\ st_data (ibuf (zc w')) = st_data (ibuf (zc w)) ++ rxq w
    /\ rxq w' = []
    /\ trace w' = trace w
    /\ sock (zc w') = sock (zc w) /\ fail (zc w') = fail (zc w)
    /\ read_armed w'.
Proof.
  intros HL Hc Hok Hidle Hsize HF Htail.
  rewrite (zclient_read_partial hs w command body tail) by done.
  eexists. split; [reflexivity|].
  split_and!; try (by apply read_armed_arm);
    unfold arm_read; cbn; destruct (zclient_nexus w); try done;
    destruct (qf (zc w)); done.
Qed.

Lemma after_dispatch_run (w : world) :
  tokens_ok w ->
  after_dispatch w
  = if sock (zc w) <? 0 then Some (-1, w)
    else Some (0, arm_read (with_ibuf (stream_reset (ibuf (zc w))) w)).
Proof.
  intros Hok. unfold after_dispatch.
  rewrite (bind_run get_zc _ _ _ _ eq_refl).
  destruct (sock (zc w) <? 0); [done|].
  rewrite (bind_run _ _ _ _ _ (eq_refl : modify_zc _ w = Some (tt, _))).
  erewrite bind_eq by (by apply zclient_event_read). done.
Qed.

(** X10.  A complete frame whose command has a handler: [zclient_read]
    takes the bytes of the frame, and no more, from the socket and calls the
    handler once, with the command and the length of the body, on the input
    stream that holds the frame with its read cursor at the body.  When the
    handler leaves the client without a socket the answer is -1 and the
    client stays as the handler left it; otherwise the input stream is
    emptied and the client waits for the socket again. *)
Theorem frame_handled (hs : handlers) (w w2 : world) (command r : Z) (body more : list Z)
    (f : handler) :
  let L := ZEBRA_HEADER_SIZE + Z.of_nat (length body) in
  L < 65536 -> 0 <= command < 65536 ->
  ZEBRA_HEADER_SIZE <= st_size (ibuf (zc w)) ->
  Z.of_nat (length (st_data (ibuf (zc w)))) <= L ->
  st_data (ibuf (zc w)) ++ rxq w = frame command body ++ more ->
  handler_for hs command = Some f ->
  f command (Z.of_nat (length body))
    (set_trace (trace w ++ [IoHandler command (Z.of_nat (length body))])
       (set_rxq more
          (with_ibuf {| st_size := Z.max (st_size (ibuf (zc w))) L;
                        st_getp := ZEBRA_HEADER_SIZE;
                        st_data := frame command body |} w)))
  = Some (r, w2) ->
  tokens_ok w2 ->
  zclient_read hs w
  = if sock (zc w2) <? 0 then Some (-1, w2)
    else Some (0, arm_read (with_ibuf (stream_reset (ibuf (zc w2))) w2)).
Proof.
  intros L HL Hc Hsize Hle HF Hh Hf Hok.
  rewrite (zclient_read_complete hs w command body more) by done.
  rewrite zclient_read_dispatch_handler, Hh. unfold call_handler.
  rewrite !bind_assoc_M.
  rewrite (bind_run _ _ _ _ _ (eq_refl : emit _ _ = Some (tt, _))).
  rewrite bind_assoc_M. fold L. erewrite bind_run by exact Hf.
  rewrite bind_ret_M. by apply after_dispatch_run.
Qed.

(** X11.  A complete frame whose command has no handler, or is not known at
    all, is dropped: [zclient_read] takes its bytes from the socket, does
    nothing to the outside, empties the input stream and waits for the
    socket again.  A frame longer than the input stream makes the stream
    grow to the length of the frame, and it stays so. *)
Theorem frame_dropped (hs : handlers) (w : world) (command : Z) (body more : list Z) :
  let L := ZEBRA_HEADER_SIZE + Z.of_nat (length body) in
  L < 65536 -> 0 <= command < 65536 ->
  tokens_ok w -> 0 <= sock (zc w) ->
  ZEBRA_HEADER_SIZE <= st_size (ibuf (zc w)) ->
  Z.of_nat (length (st_data (ibuf (zc w)))) <= L ->
  st_data (ibuf (zc w)) ++ rxq w = frame command body ++ more ->
  handler_for hs command = None ->
  exists w', zclient_read hs w = Some (0, w')
    /\ ibuf (zc w') = stream_new (Z.max (st_size (ibuf (zc w))) L)
    /\ rxq w' = more
    /\ trace w' = trace w
    /\ sock (zc w') = sock (zc w) /\ fail (zc w') = fail (zc w)
    /\ read_armed w'.
Proof.
  intros L HL Hc Hok Hs Hsize Hle HF Hh.
  rewrite (zclient_read_complete hs w command body more) by done.
  rewrite zclient_read_dispatch_handler, Hh. unfold call_handler.
  rewrite bind_ret_M, after_dispatch_run by done.
  cbn [sock zc set_rxq with_ibuf set_zc set_ibuf].
  destruct (Z.ltb_spec (sock (zc w)) 0); [lia|].
  eexists. split; [reflexivity|].
  split_and!; try (by apply read_armed_arm);
    unfold arm_read; cbn; destruct (zclient_nexus w); try done;
    destruct (qf (zc w)); done.
Qed.


End ReadProperties.
(** ** The life cycle of the client *)

Lemma filter_none {A : Type} (P : A -> Prop) `{forall x, Decision (P x)} (l : list A) :
  (forall x, x ∈ l -> ~ P x) -> filter P l = [].
Proof.
  induction l as [|a l IH]; intros Hl; [done|].
  rewrite filter_cons. case_decide as Ha.
  - exfalso. apply (Hl a); [left|done].
  - apply IH. intros x Hx. apply Hl. by right.
Qed.

Section LifeCycle.

Context `{zh : zebra_h}.

Lemma zclient_stop_run (w : world) : zclient_stop w = Some (tt, stopped w).
Proof.
  destruct w as [n c kc nc kw nw rq ri tr].
  destruct c as [so en fa rd re di ib ob wbuf tr0 tw tc qf0 qt].
  unfold zclient_stop, stopped. munfold. cbn.
  destruct qf0 as [f|], qt as [t|]; cbn; destruct (so >=? 0); cbn;
    rewrite ?app_nil_r; reflexivity.
Qed.

Lemma stopped_stopped (w : world) : stopped (stopped w) = stopped w.
Proof.
  destruct w as [n c kc nc kw nw rq ri tr].
  destruct c as [so en fa rd re di ib ob wbuf tr0 tw tc qf0 qt].
  unfold stopped. cbn.
  destruct (Z.geb_spec so 0) as [Hs|Hs]; cbn.
  - rewrite app_nil_r. by destruct qf0, qt.
  - destruct (Z.geb_spec so 0); [lia|]. cbn.
    rewrite app_nil_r. by destruct qf0, qt.
Qed.

(** X13.  Stopping a client twice is stopping it once: the second
    [zclient_stop] changes nothing and closes nothing.  A stop closes the
    socket, if there is one, and nothing else reaches the outside; the count
    of failures and the subscriptions are left alone. *)
Theorem zclient_stop_idempotent (w : world) :
  exists w1, zclient_stop w = Some (tt, w1)
    /\ zclient_stop w1 = Some (tt, w1)
    /\ trace w1 = trace w ++ (if sock (zc w) >=? 0 then [IoClose (sock (zc w))] else [])
    /\ sock (zc w1) < 0
    /\ fail (zc w1) = fail (zc w) /\ enable (zc w1) = enable (zc w)
    /\ redist (zc w1) = redist (zc w) /\ redist_default (zc w1) = redist_default (zc w)
    /\ default_information (zc w1) = default_information (zc w).
Proof.
  exists (stopped w). rewrite !zclient_stop_run, stopped_stopped.
  split_and!; try done. cbn. destruct (Z.geb_spec (sock (zc w)) 0); lia.
Qed.

Lemma zclient_event_schedule (w : world) :
  tokens_ok w -> zclient_event ZCLIENT_SCHEDULE w = Some (tt, schedule_connect w).
Proof.
  intros Hok.
  unfold zclient_event, zclient_event_r, zclient_event_t, tokens_ok, schedule_connect in *.
  munfold. destruct (zclient_nexus w) eqn:En.
  - destruct (Hok eq_refl) as [_ [t Et]]. rewrite Et.
    by destruct (qtimer_is_active (Some t)).
  - by destruct (bool_decide (is_Some (t_connect (zc w)))).
Qed.

Lemma zclient_init_run (redist_default : Z) (w : world) :
  tokens_ok w -> 0 <= redist_default < ZEBRA_ROUTE_MAX ->
  zclient_init redist_default w = Some (tt, initialised redist_default w).
Proof.
  intros Hok Hrd. unfold zclient_init, initialised. munfold. cbn.
  unfold array_set. rewrite length_replicate.
  destruct (Z.leb_spec 0 redist_default); [|lia].
  destruct (Z.ltb_spec redist_default (Z.of_nat (Z.to_nat ZEBRA_ROUTE_MAX))); [|lia].
  cbn. by rewrite zclient_event_schedule.
Qed.

Lemma zclient_init_out_of_range (redist_default : Z) (w : world) :
  ~ 0 <= redist_default < ZEBRA_ROUTE_MAX -> zclient_init redist_default w = None.
Proof.
  intros Hrd. unfold zclient_init. munfold. cbn.
  unfold array_set. rewrite length_replicate.
  destruct (Z.leb_spec 0 redist_default); [|done].
  destruct (Z.ltb_spec redist_default (Z.of_nat (Z.to_nat ZEBRA_ROUTE_MAX))); [lia|done].
Qed.

(** X14.  [zclient_init] writes the flag of the own type without a check of
    its argument: it is defined for the route types of the table, and for no
    other value. *)
Theorem zclient_init_defined_iff (redist_default : Z) (w : world) :
  tokens_ok w ->
  is_Some (zclient_init redist_default w) <-> 0 <= redist_default < ZEBRA_ROUTE_MAX.
Proof.
  intros Hok. split.
  - intros Hs. destruct (decide (0 <= redist_default < ZEBRA_ROUTE_MAX)) as [|Hn]; [done|].
    rewrite zclient_init_out_of_range in Hs by done. by destruct Hs.
  - intros Hrd. rewrite zclient_init_run by done. eauto.
Qed.

Lemma zclient_init_closes_nothing_run (redist_default : Z) (w w' : world) :
  zclient_init redist_default w = Some (tt, w') ->
  sock (zc w') = -1 /\ trace w' = trace w.
Proof.
  destruct w as [n c kc nc kw nw rq ri tr].
  destruct c as [so en fa rd re di ib ob wbuf tr0 tw tc qf0 qt].
  unfold zclient_init, zclient_event, zclient_event_r, zclient_event_t. munfold. cbn.
  destruct (array_set _ _ _) as [a|]; [|done]. cbn.
  destruct n.
  - destruct qt as [[[[secs act]|]]|]; cbn; intros E; simplify_eq; done.
  - destruct tc as [t|]; cbn; intros E; simplify_eq; done.
Qed.

(** X15.  [zclient_init] takes the client for a stopped one.  On a client
    with an open socket it forgets the descriptor and closes nothing; the
    read and the write token stay armed, the streams and the write buffer
    keep their bytes, and a connect that is pending is not scheduled anew. *)
Theorem zclient_init_closes_nothing (redist_default : Z) (w w' : world) :
  zclient_init redist_default w = Some (tt, w') ->
  sock (zc w') = -1 /\ trace w' = trace w
  /\ t_read (zc w') = t_read (zc w) /\ t_write (zc w') = t_write (zc w)
  /\ qf (zc w') = qf (zc w)
  /\ ibuf (zc w') = ibuf (zc w) /\ obuf (zc w') = obuf (zc w) /\ wb (zc w') = wb (zc w)
  /\ (is_Some (t_connect (zc w)) -> t_connect (zc w') = t_connect (zc w))
  /\ (qtimer_is_active (qtr (zc w)) = true -> qtr (zc w') = qtr (zc w)).
Proof.
  destruct w as [n c kc nc kw nw rq ri tr].
  destruct c as [so en fa rd re di ib ob wbuf tr0 tw tc qf0 qt].
  unfold zclient_init, zclient_event, zclient_event_r, zclient_event_t. munfold. cbn.
  destruct (array_set _ _ _) as [a|]; [|done]. cbn.
  destruct n.
  - destruct qt as [[[[secs act]|]]|]; cbn;
      intros E; simplify_eq; cbn; split_and!; done.
  - destruct tc as [t|]; cbn.
    + intros E; simplify_eq; cbn; split_and!; done.
    + intros E; simplify_eq; cbn; split_and!; done.
Qed.

(** X16.  [zclient_reset] drops every subscription but the own type, and the
    default-information flag with them: the client that comes out is
    enabled, has no socket and no failure counted, has a connect scheduled
    at once, and its next handshake asks for no redistribution. *)
Theorem zclient_reset_forgets (w : world) :
  tokens_ok w -> 0 <= redist_default (zc w) < ZEBRA_ROUTE_MAX ->
  exists w', zclient_reset w = Some (tt, w')
    /\ redist_default (zc w') = redist_default (zc w)
    /\ (forall t, 0 <= t < ZEBRA_ROUTE_MAX ->
          array_get (redist (zc w')) t
          = Some (if t =? redist_default (zc w) then 1 else 0))
    /\ default_information (zc w') = 0
    /\ enable (zc w') = 1 /\ sock (zc w') = -1 /\ fail (zc w') = 0
    /\ handshake (zc w')
       = (if truthy (redist_default (zc w))
          then [type_frame ZEBRA_HELLO (redist_default (zc w))] else [])
         ++ [message_frame ZEBRA_ROUTER_ID_ADD; message_frame ZEBRA_INTERFACE_ADD]
    /\ (if zclient_nexus w
        then qtr (zc w') = Some (qtimer_set 0 A_zclient_connect_r)
        else t_connect (zc w') = Some (mk_thread THREAD_EVENT F_zclient_connect_t)).
Proof.
  intros Hok Hrd. unfold zclient_reset.
  erewrite bind_run by apply zclient_stop_run.
  rewrite (bind_run get_zc _ _ _ _ eq_refl).
  assert (tokens_ok (stopped w)) as Hok'.
  { unfold tokens_ok, stopped in *. cbn. intros Hn. destruct (Hok Hn) as [[f ->] [t ->]].
    cbn. eauto. }
  change (redist_default (zc (stopped w))) with (redist_default (zc w)).
  rewrite zclient_init_run by done.
  eexists. split; [reflexivity|].
  assert (forall t, 0 <= t < ZEBRA_ROUTE_MAX ->
     array_get (<[Z.to_nat (redist_default (zc w)) := 1]>
                  (replicate (Z.to_nat ZEBRA_ROUTE_MAX) 0)) t
     = Some (if t =? redist_default (zc w) then 1 else 0)) as Hget.
  { intros t Ht. unfold array_get. destruct (Z.ltb_spec t 0); [lia|].
    destruct (Z.eqb_spec t (redist_default (zc w))) as [->|Hne].
    - apply list_lookup_insert_eq. rewrite length_replicate. lia.
    - rewrite list_lookup_insert_ne by lia. apply lookup_replicate_2. lia. }
  assert (forall c : zclient,
    redist_default c = redist_default (zc w) ->
    redist c = <[Z.to_nat (redist_default (zc w)) := 1]>
                 (replicate (Z.to_nat ZEBRA_ROUTE_MAX) 0) ->
    default_information c = 0 ->
    handshake c
    = (if truthy (redist_default (zc w))
       then [type_frame ZEBRA_HELLO (redist_default (zc w))] else [])
      ++ [message_frame ZEBRA_ROUTER_ID_ADD; message_frame ZEBRA_INTERFACE_ADD]) as Hhs.
  { intros c Erd Er Edi. unfold handshake. rewrite Erd, Edi.
    change (truthy 0) with false. cbv iota. rewrite app_nil_r.
    assert (filter (fun t => redist_wanted c t = true) (seqZ 0 ZEBRA_ROUTE_MAX) = []) as ->.
    { apply filter_none. intros t Ht.
      apply elem_of_seqZ in Ht. unfold redist_wanted. rewrite Erd, Er, Hget by lia.
      destruct (Z.eqb_spec t (redist_default (zc w))); done. }
    done. }
  unfold initialised, schedule_connect. cbn.
  destruct (zclient_nexus w) eqn:En.
  - destruct (Hok En) as [_ [t Et]]. rewrite Et. cbn.
    split_and!; try done. by apply Hhs.
  - split_and!; try done. by apply Hhs.
Qed.

End LifeCycle.
(** ** Requests of the daemon *)

Section Requests.

Context `{zh : zebra_h}.

(** What becomes of a frame that is sent. *)
Lemma send_frame_outcome (f : list Z) (w : world) :
  tokens_ok w ->
  exists r w', send_frame f w = Some (r, w')
    /\ if sock (zc w) <? 0
       then r = -1 /\ trace w' = trace w
            /\ sock (zc w') = sock (zc w) /\ fail (zc w') = fail (zc w)
       else match k_write w (n_write w) with
            | Some _ =>
                r = 0 /\ sent w' = sent w ++ [f]
                /\ sock (zc w') = sock (zc w) /\ fail (zc w') = fail (zc w)
            | None =>
                r = -1 /\ sent w' = sent w
                /\ trace w' = trace w ++ [IoWrite (sock (zc w)) f BUFFER_ERROR;
                                          IoClose (sock (zc w))]
                /\ sock (zc w') = -1 /\ fail (zc w') = fail (zc w) + 1
                /\ connect_timer w' = retry_delay (fail (zc w) + 1)
            end.
Proof.
  intros Hok. destruct (Z.ltb_spec (sock (zc w)) 0) as [Hs|Hs].
  - destruct (send_frame_down f w Hs) as (w' & E & _ & [] & Htr & _). eauto 10.
  - destruct (k_write w (n_write w)) as [k|] eqn:Ek.
    + destruct (send_frame_ok f w k Hs Hok Ek) as (w' & st & E & _ & [] & Htr & Hne & _).
      exists 0, w'. split_and!; try done. by eapply sent_write.
    + destruct (send_frame_err f w Hs Hok Ek) as (w' & E & _ & ? & ? & Htr & _ & _ & ?).
      exists (-1), w'. split_and!; try done. by eapply sent_failed_write.
Qed.

(** X17.  The answer of the route encoders.  [zapi_ipv4_route] and
    [zapi_ipv6_route] answer 0 when the frame was handed to the socket, and
    only then.  On a client without a socket they answer -1 and do nothing
    to the outside: the route is not kept for later.  When the write fails
    they answer -1 and the client has failed: the socket is closed, the
    failure counted and the retry armed. *)
Theorem route_send_outcome (v6 : bool) (cmd : Z) (p : prefix) (api : zapi) (w : world) :
  let route := if v6 then zapi_ipv6_route else zapi_ipv4_route in
  let f := if v6 then ipv6_route_frame cmd p api else ipv4_route_frame cmd p api in
  route_args_ok (if v6 then 16 else 4) p api ->
  tokens_ok w ->
  Z.of_nat (length f) <= st_size (obuf (zc w)) ->
  exists r w', route cmd p api w = Some (r, w')
    /\ if sock (zc w) <? 0
       then r = -1 /\ trace w' = trace w
            /\ sock (zc w') = sock (zc w) /\ fail (zc w') = fail (zc w)
       else match k_write w (n_write w) with
            | Some _ =>
                r = 0 /\ sent w' = sent w ++ [f]
                /\ sock (zc w') = sock (zc w) /\ fail (zc w') = fail (zc w)
            | None =>
                r = -1 /\ sent w' = sent w
                /\ trace w' = trace w ++ [IoWrite (sock (zc w)) f BUFFER_ERROR;
                                          IoClose (sock (zc w))]
                /\ sock (zc w') = -1 /\ fail (zc w') = fail (zc w) + 1
                /\ connect_timer w' = retry_delay (fail (zc w) + 1)
            end.
Proof.
  intros route f Hargs Hok Hfit. subst route f. destruct v6.
  - rewrite zapi_ipv6_route_eq by done. by apply send_frame_outcome.
  - rewrite zapi_ipv4_route_eq by done. by apply send_frame_outcome.
Qed.

(** A request that changes the default-information flag. *)
Lemma zclient_redistribute_default_changes (command : Z) (w : world) :
  (if command =? ZEBRA_REDISTRIBUTE_DEFAULT_ADD
   then truthy (default_information (zc w))
   else negb (truthy (default_information (zc w)))) = false ->
  zclient_redistribute_default command w
  = (if sock (zc w) >? 0 then zebra_message_send command;; mret tt else mret tt)
      (set_zc (set_default_information
                 (if command =? ZEBRA_REDISTRIBUTE_DEFAULT_ADD then 1 else 0) (zc w)) w).
Proof.
  intros H. unfold zclient_redistribute_default. munfold. cbn. rewrite H.
  by destruct (sock (zc w) >? 0).
Qed.

(** A message sent for a request. *)
Lemma message_sent (command : Z) (w : world) :
  tokens_ok w -> 6 <= st_size (obuf (zc w)) ->
  exists w1, (zebra_message_send command;; mret tt) w = Some (tt, w1)
    /\ stable w w1
    /\ (sent w1 = sent w \/ sent w1 = sent w ++ [message_frame command])
    /\ (0 <= sock (zc w) -> k_write w (n_write w) <> None ->
        sent w1 = sent w ++ [message_frame command]).
Proof.
  intros Hok Hsize.
  destruct (send_frame_total (message_frame command) w Hok) as (r & w1 & E1 & Hst).
  destruct (send_frame_outcome (message_frame command) w Hok) as (r' & w1' & E1' & Hout).
  rewrite E1 in E1'. injection E1' as <- <-.
  exists w1. split.
  { erewrite bind_eq by (rewrite zebra_message_send_eq by done; exact E1). done. }
  split; [done|].
  destruct (Z.ltb_spec (sock (zc w)) 0).
  - split; [left; apply sent_same; by destruct Hout as (_ & ? & _) | lia].
  - destruct (k_write w (n_write w)).
    + destruct Hout as (_ & ? & _). eauto.
    + destruct Hout as (_ & ? & _). split; [eauto | done].
Qed.

(** X18.  [zclient_redistribute_default] keeps its flag and tells the server
    of a change.  A second ADD changes and sends nothing.  Any command but
    ADD is taken for a deletion: on a flag that is clear it does nothing,
    and on a flag that is set it clears the flag and, on a client with a
    positive descriptor whose socket takes the write, sends a message with
    the very command it was given. *)
Theorem redistribute_default_requests (w : world) :
  tokens_ok w ->
  6 <= st_size (obuf (zc w)) ->
  (exists w1,
     zclient_redistribute_default ZEBRA_REDISTRIBUTE_DEFAULT_ADD w = Some (tt, w1)
     /\ zclient_redistribute_default ZEBRA_REDISTRIBUTE_DEFAULT_ADD w1 = Some (tt, w1)
     /\ (sent w1 = sent w
         \/ sent w1 = sent w ++ [message_frame ZEBRA_REDISTRIBUTE_DEFAULT_ADD]))
  /\ (forall command, command <> ZEBRA_REDISTRIBUTE_DEFAULT_ADD ->
        if truthy (default_information (zc w))
        then exists w1, zclient_redistribute_default command w = Some (tt, w1)
               /\ default_information (zc w1) = 0
               /\ (0 < sock (zc w) -> k_write w (n_write w) <> None ->
                   sent w1 = sent w ++ [message_frame command])
        else zclient_redistribute_default command w = Some (tt, w)).
Proof.
  intros Hok Hsize. split.
  - destruct (truthy (default_information (zc w))) eqn:Etr.
    { assert (zclient_redistribute_default ZEBRA_REDISTRIBUTE_DEFAULT_ADD w = Some (tt, w))
        as E.
      { unfold zclient_redistribute_default. munfold. cbn. by rewrite Z.eqb_refl, Etr. }
      exists w. eauto. }
    rewrite zclient_redistribute_default_changes by (by rewrite Z.eqb_refl).
    rewrite Z.eqb_refl.
    set (w0 := set_zc (set_default_information 1 (zc w)) w).
    assert (forall w1, stable w0 w1 ->
      zclient_redistribute_default ZEBRA_REDISTRIBUTE_DEFAULT_ADD w1 = Some (tt, w1))
      as Hagain.
    { intros w1 Hst. unfold zclient_redistribute_default. munfold. cbn.
      rewrite (stable_default_information _ _ Hst). cbn. by rewrite Z.eqb_refl. }
    destruct (sock (zc w) >? 0).
    + destruct (message_sent ZEBRA_REDISTRIBUTE_DEFAULT_ADD w0 Hok Hsize)
        as (w1 & E & Hst & Hs & _).
      exists w1. split_and!; eauto.
    + exists w0. split_and!; eauto. by apply Hagain.
  - intros command Hc.
    destruct (truthy (default_information (zc w))) eqn:Etr.
    + rewrite zclient_redistribute_default_changes
        by (destruct (Z.eqb_spec command ZEBRA_REDISTRIBUTE_DEFAULT_ADD); [done|];
            by rewrite Etr).
      destruct (Z.eqb_spec command ZEBRA_REDISTRIBUTE_DEFAULT_ADD); [done|].
      set (w0 := set_zc (set_default_information 0 (zc w)) w).
      destruct (Z.gtb_spec (sock (zc w)) 0) as [Hpos|Hneg].
      * destruct (message_sent command w0 Hok Hsize) as (w1 & E & Hst & _ & Hs).
        exists w1. split_and!; eauto.
        -- by rewrite (stable_default_information _ _ Hst).
        -- intros _ Hk. apply Hs; [cbn; lia | done].
      * exists w0. split_and!; eauto. lia.
    + unfold zclient_redistribute_default. munfold. cbn.
      destruct (Z.eqb_spec command ZEBRA_REDISTRIBUTE_DEFAULT_ADD); [done|].
      by rewrite Etr.
Qed.

(** X19.  A subscription that is made and given up again: on a connected
    client whose socket takes both writes, [zclient_redistribute] with ADD
    and then with DELETE for a type that was not subscribed leaves the table
    of subscriptions as it was, and has sent the two messages, in that
    order. *)
Theorem subscribe_then_unsubscribe (w : world) (t : Z) :
  tokens_ok w ->
  7 <= st_size (obuf (zc w)) ->
  array_get (redist (zc w)) t = Some 0 ->
  0 < sock (zc w) ->
  k_write w (n_write w) <> None -> k_write w (S (n_write w)) <> None ->
  ZEBRA_REDISTRIBUTE_DELETE <> ZEBRA_REDISTRIBUTE_ADD ->
  exists w1 w2,
    zclient_redistribute ZEBRA_REDISTRIBUTE_ADD t w = Some (tt, w1)
    /\ zclient_redistribute ZEBRA_REDISTRIBUTE_DELETE t w1 = Some (tt, w2)
    /\ redist (zc w2) = redist (zc w)
    /\ sent w2 = sent w ++ [type_frame ZEBRA_REDISTRIBUTE_ADD t;
                            type_frame ZEBRA_REDISTRIBUTE_DELETE t].
Proof.
  intros Hok Hsize Hr Hs Hk0 Hk1 Hne.
  destruct (k_write w (n_write w)) as [k0|] eqn:Ek0; [|done].
  destruct (k_write w (S (n_write w))) as [k1|] eqn:Ek1; [|done].
  destruct (zclient_redistribute_changes ZEBRA_REDISTRIBUTE_ADD t 0 w Hr)
    as (a & Hset & Ha & E).
  { by rewrite Z.eqb_refl. }
  rewrite Z.eqb_refl in Hset, Ha.
  destruct (Z.gtb_spec (sock (zc w)) 0); [|lia].
  set (w0 := set_zc (set_redist a (zc w)) w) in *.
  destruct (send_frame_ok (type_frame ZEBRA_REDISTRIBUTE_ADD t) w0 k0)
    as (w1 & st & E1 & Hst & Hcalm & Htr & Hstne & Hnw); try done; [cbn; lia|].
  assert (zclient_redistribute ZEBRA_REDISTRIBUTE_ADD t w = Some (tt, w1)) as Eadd.
  { rewrite E. erewrite bind_eq by (rewrite zebra_redistribute_send_eq by done; exact E1).
    done. }
  assert (tokens_ok w1) as Hok1 by (by eapply stable_tokens_ok).
  assert (array_get (redist (zc w1)) t = Some 1) as Hr1.
  { by rewrite (stable_redist _ _ Hst). }
  destruct (zclient_redistribute_changes ZEBRA_REDISTRIBUTE_DELETE t 1 w1 Hr1)
    as (a' & Hset' & Ha' & E').
  { by destruct (Z.eqb_spec ZEBRA_REDISTRIBUTE_DELETE ZEBRA_REDISTRIBUTE_ADD). }
  destruct (Z.eqb_spec ZEBRA_REDISTRIBUTE_DELETE ZEBRA_REDISTRIBUTE_ADD); [done|].
  rewrite (calm_sock _ _ Hcalm) in E'. cbn [sock zc set_zc w0 set_redist] in E'.
  destruct (Z.gtb_spec (sock (zc w)) 0); [|lia].
  set (w1' := set_zc (set_redist a' (zc w1)) w1) in *.
  destruct (send_frame_ok (type_frame ZEBRA_REDISTRIBUTE_DELETE t) w1' k1)
    as (w2 & st' & E2 & Hst' & Hcalm' & Htr' & Hstne' & Hnw'); try done.
  { cbn. rewrite (calm_sock _ _ Hcalm). cbn. lia. }
  { cbn. by rewrite (stable_k_write _ _ Hst), Hnw. }
  assert (zclient_redistribute ZEBRA_REDISTRIBUTE_DELETE t w1 = Some (tt, w2)) as Edel.
  { rewrite E'. erewrite bind_eq.
    2:{ rewrite zebra_redistribute_send_eq; [exact E2|].
        cbn. by rewrite (stable_obuf_size _ _ Hst). }
    done. }
  exists w1, w2. split_and!; try done.
  - rewrite (stable_redist _ _ Hst'). cbn.
    unfold array_set in Hset, Hset'.
    destruct (_ && _) in Hset; [|done]. destruct (_ && _) in Hset'; [|done].
    injection Hset as <-. injection Hset' as <-.
    rewrite (stable_redist _ _ Hst). cbn.
    rewrite list_insert_insert_eq. apply list_insert_id.
    unfold array_get in Hr. by destruct (t <? 0).
  - rewrite (sent_write _ _ _ _ _ Htr' Hstne').
    change (sent w1') with (sent w1).
    rewrite (sent_write _ _ _ _ _ Htr Hstne). change (sent w0) with (sent w).
    by rewrite <- app_assoc.
Qed.

(** X20.  The lookup connection only connects.  [zlookup_connect_t] and
    [zlookup_connect_r] try one connect when the client has no socket and
    leave a client that has one alone; they send no message, do not wait for
    the socket to be readable, count no failure and schedule no retry.  The
    thread version answers 0 when the client has a socket in the end and -1
    otherwise. *)
Theorem lookup_connect_only_connects (w : world) :
  (exists r w', zlookup_connect_t w = Some (r, w')
     /\ r = (if sock (zc w') >=? 0 then 0 else -1)
     /\ sock (zc w') = (if sock (zc w) <? 0 then k_connect w (n_connect w)
                         else sock (zc w))
     /\ n_connect w' = (if sock (zc w) <? 0 then S (n_connect w) else n_connect w)
     /\ sent w' = sent w /\ fail (zc w') = fail (zc w)
     /\ t_read (zc w') = t_read (zc w) /\ qf (zc w') = qf (zc w)
     /\ t_connect (zc w') = None /\ qtr (zc w') = qtr (zc w))
  /\ (exists w', zlookup_connect_r w = Some (tt, w')
     /\ sock (zc w') = (if sock (zc w) <? 0 then k_connect w (n_connect w)
                         else sock (zc w))
     /\ n_connect w' = (if sock (zc w) <? 0 then S (n_connect w) else n_connect w)
     /\ sent w' = sent w /\ fail (zc w') = fail (zc w)
     /\ t_read (zc w') = t_read (zc w) /\ qf (zc w') = qf (zc w)
     /\ t_connect (zc w') = t_connect (zc w) /\ qtr (zc w') = Some qtimer_unset).
Proof.
  unfold zlookup_connect_t, zlookup_connect_r, zclient_socket_connect, sent. munfold. cbn.
  destruct (sock (zc w) <? 0); cbn.
  - split; repeat eexists; cbn; rewrite ?frames_of_app, ?app_nil_r; done.
  - split; repeat eexists; cbn; done.
Qed.

End Requests.
(** ** The frames of the route encoders *)

Lemma length_concat_fmap {A : Type} (f : A -> list Z) (k : nat) (l : list A) :
  Forall (fun x => length (f x) = k) l -> length (concat (f <$> l)) = (k * length l)%nat.
Proof.
  induction 1 as [|x l Hx _ IH]; [cbn; lia|].
  cbn. rewrite length_app, IH, Hx. lia.
Qed.

Section RouteFrames.

Context `{zh : zebra_h}.

Lemma length_route_front (cmd : Z) (p : prefix) (api : zapi) :
  0 <= PSIZE (prefixlen p) <= Z.of_nat (length (prefix_bytes p)) ->
  Z.of_nat (length (route_front cmd p api)) = 10 + PSIZE (prefixlen p).
Proof.
  intros H. unfold route_front. rewrite !length_app, length_take. cbn [length be16]. lia.
Qed.

Lemma length_route_back (api : zapi) :
  Z.of_nat (length (route_back api))
  = (if truthy (CHECK_FLAG (message api) ZAPI_MESSAGE_DISTANCE) then 1 else 0)
    + (if truthy (CHECK_FLAG (message api) ZAPI_MESSAGE_METRIC) then 4 else 0).
Proof.
  unfold route_back. rewrite length_app.
  by destruct (truthy (CHECK_FLAG _ ZAPI_MESSAGE_DISTANCE)),
    (truthy (CHECK_FLAG _ ZAPI_MESSAGE_METRIC)).
Qed.

Lemma length_entries_ifindex (l : list Z) :
  Z.of_nat (length (concat (entry_ifindex <$> l))) = 5 * Z.of_nat (length l).
Proof.
  rewrite (length_concat_fmap _ 5); [lia|]. by apply list.Forall_forall.
Qed.

Lemma length_entries_ipv4 (l : list (list Z)) :
  Forall (fun addr => (4 <= length addr)%nat) l ->
  Z.of_nat (length (concat (entry_ipv4 <$> l))) = 5 * Z.of_nat (length l).
Proof.
  intros H. rewrite (length_concat_fmap _ 5); [lia|].
  eapply list.Forall_impl; [exact H|]. intros addr Ha. cbn in *. rewrite length_take. lia.
Qed.

Lemma length_entries_ipv6 (l : list (list Z)) :
  Forall (fun addr => (16 <= length addr)%nat) l ->
  Z.of_nat (length (concat (entry_ipv6 <$> l))) = 17 * Z.of_nat (length l).
Proof.
  intros H. rewrite (length_concat_fmap _ 17); [lia|].
  eapply list.Forall_impl; [exact H|]. intros addr Ha. cbn in *. rewrite length_take. lia.
Qed.

(** X21.  The length of a route message.  Behind the twelve bytes of the
    header and of the fixed fields come the bytes of the prefix, the nexthop
    section if the message has one, a byte of distance and four bytes of
    metric if it has them.  The nexthop section of [zapi_ipv6_route] is a
    count, 17 bytes for each nexthop and 5 for each interface index,
    whatever the flags of the route: it knows no blackhole.  That of
    [zapi_ipv4_route] takes 5 bytes for each nexthop, and one byte more for
    a blackhole. *)
Theorem route_frame_length (v6 : bool) (cmd : Z) (p : prefix) (api : zapi) (s s' : stream) :
  (if v6 then zapi_ipv6_route_obuf cmd p api s else zapi_ipv4_route_obuf cmd p api s)
  = Some s' ->
  route_args_ok (if v6 then 16 else 4) p api ->
  stream_get_endp s'
  = 12 + PSIZE (prefixlen p)
    + (if truthy (CHECK_FLAG (message api) ZAPI_MESSAGE_NEXTHOP)
       then (if negb v6 && truthy (CHECK_FLAG (flags api) ZEBRA_FLAG_BLACKHOLE)
             then 2 else 1)
            + (if v6 then 17 else 5) * nexthop_num api + 5 * ifindex_num api
       else 0)
    + (if truthy (CHECK_FLAG (message api) ZAPI_MESSAGE_DISTANCE) then 1 else 0)
    + (if truthy (CHECK_FLAG (message api) ZAPI_MESSAGE_METRIC) then 4 else 0).
Proof.
  intros Henc Hargs. pose proof Hargs as [Hp Hn].
  unfold stream_get_endp, nexthop_num, ifindex_num.
  destruct v6.
  - rewrite zapi_ipv6_route_obuf_eq in Henc by done.
    destruct (_ <=? _) in Henc; [|done]. injection Henc as <-. cbn [st_data holding].
    unfold ipv6_route_frame, framed, nexthops_ipv6.
    rewrite !length_app, !Nat2Z.inj_add, length_route_front, length_route_back by done.
    cbn [length be16 negb andb].
    destruct (truthy (CHECK_FLAG (message api) ZAPI_MESSAGE_NEXTHOP)).
    + rewrite !length_app, !Nat2Z.inj_add, length_entries_ipv6, length_entries_ifindex
        by done.
      cbn [length]. lia.
    + cbn [length]. lia.
  - rewrite zapi_ipv4_route_obuf_eq in Henc by done.
    destruct (_ <=? _) in Henc; [|done]. injection Henc as <-. cbn [st_data holding].
    unfold ipv4_route_frame, framed, nexthops_ipv4.
    rewrite !length_app, !Nat2Z.inj_add, length_route_front, length_route_back by done.
    cbn [length be16 negb andb].
    destruct (truthy (CHECK_FLAG (message api) ZAPI_MESSAGE_NEXTHOP)).
    + rewrite !length_app, !Nat2Z.inj_add, length_entries_ipv4, length_entries_ifindex
        by done.
      destruct (truthy (CHECK_FLAG (flags api) ZEBRA_FLAG_BLACKHOLE));
        cbn [length entry_blackhole]; lia.
    + cbn [length]. lia.
Qed.

Lemma route_frame_is_frame (cmd : Z) (p : prefix) (api : zapi) (nexthops : list Z) :
  framed (route_front cmd p api ++ nexthops ++ route_back api)
  = frame cmd (drop 4 (route_front cmd p api) ++ nexthops ++ route_back api).
Proof. unfold frame, route_front. by rewrite <- !app_assoc. Qed.

(** X22.  What the route encoders write, [zclient_read] reads back.  The
    bytes that [zapi_ipv4_route] or [zapi_ipv6_route] put into the output
    stream are to a client that finds them in its socket one complete frame:
    it takes them, and no byte more, and dispatches the command of the route
    with the length of the stream less the header. *)
Theorem route_frame_read_back (v6 : bool) (hs : handlers) (w : world) (cmd : Z)
    (p : prefix) (api : zapi) (s s' : stream) (more : list Z) :
  (if v6 then zapi_ipv6_route_obuf cmd p api s else zapi_ipv4_route_obuf cmd p api s)
  = Some s' ->
  route_args_ok (if v6 then 16 else 4) p api ->
  0 <= cmd < 65536 -> st_size s < 65536 ->
  ZEBRA_HEADER_SIZE <= st_size (ibuf (zc w)) ->
  st_data (ibuf (zc w)) = [] -> rxq w = st_data s' ++ more ->
  zclient_read hs w
  = (zclient_read_dispatch hs cmd (stream_get_endp s' - ZEBRA_HEADER_SIZE);;
     after_dispatch)
      (set_rxq more
         (with_ibuf {| st_size := Z.max (st_size (ibuf (zc w))) (stream_get_endp s');
                       st_getp := ZEBRA_HEADER_SIZE;
                       st_data := st_data s' |} w)).
Proof.
  intros Henc Hargs Hcmd Hsize Hib Hd Hq.
  assert (exists body, st_data s' = frame cmd body
                       /\ Z.of_nat (length (st_data s')) <= st_size s) as (body & Hf & Hlen).
  { destruct v6.
    - rewrite zapi_ipv6_route_obuf_eq in Henc by done.
      destruct (Z.leb_spec (Z.of_nat (length (ipv6_route_frame cmd p api))) (st_size s));
        [|done].
      injection Henc as <-. eexists. split; [apply route_frame_is_frame|done].
    - rewrite zapi_ipv4_route_obuf_eq in Henc by done.
      destruct (Z.leb_spec (Z.of_nat (length (ipv4_route_frame cmd p api))) (st_size s));
        [|done].
      injection Henc as <-. eexists. split; [apply route_frame_is_frame|done]. }
  pose proof (frame_length cmd body) as HL. rewrite <- Hf in HL.
  unfold stream_get_endp. rewrite HL.
  replace (ZEBRA_HEADER_SIZE + Z.of_nat (length body) - ZEBRA_HEADER_SIZE)
    with (Z.of_nat (length body)) by lia.
  rewrite Hf.
  apply (zclient_read_complete hs w cmd body more); try done.
  - lia.
  - rewrite Hd. cbn. unfold ZEBRA_HEADER_SIZE. lia.
  - by rewrite Hd, Hq, Hf.
Qed.

End RouteFrames.
(** ** Invariants of the client *)

Lemma unchanged_ret {B A : Type} (obs : world -> B) (a : A) : unchanged obs (mret a).
Proof. by intros w a' w' [= <- <-]. Qed.

Lemma unchanged_bind {B A C : Type} (obs : world -> B) (m : M A) (k : A -> M C) :
  unchanged obs m -> (forall a, unchanged obs (k a)) -> unchanged obs (m ≫= k).
Proof.
  intros Hm Hk w b w'. unfold mbind, M_bind.
  destruct (m w) as [[a w1]|] eqn:E; [|done].
  intros Hb. rewrite (Hk a _ _ _ Hb). by apply (Hm _ _ _ E).
Qed.

Lemma unchanged_get_zc {B : Type} (obs : world -> B) : unchanged obs get_zc.
Proof. by intros w a w' [= <- <-]. Qed.

Lemma unchanged_get_world {B : Type} (obs : world -> B) : unchanged obs get_world.
Proof. by intros w a w' [= <- <-]. Qed.

Lemma unchanged_undefined {B A : Type} (obs : world -> B) : unchanged obs (@undefined A).
Proof. by intros w a w'. Qed.

Lemma unchanged_lift_option {B A : Type} (obs : world -> B) (o : option A) :
  unchanged obs (lift_option o).
Proof. intros w a w'. unfold lift_option. destruct o; [|done]. by intros [= <- <-]. Qed.

Lemma unchanged_modify_zc {B : Type} (obs : world -> B) (f : zclient -> zclient) :
  (forall w, obs (set_zc (f (zc w)) w) = obs w) -> unchanged obs (modify_zc f).
Proof. intros Hf w a w' [= <- <-]. apply Hf. Qed.

Lemma unchanged_modify_world {B : Type} (obs : world -> B) (f : world -> world) :
  (forall w, obs (f w) = obs w) -> unchanged obs (modify_world f).
Proof. intros Hf w a w' [= <- <-]. apply Hf. Qed.

Lemma unchanged_emit {B : Type} (obs : world -> B) (e : io_event) :
  (forall w, obs (set_trace (trace w ++ [e]) w) = obs w) -> unchanged obs (emit e).
Proof. intros Hf w a w' [= <- <-]. apply Hf. Qed.

Lemma invariant_ret {A : Type} (I : world -> Prop) (a : A) : invariant I (mret a).
Proof. by intros w a' w' Hw [= <- <-]. Qed.

Lemma invariant_bind {A C : Type} (I : world -> Prop) (m : M A) (k : A -> M C) :
  invariant I m -> (forall a, invariant I (k a)) -> invariant I (m ≫= k).
Proof.
  intros Hm Hk w b w' Hw. unfold mbind, M_bind.
  destruct (m w) as [[a w1]|] eqn:E; [|done].
  apply Hk. eauto.
Qed.

Lemma unchanged_invariant {B A : Type} (obs : world -> B) (I : world -> Prop) (m : M A) :
  (forall w w', obs w' = obs w -> I w -> I w') -> unchanged obs m -> invariant I m.
Proof. intros HI Hm w a w' Hw E. eapply HI; [|done]. by eapply Hm. Qed.

Lemma open_descriptors_snoc (t : list io_event) (e : io_event) :
  open_descriptors (t ++ [e]) = descriptor_step (open_descriptors t) e.
Proof. unfold open_descriptors. by rewrite foldl_app. Qed.

Lemma connection_tidy (w w' : world) :
  connection w' = connection w -> descriptors_tidy w -> descriptors_tidy w'.
Proof. unfold connection, descriptors_tidy. intros [= -> ->]. done. Qed.

Lemma writing_tidy (w w' : world) :
  writing w' = writing w -> write_tidy w -> write_tidy w'.
Proof.
  unfold writing, write_tidy. intros [= En Ew Et Eq]. by rewrite En, Ew, Et, Eq.
Qed.

(** One step of a proof that code leaves an observation alone. *)
Ltac unchanged_step :=
  match goal with
  | |- unchanged _ (_ ≫= _) => apply unchanged_bind; [|intros ?]
  | |- unchanged _ (if ?c then _ else _) => destruct c
  | |- unchanged _ (match ?x with _ => _ end) => destruct x
  | |- unchanged _ (mret _) => apply unchanged_ret
  | |- unchanged _ get_zc => apply unchanged_get_zc
  | |- unchanged _ get_world => apply unchanged_get_world
  | |- unchanged _ undefined => apply unchanged_undefined
  | |- unchanged _ (lift_option _) => apply unchanged_lift_option
  | |- unchanged _ (modify_zc _) =>
      apply unchanged_modify_zc; intros ?; cbn; try destruct (qf _); reflexivity
  | |- unchanged _ (modify_world _) => apply unchanged_modify_world; intros ?; reflexivity
  | |- unchanged _ (emit _) =>
      apply unchanged_emit; intros ?; cbv [connection writing]; cbn;
      rewrite ?open_descriptors_snoc; reflexivity
  | |- unchanged _ _ => progress cbv zeta
  end.

Ltac unchanged_auto := repeat unchanged_step.

Section Unchanged.

Context `{zh : zebra_h} {B : Type}.

Lemma unchanged_on_obuf (obs : world -> B) (f : stream -> option stream) :
  (forall w s, obs (set_zc (set_obuf s (zc w)) w) = obs w) -> unchanged obs (on_obuf f).
Proof.
  intros H. unfold on_obuf. apply unchanged_bind; [apply unchanged_get_zc|]. intros c.
  apply unchanged_bind; [apply unchanged_lift_option|]. intros s.
  apply unchanged_modify_zc. intros w. apply H.
Qed.

End Unchanged.
Create HintDb unchanged_db.

Create HintDb invariant_db.

Ltac unchanged_all := repeat first [unchanged_step | solve [auto with unchanged_db]].

(** One step of a proof that code keeps an invariant. *)
Ltac invariant_step :=
  match goal with
  | |- invariant _ (_ ≫= _) => apply invariant_bind; [|intros ?]
  | |- invariant _ (if ?c then _ else _) => destruct c
  | |- invariant _ (match ?x with _ => _ end) => destruct x
  | |- invariant _ (mret _) => apply invariant_ret
  | |- invariant _ _ => progress cbv zeta
  | |- invariant _ _ => solve [auto with invariant_db]
  | |- invariant descriptors_tidy _ =>
      apply (unchanged_invariant connection); [exact connection_tidy | solve [unchanged_all]]
  | |- invariant write_tidy _ =>
      apply (unchanged_invariant writing); [exact writing_tidy | solve [unchanged_all]]
  end.

Ltac invariant_auto := repeat invariant_step.

Section Descriptors.

Context `{zh : zebra_h}.

Lemma connection_zclient_event (ev : event) : unchanged connection (zclient_event ev).
Proof.
  unfold zclient_event, zclient_event_r, zclient_event_t. destruct ev; unchanged_auto.
Qed.

Lemma connection_on_obuf (f : stream -> option stream) : unchanged connection (on_obuf f).
Proof. unfold on_obuf. unchanged_auto. Qed.

Lemma connection_on_ibuf (f : stream -> option stream) : unchanged connection (on_ibuf f).
Proof. unfold on_ibuf. unchanged_auto. Qed.

Lemma connection_ibuf_get (f : stream -> option (Z * stream)) :
  unchanged connection (ibuf_get f).
Proof. unfold ibuf_get. unchanged_auto. Qed.

Lemma connection_on_qf (f : qps_file -> qps_file) : unchanged connection (on_qf f).
Proof. unfold on_qf. unchanged_auto. Qed.

Lemma connection_THREAD_WRITE_ON (fd : Z) : unchanged connection (THREAD_WRITE_ON fd).
Proof. unfold THREAD_WRITE_ON. unchanged_auto. Qed.

Lemma connection_stream_read_try (size : Z) : unchanged connection (stream_read_try size).
Proof. unfold stream_read_try. unchanged_auto. Qed.

Lemma connection_buffer_write (fd : Z) (p : list Z) : unchanged connection (buffer_write fd p).
Proof.
  intros w a w'. unfold buffer_write, connection.
  destruct (k_write w (n_write w)); intros [= <- <-]; cbn;
    by rewrite open_descriptors_snoc.
Qed.

Lemma connection_buffer_flush_available (fd : Z) :
  unchanged connection (buffer_flush_available fd).
Proof.
  intros w a w'. unfold buffer_flush_available, connection.
  destruct (k_write w (n_write w)); intros [= <- <-]; cbn;
    by rewrite open_descriptors_snoc.
Qed.

End Descriptors.

#[global] Hint Resolve connection_zclient_event connection_on_obuf connection_on_ibuf
  connection_ibuf_get connection_on_qf connection_THREAD_WRITE_ON
  connection_stream_read_try connection_buffer_write connection_buffer_flush_available
  : unchanged_db.

Section DescriptorsKept.

Context `{zh : zebra_h}.

Lemma tidy_zclient_stop : invariant descriptors_tidy zclient_stop.
Proof.
  intros w [] w' Hw. rewrite zclient_stop_run. intros [= <-].
  unfold descriptors_tidy, stopped in *. cbn.
  destruct (Z.geb_spec (sock (zc w)) 0).
  - rewrite open_descriptors_snoc, Hw. cbn.
    case_decide; done.
  - destruct (Z.geb_spec (sock (zc w)) 0); [lia|]. by rewrite app_nil_r.
Qed.

Lemma zclient_stop_no_socket (w w' : world) :
  zclient_stop w = Some (tt, w') -> sock (zc w') < 0.
Proof.
  rewrite zclient_stop_run. intros [= <-]. cbn.
  destruct (Z.geb_spec (sock (zc w)) 0); lia.
Qed.

(** A connect on a client that has no socket. *)
Lemma tidy_zclient_socket_connect (w w' : world) (fd : Z) :
  descriptors_tidy w -> sock (zc w) < 0 ->
  zclient_socket_connect w = Some (fd, w') -> descriptors_tidy w'.
Proof.
  unfold descriptors_tidy, zclient_socket_connect. munfold. cbn.
  intros Hw Hs [= <- <-]. cbn. rewrite open_descriptors_snoc, Hw. cbn.
  destruct (Z.geb_spec (sock (zc w)) 0); [lia|]. done.
Qed.

#[local] Hint Resolve tidy_zclient_stop : invariant_db.

Lemma tidy_zclient_failed : invariant descriptors_tidy zclient_failed.
Proof. unfold zclient_failed. invariant_auto. Qed.

#[local] Hint Resolve tidy_zclient_failed : invariant_db.

Lemma tidy_zclient_send_message : invariant descriptors_tidy zclient_send_message.
Proof. unfold zclient_send_message. invariant_auto. Qed.

#[local] Hint Resolve tidy_zclient_send_message : invariant_db.

Lemma tidy_zclient_flush_data_r : invariant descriptors_tidy zclient_flush_data_r.
Proof. unfold zclient_flush_data_r. invariant_auto. Qed.

Lemma tidy_zclient_flush_data_t : invariant descriptors_tidy zclient_flush_data_t.
Proof. unfold zclient_flush_data_t. invariant_auto. Qed.

Lemma tidy_zebra_message_send (command : Z) :
  invariant descriptors_tidy (zebra_message_send command).
Proof. unfold zebra_message_send. invariant_auto. Qed.

Lemma tidy_zebra_hello_send : invariant descriptors_tidy zebra_hello_send.
Proof. unfold zebra_hello_send. invariant_auto. Qed.

Lemma tidy_zebra_redistribute_send (command type : Z) :
  invariant descriptors_tidy (zebra_redistribute_send command type).
Proof. unfold zebra_redistribute_send. invariant_auto. Qed.

#[local] Hint Resolve tidy_zclient_flush_data_r tidy_zclient_flush_data_t
  tidy_zebra_message_send tidy_zebra_hello_send tidy_zebra_redistribute_send
  : invariant_db.

Lemma tidy_zapi_ipv4_route (cmd : Z) (p : prefix) (api : zapi) :
  invariant descriptors_tidy (zapi_ipv4_route cmd p api).
Proof. unfold zapi_ipv4_route. invariant_auto. Qed.

Lemma tidy_zapi_ipv6_route (cmd : Z) (p : prefix) (api : zapi) :
  invariant descriptors_tidy (zapi_ipv6_route cmd p api).
Proof. unfold zapi_ipv6_route. invariant_auto. Qed.

Lemma tidy_zclient_start_redist (n : nat) (i : Z) :
  invariant descriptors_tidy (zclient_start_redist n i).
Proof. revert i. induction n as [|n IH]; intros i; cbn [zclient_start_redist]; invariant_auto. Qed.

#[local] Hint Resolve tidy_zapi_ipv4_route tidy_zapi_ipv6_route tidy_zclient_start_redist
  : invariant_db.

Lemma tidy_zclient_start : invariant descriptors_tidy zclient_start.
Proof.
  intros w r w' Hw. unfold zclient_start.
  rewrite (bind_run get_zc _ _ _ _ eq_refl).
  destruct (negb (truthy (enable (zc w)))); [by intros [= <- <-]|].
  destruct (Z.geb_spec (sock (zc w)) 0) as [|Hs]; [by intros [= <- <-]|].
  destruct (bool_decide (is_Some (t_connect (zc w)))); [by intros [= <- <-]|].
  destruct (qtimer_is_active (qtr (zc w))); [by intros [= <- <-]|].
  unfold mbind at 1, M_bind at 1.
  destruct (zclient_socket_connect w) as [[fd w1]|] eqn:E; [|done].
  pose proof (tidy_zclient_socket_connect w w1 fd Hw Hs E) as Hw1.
  cbv beta.
  match goal with
  | |- ?m w1 = _ -> _ =>
      assert (invariant descriptors_tidy m) as Hinv by invariant_auto;
      intros E2; exact (Hinv w1 r w' Hw1 E2)
  end.
Qed.

#[local] Hint Resolve tidy_zclient_start : invariant_db.

Lemma tidy_zclient_connect_r : invariant descriptors_tidy zclient_connect_r.
Proof. unfold zclient_connect_r. invariant_auto. Qed.

Lemma tidy_zclient_connect_t : invariant descriptors_tidy zclient_connect_t.
Proof. unfold zclient_connect_t. invariant_auto. Qed.

Lemma tidy_zlookup_connect_t : invariant descriptors_tidy zlookup_connect_t.
Proof.
  intros w r w' Hw. unfold zlookup_connect_t.
  rewrite (bind_run _ _ _ _ _ (eq_refl : modify_zc _ w = Some (tt, _))).
  rewrite (bind_run get_zc _ _ _ _ eq_refl).
  cbn [sock zc set_zc set_t_connect].
  destruct (Z.ltb_spec (sock (zc w)) 0) as [Hs|Hs].
  - rewrite !bind_assoc_M. unfold mbind at 1, M_bind at 1.
    destruct (zclient_socket_connect _) as [[fd w1]|] eqn:E; [|done].
    apply tidy_zclient_socket_connect in E; [|done..].
    by intros [= <- <-].
  - by intros [= <- <-].
Qed.

Lemma tidy_zlookup_connect_r : invariant descriptors_tidy zlookup_connect_r.
Proof.
  intros w r w' Hw. unfold zlookup_connect_r.
  rewrite (bind_run _ _ _ _ _ (eq_refl : modify_zc _ w = Some (tt, _))).
  rewrite (bind_run get_zc _ _ _ _ eq_refl).
  cbn [sock zc set_zc set_qtr].
  destruct (Z.ltb_spec (sock (zc w)) 0) as [Hs|Hs].
  - unfold mbind at 1, M_bind at 1.
    destruct (zclient_socket_connect _) as [[fd w1]|] eqn:E; [|done].
    apply tidy_zclient_socket_connect in E; [|done..].
    by intros [= <- <-].
  - by intros [= <- <-].
Qed.

Lemma invariant_call_handler (I : world -> Prop) (h : option handler) (command length : Z) :
  (forall w e, I w -> I (set_trace (trace w ++ [IoHandler e.1 e.2]) w)) ->
  (forall f, h = Some f -> forall command length, invariant I (f command length)) ->
  invariant I (call_handler h command length).
Proof.
  intros He Hh. unfold call_handler. destruct h as [f|]; [|apply invariant_ret].
  apply invariant_bind.
  { intros w [] w' Hw [= <-]. apply (He w (command, length) Hw). }
  intros _. apply invariant_bind; [by apply Hh|]. intros _. apply invariant_ret.
Qed.

Lemma invariant_zclient_read_dispatch (I : world -> Prop) (hs : handlers)
    (command length : Z) :
  (forall w e, I w -> I (set_trace (trace w ++ [IoHandler e.1 e.2]) w)) ->
  handlers_keep I hs ->
  invariant I (zclient_read_dispatch hs command length).
Proof.
  intros He Hhs. unfold zclient_read_dispatch.
  repeat match goal with
         | |- invariant _ (if ?c then _ else _) => destruct c
         end;
    try apply invariant_ret;
    (apply invariant_call_handler; [done|]); apply Hhs;
    repeat first [apply list_elem_of_here | apply list_elem_of_further].
Qed.

Lemma tidy_handler_event (w : world) (e : Z * Z) :
  descriptors_tidy w -> descriptors_tidy (set_trace (trace w ++ [IoHandler e.1 e.2]) w).
Proof. unfold descriptors_tidy. cbn. by rewrite open_descriptors_snoc. Qed.

Lemma tidy_zclient_read (hs : handlers) :
  handlers_keep descriptors_tidy hs -> invariant descriptors_tidy (zclient_read hs).
Proof.
  intros Hhs.
  pose proof (fun c l => invariant_zclient_read_dispatch descriptors_tidy hs c l
                           tidy_handler_event Hhs) as Hd.
  unfold zclient_read, zclient_read_header, zclient_read_packet. invariant_auto.
Qed.

Lemma tidy_zclient_redistribute (command type : Z) :
  invariant descriptors_tidy (zclient_redistribute command type).
Proof. unfold zclient_redistribute. invariant_auto. Qed.

Lemma tidy_zclient_redistribute_default (command : Z) :
  invariant descriptors_tidy (zclient_redistribute_default command).
Proof. unfold zclient_redistribute_default. invariant_auto. Qed.

(** [zclient_init] on a client that has no socket. *)
Lemma tidy_zclient_init (redist_default : Z) (w w' : world) :
  descriptors_tidy w -> sock (zc w) < 0 ->
  zclient_init redist_default w = Some (tt, w') -> descriptors_tidy w'.
Proof.
  intros Hw Hs E. destruct (zclient_init_closes_nothing_run _ _ _ E) as (Es & Et).
  unfold descriptors_tidy in *. rewrite Es, Et, Hw.
  by destruct (Z.geb_spec (sock (zc w)) 0); [lia|].
Qed.

#[local] Hint Resolve tidy_zclient_connect_r tidy_zclient_connect_t tidy_zlookup_connect_t
  tidy_zlookup_connect_r tidy_zclient_redistribute tidy_zclient_redistribute_default
  : invariant_db.

Lemma tidy_react (e : reactor_event) (w w' : world) :
  tidy_event w e -> descriptors_tidy w -> react e w = Some (tt, w') ->
  descriptors_tidy w'.
Proof.
  intros Hok Hw. unfold react. rewrite (bind_run get_zc _ _ _ _ eq_refl).
  assert (forall m : M unit, invariant descriptors_tidy m ->
            m w = Some (tt, w') -> descriptors_tidy w') as Hvia.
  { intros m Hm E. by apply (Hm w tt w'). }
  destruct e as [c| | hs | | | hs | | |]; [destruct c; cbn [run_call] | ..].
  - apply Hvia. unfold zclient_init_r. invariant_auto.
  - by apply tidy_zclient_init.
  - apply Hvia. unfold zlookup_schedule. invariant_auto.
  - apply Hvia. invariant_auto.
  - unfold zclient_reset. unfold mbind at 1, M_bind at 1.
    destruct (zclient_stop w) as [[[] w1]|] eqn:E; [|done].
    rewrite (bind_run get_zc _ _ _ _ eq_refl).
    apply tidy_zclient_init.
    + by apply (tidy_zclient_stop w tt w1).
    + by apply (zclient_stop_no_socket w).
  - apply Hvia. invariant_auto.
  - apply Hvia. invariant_auto.
  - apply Hvia. invariant_auto.
  - apply Hvia. invariant_auto.
  - apply Hvia. invariant_auto.
  - apply Hvia. invariant_auto.
  - apply Hvia. invariant_auto.
  - destruct (t_connect (zc w)) as [[? []]|]; try (by intros [= <-]);
      apply Hvia; invariant_auto.
  - destruct (t_read (zc w)); [|by intros [= <-]].
    apply Hvia. unfold zclient_read_t.
    pose proof (tidy_zclient_read hs Hok). invariant_auto.
  - destruct (t_write (zc w)); [|by intros [= <-]]. apply Hvia. invariant_auto.
  - destruct (qtr (zc w)) as [[[[? []]|]]|]; try (by intros [= <-]);
      apply Hvia; invariant_auto.
  - destruct (qf (zc w)) as [[? [?|] ?]|]; try by intros [= <-].
    apply Hvia. unfold zclient_read_r.
    pose proof (tidy_zclient_read hs Hok). invariant_auto.
  - destruct (qf (zc w)) as [[? ? [?|]]|]; try (by intros [= <-]).
    apply Hvia. invariant_auto.
  - apply Hvia. invariant_auto.
  - apply Hvia. invariant_auto.
Qed.

(** X23.  The client loses no descriptor.  Every descriptor a connect has
    given is closed before the client forgets it: along any run of events,
    the descriptors that the trace shows open are the socket of the client,
    if it has one, and no other.  The one call that breaks this is
    [zclient_init] on a client that has a socket, which drops the descriptor
    without a close. *)
Theorem no_descriptor_lost (w w' : world) (es : list reactor_event) :
  descriptors_tidy w -> guarded_run tidy_event w es w' -> descriptors_tidy w'.
Proof.
  intros Hw Hrun. induction Hrun as [|w w1 w2 e es Hok Hreact _ IH]; [done|].
  apply IH. by apply (tidy_react e w w1).
Qed.

End DescriptorsKept.
Section Writing.

Context `{zh : zebra_h}.

Lemma writing_zclient_event (ev : event) : unchanged writing (zclient_event ev).
Proof.
  intros w a w'.
  unfold zclient_event, zclient_event_r, zclient_event_t, writing. munfold.
  destruct (zclient_nexus w) eqn:En, ev; cbn;
    repeat match goal with
           | |- context [if ?c then _ else _] => destruct c; cbn
           | |- context [match qtr (zc w) with _ => _ end] =>
               destruct (qtr (zc w)); cbn
           | |- context [match qf (zc w) with _ => _ end] =>
               destruct (qf (zc w)) eqn:?; cbn
           end;
    intros E; simplify_eq; cbn; rewrite ?En; try done.
Qed.

Lemma writing_on_obuf (f : stream -> option stream) : unchanged writing (on_obuf f).
Proof. unfold on_obuf. unchanged_auto. Qed.

Lemma writing_on_ibuf (f : stream -> option stream) : unchanged writing (on_ibuf f).
Proof. unfold on_ibuf. unchanged_auto. Qed.

Lemma writing_ibuf_get (f : stream -> option (Z * stream)) : unchanged writing (ibuf_get f).
Proof. unfold ibuf_get. unchanged_auto. Qed.

Lemma writing_stream_read_try (size : Z) : unchanged writing (stream_read_try size).
Proof. unfold stream_read_try. unchanged_auto. Qed.

Lemma writing_zclient_socket_connect : unchanged writing zclient_socket_connect.
Proof. unfold zclient_socket_connect. unchanged_auto. Qed.

Lemma writing_on_qf_read (f : qps_file -> qps_file) :
  (forall q, qf_write (f q) = qf_write q) -> unchanged writing (on_qf f).
Proof.
  intros Hf w a w'. unfold on_qf, writing. munfold.
  destruct (qf (zc w)) as [q|] eqn:Eq; [|done]. intros [= <- <-]. cbn.
  by rewrite Hf.
Qed.

End Writing.

#[global] Hint Resolve writing_zclient_event writing_on_obuf writing_on_ibuf
  writing_ibuf_get writing_stream_read_try writing_zclient_socket_connect
  : unchanged_db.

Section WritingKept.

Context `{zh : zebra_h}.

Lemma steady_on_qf_disable_read : invariant write_tidy (on_qf qps_disable_read).
Proof.
  apply (unchanged_invariant writing); [exact writing_tidy|].
  by apply writing_on_qf_read.
Qed.

(** Dropping the write mode, or the modes of a file just added, keeps the
    invariant on either back-end. *)
Lemma steady_on_qf_disarm (f : qps_file -> qps_file) :
  (forall q, qf_write (f q) = None) -> invariant write_tidy (on_qf f).
Proof.
  intros Hf w a w'. unfold on_qf, write_tidy. munfold.
  destruct (qf (zc w)) as [q|] eqn:Eq; [|done]. intros Hw [= <- <-]. cbn.
  rewrite Hf. destruct (zclient_nexus w); cbn.
  - split; [apply Hw|]. by intros [? [=]].
  - split; [done|apply Hw].
Qed.

Lemma steady_zclient_stop : invariant write_tidy zclient_stop.
Proof.
  intros w [] w' _. rewrite zclient_stop_run. intros [= <-].
  unfold write_tidy, stopped. cbn.
  destruct (zclient_nexus w), (qf (zc w)); cbn; split; try done;
    by intros [? [=]].
Qed.

#[local] Hint Resolve steady_on_qf_disable_read steady_zclient_stop : invariant_db.

Lemma steady_zclient_failed : invariant write_tidy zclient_failed.
Proof. unfold zclient_failed. invariant_auto. Qed.

#[local] Hint Resolve steady_zclient_failed : invariant_db.

Lemma steady_zclient_send_message : invariant write_tidy zclient_send_message.
Proof.
  intros w r w' Hw. unfold zclient_send_message.
  rewrite (bind_run get_zc _ _ _ _ eq_refl).
  destruct (sock (zc w) <? 0); [by intros [= <- <-]|].
  unfold mbind at 1, M_bind at 1, buffer_write at 1.
  destruct (k_write w (n_write w)) as [k|] eqn:Ek; cbv zeta beta iota.
  - destruct w as [n c kc nc kw nw rq ri tr].
    destruct c as [so en fa rd re di ib ob wbuf tr0 tw tc qf0 qt].
    unfold write_tidy, on_qf, THREAD_WRITE_ON in *. munfold. cbn in Hw. clear Ek.
    destruct (drop k _) as [|b rest];
      destruct n, qf0 as [[? ? [?|]]|], tw; cbn in Hw |- *; destruct Hw as [H1 H2];
      intros E; simplify_eq; cbn; (split; [done|]); try (by intros [? [=]]); try done.
  - rewrite (bind_run get_world _ _ _ _ eq_refl).
    apply steady_zclient_failed. revert Hw. by apply writing_tidy.
Qed.

(** The flush of each back-end, on a client of that back-end. *)
Lemma steady_zclient_flush_data_r (w w' : world) :
  write_tidy w -> zclient_nexus w = true ->
  zclient_flush_data_r w = Some (tt, w') -> write_tidy w'.
Proof.
  intros Hw Hn. unfold zclient_flush_data_r.
  unfold mbind at 1, M_bind at 1, on_qf at 1. munfold.
  destruct (qf (zc w)) as [q|] eqn:Eq; [|done]. cbn.
  assert (write_tidy (set_zc (set_qf (Some (qps_disable_write q)) (zc w)) w)) as Hw1.
  { revert Hw. unfold write_tidy. cbn. rewrite Hn.
    intros [H1 H2]. split; [done|]. by intros [? [=]]. }
  destruct (sock (zc w) <? 0); [by intros [= <-]|].
  unfold buffer_flush_available at 1. cbn.
  destruct (k_write w (n_write w)) as [k|] eqn:Ek.
  - clear Hw1. destruct w as [n c kc nc kw nw rq ri tr].
    destruct c as [so en fa rd re di ib ob wbuf tr0 tw tc qf0 qt].
    unfold write_tidy, on_qf in *. munfold. cbn in Hw, Hn, Eq. subst n qf0. clear Ek.
    destruct Hw as [H1 H2]. subst tw.
    destruct (drop k _) as [|b rest]; cbn;
      intros E; simplify_eq; cbn; (split; [done|]); try (by intros [? [=]]); try done.
  - destruct (zclient_failed _) as [[x w1]|] eqn:E; [|done]. intros [= <-].
    apply steady_zclient_failed in E; [done|].
    revert Hw1. by apply writing_tidy.
Qed.

Lemma steady_zclient_flush_data_t (w w' : world) (r : Z) :
  write_tidy w -> zclient_nexus w = false ->
  zclient_flush_data_t w = Some (r, w') -> write_tidy w'.
Proof.
  intros Hw Hn. unfold zclient_flush_data_t.
  rewrite (bind_run _ _ _ _ _ (eq_refl : modify_zc _ w = Some (tt, _))).
  rewrite (bind_run get_zc _ _ _ _ eq_refl). cbn [sock zc set_zc set_t_write].
  assert (write_tidy (set_zc (set_t_write None (zc w)) w)) as Hw1.
  { revert Hw. unfold write_tidy. cbn. rewrite Hn.
    intros [H1 H2]. split; [done|]. by intros [? [=]]. }
  destruct (sock (zc w) <? 0); [by intros [= <- <-]|].
  unfold mbind at 1, M_bind at 1, buffer_flush_available at 1. cbn.
  destruct (k_write w (n_write w)) as [k|] eqn:Ek.
  - clear Hw1. destruct w as [n c kc nc kw nw rq ri tr].
    destruct c as [so en fa rd re di ib ob wbuf tr0 tw tc qf0 qt].
    unfold write_tidy in *. munfold. cbn in Hw, Hn. subst n. clear Ek.
    destruct Hw as [H1 H2].
    destruct (drop k _) as [|b rest]; cbn;
      intros E; simplify_eq; cbn; (split; [done|]); try (by intros [? [=]]); try done.
  - apply steady_zclient_failed. revert Hw1. by apply writing_tidy.
Qed.

#[local] Hint Resolve steady_zclient_send_message : invariant_db.

Lemma steady_zebra_message_send (command : Z) :
  invariant write_tidy (zebra_message_send command).
Proof. unfold zebra_message_send. invariant_auto. Qed.

Lemma steady_zebra_hello_send : invariant write_tidy zebra_hello_send.
Proof. unfold zebra_hello_send. invariant_auto. Qed.

Lemma steady_zebra_redistribute_send (command type : Z) :
  invariant write_tidy (zebra_redistribute_send command type).
Proof. unfold zebra_redistribute_send. invariant_auto. Qed.

#[local] Hint Resolve steady_zebra_message_send steady_zebra_hello_send
  steady_zebra_redistribute_send : invariant_db.

Lemma steady_zapi_ipv4_route (cmd : Z) (p : prefix) (api : zapi) :
  invariant write_tidy (zapi_ipv4_route cmd p api).
Proof. unfold zapi_ipv4_route. invariant_auto. Qed.

Lemma steady_zapi_ipv6_route (cmd : Z) (p : prefix) (api : zapi) :
  invariant write_tidy (zapi_ipv6_route cmd p api).
Proof. unfold zapi_ipv6_route. invariant_auto. Qed.

Lemma steady_zclient_start_redist (n : nat) (i : Z) :
  invariant write_tidy (zclient_start_redist n i).
Proof. revert i. induction n as [|n IH]; intros i; cbn [zclient_start_redist]; invariant_auto. Qed.

#[local] Hint Resolve steady_zapi_ipv4_route steady_zapi_ipv6_route
  steady_zclient_start_redist : invariant_db.

Lemma steady_zclient_start : invariant write_tidy zclient_start.
Proof.
  pose proof (fun fd => steady_on_qf_disarm (fun q => qps_add_file q fd)
                          (fun _ => eq_refl)).
  unfold zclient_start. invariant_auto.
Qed.

#[local] Hint Resolve steady_zclient_start : invariant_db.

Lemma steady_zclient_connect_r : invariant write_tidy zclient_connect_r.
Proof. unfold zclient_connect_r. invariant_auto. Qed.

Lemma steady_zclient_connect_t : invariant write_tidy zclient_connect_t.
Proof. unfold zclient_connect_t. invariant_auto. Qed.

Lemma steady_zlookup_connect_t : invariant write_tidy zlookup_connect_t.
Proof. unfold zlookup_connect_t. invariant_auto. Qed.

Lemma steady_zlookup_connect_r : invariant write_tidy zlookup_connect_r.
Proof. unfold zlookup_connect_r. invariant_auto. Qed.

Lemma steady_handler_event (w : world) (e : Z * Z) :
  write_tidy w -> write_tidy (set_trace (trace w ++ [IoHandler e.1 e.2]) w).
Proof. by apply writing_tidy. Qed.

Lemma steady_zclient_read (hs : handlers) :
  handlers_keep write_tidy hs -> invariant write_tidy (zclient_read hs).
Proof.
  intros Hhs.
  pose proof (fun c l => invariant_zclient_read_dispatch write_tidy hs c l
                           steady_handler_event Hhs) as Hd.
  unfold zclient_read, zclient_read_header, zclient_read_packet. invariant_auto.
Qed.

Lemma steady_zclient_redistribute (command type : Z) :
  invariant write_tidy (zclient_redistribute command type).
Proof. unfold zclient_redistribute. invariant_auto. Qed.

Lemma steady_zclient_redistribute_default (command : Z) :
  invariant write_tidy (zclient_redistribute_default command).
Proof. unfold zclient_redistribute_default. invariant_auto. Qed.

Lemma steady_zclient_init (redist_default : Z) :
  invariant write_tidy (zclient_init redist_default).
Proof. unfold zclient_init. invariant_auto. Qed.

#[local] Hint Resolve steady_zclient_connect_r steady_zclient_connect_t
  steady_zlookup_connect_t steady_zlookup_connect_r steady_zclient_redistribute
  steady_zclient_redistribute_default steady_zclient_init : invariant_db.

Lemma steady_react (e : reactor_event) (w w' : world) :
  steady_event w e -> write_tidy w -> react e w = Some (tt, w') -> write_tidy w'.
Proof.
  intros Hok Hw. unfold react. rewrite (bind_run get_zc _ _ _ _ eq_refl).
  assert (forall m : M unit, invariant write_tidy m ->
            m w = Some (tt, w') -> write_tidy w') as Hvia.
  { intros m Hm E. by apply (Hm w tt w'). }
  destruct e as [c| | hs | | | hs | | |]; [destruct c; cbn [run_call] | ..].
  - cbn in Hok. subst n. intros [= <-]. by destruct w.
  - apply Hvia. invariant_auto.
  - apply Hvia. unfold zlookup_schedule. invariant_auto.
  - apply Hvia. invariant_auto.
  - apply Hvia. unfold zclient_reset. invariant_auto.
  - apply Hvia. invariant_auto.
  - apply Hvia. invariant_auto.
  - apply Hvia. invariant_auto.
  - apply Hvia. invariant_auto.
  - apply Hvia. invariant_auto.
  - apply Hvia. invariant_auto.
  - apply Hvia. invariant_auto.
  - destruct (t_connect (zc w)) as [[? []]|]; try (by intros [= <-]);
      apply Hvia; invariant_auto.
  - destruct (t_read (zc w)); [|by intros [= <-]].
    apply Hvia. unfold zclient_read_t.
    pose proof (steady_zclient_read hs Hok). invariant_auto.
  - destruct (t_write (zc w)) as [t|] eqn:Et; [|by intros [= <-]].
    destruct (zclient_nexus w) eqn:En.
    { exfalso. revert Hw. unfold write_tidy. rewrite En, Et. by intros [[=] _]. }
    unfold mbind, M_bind.
    destruct (zclient_flush_data_t w) as [[r w1]|] eqn:E; [|done]. intros [= <-].
    by apply (steady_zclient_flush_data_t w w1 r).
  - destruct (qtr (zc w)) as [[[[? []]|]]|]; try (by intros [= <-]);
      apply Hvia; invariant_auto.
  - destruct (qf (zc w)) as [[? [?|] ?]|]; try by intros [= <-].
    apply Hvia. unfold zclient_read_r.
    pose proof (steady_zclient_read hs Hok). invariant_auto.
  - destruct (qf (zc w)) as [[? ? [?|]]|] eqn:Eq; try (by intros [= <-]).
    destruct (zclient_nexus w) eqn:En.
    + by apply steady_zclient_flush_data_r.
    + exfalso. revert Hw. unfold write_tidy. rewrite En, Eq. by intros [[=] _].
  - apply Hvia. invariant_auto.
  - apply Hvia. invariant_auto.
Qed.

(** X24.  Write-readiness is armed only while bytes wait.  Along any run of
    events on one back-end, the client waits for its socket to be writable
    only when its write buffer holds bytes the kernel did not take, and only
    with the token of the back-end in use: a flush that empties the buffer,
    a stop and a failure all disarm it.  A change of the back-end in the
    middle of a run is the one call that breaks this. *)
Theorem write_armed_only_when_pending (w w' : world) (es : list reactor_event) :
  write_tidy w -> guarded_run steady_event w es w' -> write_tidy w'.
Proof.
  intros Hw Hrun. induction Hrun as [|w w1 w2 e es Hok Hreact _ IH]; [done|].
  apply IH. by apply (steady_react e w w1).
Qed.

End WritingKept.

(** * The claims at concrete inputs

    The constants are those of [quagga_h]. *)

Section Concrete.

#[local] Existing Instance quagga_h.

Lemma demo_prefix_ok (api : zapi) :
  Forall (fun addr => (4 <= length addr)%nat) (nexthop api) ->
  route_args_ok 4 demo_prefix api.
Proof. intros H. split; [|done]. vm_compute. split; discriminate. Qed.

Lemma length_field_counts_bytes_witness :
  st_size (stream_new 4096) < 65536
  /\ patches_length (zapi_ipv4_route_obuf 7 demo_prefix demo_blackhole_nexthop)
       (ipv4_route_frame 7 demo_prefix demo_blackhole_nexthop)
       (stream_new 4096).
Proof.
  split; [reflexivity|].
  refine (proj1 (length_field_counts_bytes (stream_new 4096) _)
            7 demo_prefix demo_blackhole_nexthop _); [reflexivity|].
  apply demo_prefix_ok. repeat constructor.
Defined.

Lemma blackhole_route_frame_witness :
  zapi_ipv4_route_obuf 7 demo_prefix demo_blackhole (stream_new 4096)
  = Some (holding [0; 15; 255; 2; 0; 7; 1; 4; 1; 0; 1; 8; 10; 1; 9] (stream_new 4096)).
Proof.
  rewrite (blackhole_route_frame 7 demo_prefix demo_blackhole
             (stream_new 4096)).
  - vm_compute. reflexivity.
  - apply demo_prefix_ok. constructor.
  - vm_compute. reflexivity.
  - vm_compute. reflexivity.
  - reflexivity.
  - reflexivity.
Defined.

Lemma blackhole_route_extra_entries_witness :
  zapi_ipv4_route_obuf 7 demo_prefix demo_blackhole_nexthop
    (stream_new 4096)
  = Some (holding [0; 25; 255; 2; 0; 7; 1; 4; 1; 0; 1; 8; 10;
                   1; 9; 3; 192; 168; 0; 1; 1; 0; 0; 0; 3] (stream_new 4096)).
Proof.
  destruct (blackhole_route_extra_entries 7 demo_prefix
              demo_blackhole_nexthop (stream_new 4096)) as [E _].
  - apply demo_prefix_ok. repeat constructor.
  - vm_compute. reflexivity.
  - vm_compute. reflexivity.
  - left. reflexivity.
  - rewrite E. vm_compute. reflexivity.
Defined.


Lemma demo_world_ready (kw : nat -> option nat) : start_ready (demo_world kw).
Proof. split; try done. Qed.

Lemma redistribute_replay_witness :
  exists w' ts,
    zclient_start (demo_world (fun _ => Some 4096%nat)) = Some (0, w')
    /\ sent w' = sent (demo_world (fun _ => Some 4096%nat))
         ++ (if truthy (redist_default demo_client)
             then [type_frame ZEBRA_HELLO (redist_default demo_client)] else [])
         ++ [message_frame ZEBRA_ROUTER_ID_ADD; message_frame ZEBRA_INTERFACE_ADD]
         ++ (type_frame ZEBRA_REDISTRIBUTE_ADD <$> ts)
         ++ (if truthy (default_information demo_client)
             then [message_frame ZEBRA_REDISTRIBUTE_DEFAULT_ADD] else [])
    /\ StronglySorted Z.lt ts
    /\ NoDup ts
    /\ forall t, t ∈ ts <->
         t <> redist_default demo_client
         /\ exists r, array_get (redist demo_client) t = Some r /\ r <> 0.
Proof.
  refine (redistribute_replay (demo_world (fun _ => Some 4096%nat)) 5
            (demo_world_ready _) eq_refl _ _).
  - discriminate.
  - intros i _. discriminate.
Defined.

Lemma handshake_in_order_until_error_witness :
  exists w', zclient_start (demo_world (fails_at 3)) = Some (0, w')
    /\ sent w' = [[0; 7; 255; 2; 0; 23; 9]; [0; 6; 255; 2; 0; 20]; [0; 6; 255; 2; 0; 1]]
    /\ sock (zc w') = -1 /\ fail (zc w') = 1 /\ connect_timer w' = Some 10.
Proof.
  refine (handshake_in_order_until_error (demo_world (fails_at 3)) 5 3
            (demo_world_ready _) eq_refl _ _ _ _).
  - discriminate.
  - intros [|[|[|i]]] Hi; (discriminate || lia).
  - reflexivity.
  - vm_compute. repeat constructor.
Defined.

Lemma bad_header_fails_witness :
  exists w', zclient_read no_handlers (demo_connected 5 [0; 6; 254; 2; 0; 1]) = Some (-1, w')
    /\ fail (zc w') = 1
    /\ sock (zc w') = -1
    /\ trace w' = [IoConnect 5; IoClose 5]
    /\ st_data (ibuf (zc w')) = [] /\ st_data (obuf (zc w')) = [] /\ wb (zc w') = []
    /\ t_read (zc w') = None /\ t_write (zc w') = None
    /\ connect_timer w' = Some 10
    /\ (0 + 1 < 10 -> is_Some (connect_timer w')).
Proof.
  refine (bad_header_fails no_handlers (demo_connected 5 [0; 6; 254; 2; 0; 1])
            0 6 254 2 0 1 _ _ _ eq_refl _).
  - intros [=].
  - discriminate.
  - discriminate.
  - left. discriminate.
Defined.

Lemma redistribute_idempotent_witness :
  exists w1,
    zclient_redistribute ZEBRA_REDISTRIBUTE_ADD 3 (demo_connected 5 []) = Some (tt, w1)
    /\ zclient_redistribute ZEBRA_REDISTRIBUTE_ADD 3 w1 = Some (tt, w1)
    /\ sent w1 = [[0; 7; 255; 2; 0; 11; 3]].
Proof.
  destruct (redistribute_idempotent (demo_connected 5 []) 3) as [(w1 & E1 & E2 & _ & Hs) _].
  - intros [=].
  - discriminate.
  - split; [discriminate | reflexivity].
  - exists w1. split; [exact E1|]. split; [exact E2|].
    apply Hs; [reflexivity | reflexivity | discriminate].
Defined.

Lemma descriptor_zero_is_not_sent_witness :
  (exists w', zclient_redistribute ZEBRA_REDISTRIBUTE_ADD 3 (demo_connected 0 [])
              = Some (tt, w')
     /\ array_get (redist (zc w')) 3 = Some 1
     /\ trace w' = [IoConnect 0])
  /\ (exists r w' st rest, zclient_send_message (demo_connected 0 []) = Some (r, w')
        /\ trace w' = [IoConnect 0] ++ IoWrite 0 [] st :: rest).
Proof.
  destruct (descriptor_zero_is_not_sent (demo_connected 0 []) eq_refl) as (H1 & _ & H3).
  split.
  - exact (H1 ZEBRA_REDISTRIBUTE_ADD 3 0 eq_refl eq_refl).
  - apply H3. intros [=].
Defined.

Lemma redist_default_stays_subscribed_witness :
  exists w1 w2,
    zclient_init 9 (boot false (fun _ => -1) (fun _ => None)) = Some (tt, w1)
    /\ allowed_run w1 [Call (Zclient_redistribute ZEBRA_REDISTRIBUTE_ADD 2);
                       Thread_connect;
                       Call (Zclient_redistribute ZEBRA_REDISTRIBUTE_DELETE 2);
                       Call (Zclient_redistribute ZEBRA_REDISTRIBUTE_ADD 9)] w2
    /\ redist_default_subscribed w2.
Proof.
  eassert (zclient_init 9 (boot false (fun _ => -1) (fun _ => None)) = Some (tt, _)) as H1
    by (vm_compute; reflexivity).
  match type of H1 with
  | _ = Some (_, ?w1) =>
      eassert (allowed_run w1 [Call (Zclient_redistribute ZEBRA_REDISTRIBUTE_ADD 2);
                               Thread_connect;
                               Call (Zclient_redistribute ZEBRA_REDISTRIBUTE_DELETE 2);
                               Call (Zclient_redistribute ZEBRA_REDISTRIBUTE_ADD 9)] _)
        as H2
  end.
  { eapply allowed_cons; [left; reflexivity | vm_compute; reflexivity |].
    eapply allowed_cons; [exact I | vm_compute; reflexivity |].
    eapply allowed_cons; [right; discriminate | vm_compute; reflexivity |].
    eapply allowed_cons; [left; reflexivity | vm_compute; reflexivity |].
    apply allowed_nil. }
  exact (ex_intro _ _ (ex_intro _ _
           (conj H1 (conj H2 (redist_default_stays_subscribed 9 _ _ _ _ H1 H2))))).
Defined.

(** C1, as the claim states it, fails: after [zclient_init] with the own
    type 9, the call of [zclient_redistribute] with REDISTRIBUTE_DELETE on
    the type 9 clears the flag of the own type. *)
Lemma redist_default_cleared_by_delete :
  exists w1 w2,
    zclient_init 9 (boot false (fun _ => -1) (fun _ => None)) = Some (tt, w1)
    /\ run [Call (Zclient_redistribute ZEBRA_REDISTRIBUTE_DELETE 9)] w1 = Some (tt, w2)
    /\ redist_default (zc w2) = 9
    /\ array_get (redist (zc w2)) (redist_default (zc w2)) = Some 0
    /\ ~ redist_default_subscribed w2.
Proof.
  do 2 eexists. split; [vm_compute; reflexivity|].
  split; [vm_compute; reflexivity|].
  split; [reflexivity|]. split; [reflexivity|]. discriminate.
Qed.

(** C4, as the claim states it, fails: the connect succeeds and the types
    2 and 5 are subscribed, but the socket refuses the fifth write of the
    handshake.  [zclient_start] answers 0, and the REDISTRIBUTE_ADD for the
    type 2 is the only one that is sent: there is none for the type 5. *)
Lemma redistribute_replay_cut_short :
  exists w',
    zclient_start (demo_world (fails_at 4)) = Some (0, w')
    /\ k_connect (demo_world (fails_at 4)) (n_connect (demo_world (fails_at 4))) = 5
    /\ array_get (redist demo_client) 2 = Some 1
    /\ array_get (redist demo_client) 5 = Some 1
    /\ redist_default demo_client = 9
    /\ sent w' = [type_frame ZEBRA_HELLO 9; message_frame ZEBRA_ROUTER_ID_ADD;
                  message_frame ZEBRA_INTERFACE_ADD;
                  type_frame ZEBRA_REDISTRIBUTE_ADD 2]
    /\ Forall (fun f => f <> type_frame ZEBRA_REDISTRIBUTE_ADD 5) (sent w').
Proof.
  eexists. split; [vm_compute; reflexivity|].
  split; [reflexivity|]. split; [reflexivity|]. split; [reflexivity|].
  split; [reflexivity|]. split; [reflexivity|].
  vm_compute. repeat constructor; discriminate.
Qed.

(** C8, as the claim states it, fails: two calls with ADD for the type 3,
    which is not subscribed, send no message at all on a client that is
    connected on the descriptor 0, and none on a client that is not
    connected; the flag of the type is set all the same.  Two calls with
    ADD for the type 2, which is subscribed, change and send nothing on a
    connected client. *)
Lemma redistribute_twice_sends_nothing :
  (exists w1,
     sock (zc (demo_connected 0 [])) = 0
     /\ array_get (redist (zc (demo_connected 0 []))) 3 = Some 0
     /\ zclient_redistribute ZEBRA_REDISTRIBUTE_ADD 3 (demo_connected 0 [])
        = Some (tt, w1)
     /\ zclient_redistribute ZEBRA_REDISTRIBUTE_ADD 3 w1 = Some (tt, w1)
     /\ array_get (redist (zc w1)) 3 = Some 1
     /\ trace w1 = trace (demo_connected 0 []) /\ sent w1 = [])
  /\ (exists w1,
        sock (zc (demo_world (fun _ => Some 4096%nat))) = -1
        /\ zclient_redistribute ZEBRA_REDISTRIBUTE_ADD 3
             (demo_world (fun _ => Some 4096%nat)) = Some (tt, w1)
        /\ zclient_redistribute ZEBRA_REDISTRIBUTE_ADD 3 w1 = Some (tt, w1)
        /\ array_get (redist (zc w1)) 3 = Some 1
        /\ trace w1 = [] /\ sent w1 = [])
  /\ sock (zc (demo_connected 5 [])) = 5
  /\ array_get (redist (zc (demo_connected 5 []))) 2 = Some 1
  /\ zclient_redistribute ZEBRA_REDISTRIBUTE_ADD 2 (demo_connected 5 [])
     = Some (tt, demo_connected 5 [])
  /\ sent (demo_connected 5 []) = [].
Proof.
  split; [|split].
  - eexists. split; [reflexivity|]. split; [reflexivity|].
    split; [vm_compute; reflexivity|]. split; [vm_compute; reflexivity|].
    split; [reflexivity|]. split; reflexivity.
  - eexists. split; [reflexivity|].
    split; [vm_compute; reflexivity|]. split; [vm_compute; reflexivity|].
    split; [reflexivity|]. split; reflexivity.
  - split; [reflexivity|]. split; [reflexivity|].
    split; [vm_compute; reflexivity|]. reflexivity.
Qed.

End Concrete.

(** * The further properties at concrete inputs

    The constants are those of [quagga_h], the registry that of
    [demo_if_h]. *)

Section ConcreteFurther.

#[local] Existing Instance quagga_h.
#[local] Existing Instance demo_if_h.

Lemma if_set_value_decodes_witness :
  zebra_interface_if_set_value (demo_stream demo_values) demo_interface
  = Some ({| ifp_ifindex := 3; ifp_status := 1; ifp_flags := 69699;
             ifp_metric := -1; ifp_mtu := 1500; ifp_mtu6 := 1500; ifp_bandwidth := 0;
             ifp_hw_addr_len := 0; ifp_hw_addr := replicate 20 0 |},
          stream_forward (demo_stream demo_values) 29).
Proof.
  refine (if_set_value_decodes (demo_stream demo_values) demo_interface []
            [0; 0; 0; 0; 0; 1; 16; 67] 3 1 4294967295 1500 1500 0 _ _ _ _ _ _ _ _).
  - vm_compute. split; discriminate.
  - vm_compute. reflexivity.
  - lia.
  - lia.
  - lia.
  - lia.
  - lia.
  - reflexivity.
Defined.

Lemma router_id_update_read_decodes_witness :
  zebra_router_id_update_read (demo_stream [2; 10; 0; 0; 1; 32])
    {| pfx_family := 0; pfx_prefixlen := 0; pfx_u := replicate 16 7 |}
  = Some ({| pfx_family := 2; pfx_prefixlen := 32;
             pfx_u := [10; 0; 0; 1] ++ replicate 12 7 |},
          stream_forward (demo_stream [2; 10; 0; 0; 1; 32]) 6).
Proof.
  refine (router_id_update_read_decodes (demo_stream [2; 10; 0; 0; 1; 32])
            {| pfx_family := 0; pfx_prefixlen := 0; pfx_u := replicate 16 7 |}
            2 32 [10; 0; 0; 1] [] _ _ _ _).
  - vm_compute. split; discriminate.
  - reflexivity.
  - reflexivity.
  - cbn. lia.
Defined.

Lemma interface_state_read_decodes_witness :
  zebra_interface_state_read (demo_stream (demo_name ++ demo_values))
  = Some (Some {| ifp_ifindex := 3; ifp_status := 1; ifp_flags := 69699;
                  ifp_metric := -1; ifp_mtu := 1500; ifp_mtu6 := 1500;
                  ifp_bandwidth := 0;
                  ifp_hw_addr_len := 0; ifp_hw_addr := replicate 20 0 |},
          stream_forward (demo_stream (demo_name ++ demo_values)) 49).
Proof.
  refine (interface_state_read_decodes (demo_stream (demo_name ++ demo_values))
            demo_name [] [0; 0; 0; 0; 0; 1; 16; 67] 3 1 4294967295 1500 1500 0
            _ _ _ _ _ _ _ _ _).
  - vm_compute. split; discriminate.
  - vm_compute. reflexivity.
  - reflexivity.
  - lia.
  - lia.
  - lia.
  - lia.
  - lia.
  - reflexivity.
Defined.

Lemma interface_add_read_decodes_witness :
  zebra_interface_add_read
    (demo_stream (demo_name ++ demo_values ++ be32 6 ++ [0; 1; 2; 3; 4; 5]))
  = Some ({| ifp_ifindex := 3; ifp_status := 1; ifp_flags := 69699;
             ifp_metric := -1; ifp_mtu := 1500; ifp_mtu6 := 1500; ifp_bandwidth := 0;
             ifp_hw_addr_len := 6;
             ifp_hw_addr := [0; 1; 2; 3; 4; 5] ++ replicate 14 0 |},
          stream_forward
            (demo_stream (demo_name ++ demo_values ++ be32 6 ++ [0; 1; 2; 3; 4; 5]))
            59).
Proof.
  refine (interface_add_read_decodes
            (demo_stream (demo_name ++ demo_values ++ be32 6 ++ [0; 1; 2; 3; 4; 5]))
            demo_name [] [0; 0; 0; 0; 0; 1; 16; 67] [0; 1; 2; 3; 4; 5]
            3 1 4294967295 1500 1500 0 _ _ _ _ _ _ _ _ _ _).
  - vm_compute. split; discriminate.
  - vm_compute. reflexivity.
  - reflexivity.
  - lia.
  - lia.
  - lia.
  - lia.
  - lia.
  - reflexivity.
  - reflexivity.
Defined.

Lemma memconstant_all_equal_witness :
  memconstant [0; 0; 0; 7] 0 3 = Some 1 /\ memconstant [0; 0; 0; 7] 0 4 = Some 0.
Proof.
  split.
  - refine (memconstant_all_equal [0; 0; 0; 7] 0 3 _). cbn. lia.
  - refine (memconstant_all_equal [0; 0; 0; 7] 0 4 _). cbn. lia.
Defined.

Lemma interface_address_read_add_witness :
  zebra_interface_address_read ZEBRA_INTERFACE_ADDRESS_ADD (demo_stream demo_address)
  = Some (Some {| conn_flags := 1;
                  conn_address := Some (local_prefix 2 24 [10; 0; 0; 1]);
                  conn_destination := Some (local_prefix 2 24 [10; 0; 0; 255]) |},
          stream_forward (demo_stream demo_address) 15).
Proof.
  refine (interface_address_read_add (demo_stream demo_address) demo_interface
            3 1 2 24 [10; 0; 0; 1] [10; 0; 0; 255] [] _ _ _ _ _ _ _).
  - vm_compute. split; discriminate.
  - reflexivity.
  - lia.
  - reflexivity.
  - reflexivity.
  - reflexivity.
  - cbn. lia.
Defined.

Lemma interface_address_read_other_witness :
  zebra_interface_address_read ZEBRA_INTERFACE_ADDRESS_DELETE (demo_stream demo_address)
  = Some (Some {| conn_flags := 0;
                  conn_address := Some (local_prefix 2 24 [10; 0; 0; 1]);
                  conn_destination := None |},
          stream_forward (demo_stream demo_address) 15).
Proof.
  refine (interface_address_read_other ZEBRA_INTERFACE_ADDRESS_DELETE
            (demo_stream demo_address)
            3 1 2 24 [10; 0; 0; 1] [10; 0; 0; 255] [] _ _ _ _ _ _ _).
  - vm_compute. split; discriminate.
  - reflexivity.
  - lia.
  - reflexivity.
  - reflexivity.
  - cbn. lia.
  - discriminate.
Defined.

Lemma frame_in_pieces_witness :
  run (feed false no_handlers [[0; 8; 255]; [2; 0]; [5; 1; 2]]) (demo_connected 5 [])
  = run (feed false no_handlers [[0; 8; 255; 2; 0; 5; 1; 2]]) (demo_connected 5 []).
Proof.
  refine (frame_in_pieces no_handlers (demo_connected 5 []) 5 [1; 2] [5; 1; 2]
            [[0; 8; 255]; [2; 0]] _ _ _ _ _ _ _ _ _).
  - vm_compute. reflexivity.
  - lia.
  - discriminate.
  - vm_compute. by eexists.
  - reflexivity.
  - reflexivity.
  - vm_compute. discriminate.
  - reflexivity.
  - discriminate.
Defined.

Lemma short_read_keeps_bytes_witness :
  exists w', zclient_read no_handlers (demo_connected 5 [0; 8; 255]) = Some (0, w')
    /\ st_data (ibuf (zc w')) = [0; 8; 255]
    /\ rxq w' = []
    /\ trace w' = [IoConnect 5]
    /\ sock (zc w') = 5 /\ fail (zc w') = 0
    /\ read_armed w'.
Proof.
  refine (short_read_keeps_bytes no_handlers (demo_connected 5 [0; 8; 255]) 5 [1; 2]
            [2; 0; 5; 1; 2] _ _ _ _ _ _ _).
  - vm_compute. reflexivity.
  - lia.
  - discriminate.
  - reflexivity.
  - vm_compute. discriminate.
  - reflexivity.
  - discriminate.
Defined.

Lemma frame_handled_witness :
  zclient_read demo_handlers (demo_connected 5 [0; 8; 255; 2; 0; 5; 1; 2; 0; 6])
  = Some (0, set_trace [IoConnect 5; IoHandler 5 2] (demo_connected 5 [0; 6])).
Proof.
  refine (frame_handled demo_handlers
            (demo_connected 5 [0; 8; 255; 2; 0; 5; 1; 2; 0; 6])
            (set_trace [IoConnect 5; IoHandler 5 2]
               (set_rxq [0; 6]
                  (with_ibuf {| st_size := 4096; st_getp := 6;
                                st_data := [0; 8; 255; 2; 0; 5; 1; 2] |}
                     (demo_connected 5 []))))
            5 0 [1; 2] [0; 6] (fun _ _ => mret 0) _ _ _ _ _ _ _ _).
  - vm_compute. reflexivity.
  - lia.
  - vm_compute. discriminate.
  - vm_compute. discriminate.
  - reflexivity.
  - reflexivity.
  - reflexivity.
  - discriminate.
Defined.

Lemma frame_dropped_witness :
  exists w',
    zclient_read no_handlers (demo_connected 5 [0; 8; 255; 2; 0; 5; 1; 2; 0; 6])
    = Some (0, w')
    /\ ibuf (zc w') = stream_new 4096
    /\ rxq w' = [0; 6]
    /\ trace w' = [IoConnect 5]
    /\ sock (zc w') = 5 /\ fail (zc w') = 0
    /\ read_armed w'.
Proof.
  refine (frame_dropped no_handlers
            (demo_connected 5 [0; 8; 255; 2; 0; 5; 1; 2; 0; 6]) 5 [1; 2] [0; 6]
            _ _ _ _ _ _ _ _).
  - vm_compute. reflexivity.
  - lia.
  - discriminate.
  - vm_compute. discriminate.
  - vm_compute. discriminate.
  - vm_compute. discriminate.
  - reflexivity.
  - reflexivity.
Defined.


Lemma zclient_init_defined_iff_witness :
  is_Some (zclient_init 9 (demo_connected 5 []))
  /\ ~ is_Some (zclient_init 11 (demo_connected 5 [])).
Proof.
  split.
  - refine (proj2 (zclient_init_defined_iff 9 (demo_connected 5 []) _) _).
    + discriminate.
    + vm_compute. split; [discriminate | reflexivity].
  - intros H.
    refine (match proj1 (zclient_init_defined_iff 11 (demo_connected 5 []) _) H
            with conj _ Hlt => _ end).
    + discriminate.
    + vm_compute in Hlt. discriminate Hlt.
Defined.

Lemma zclient_init_closes_nothing_witness :
  let w := demo_connected 5 [] in
  let w' := initialised 9 w in
  sock (zc w') = -1 /\ trace w' = trace w
  /\ t_read (zc w') = t_read (zc w) /\ t_write (zc w') = t_write (zc w)
  /\ qf (zc w') = qf (zc w)
  /\ ibuf (zc w') = ibuf (zc w) /\ obuf (zc w') = obuf (zc w) /\ wb (zc w') = wb (zc w)
  /\ (is_Some (t_connect (zc w)) -> t_connect (zc w') = t_connect (zc w))
  /\ (qtimer_is_active (qtr (zc w)) = true -> qtr (zc w') = qtr (zc w)).
Proof.
  refine (zclient_init_closes_nothing 9 (demo_connected 5 [])
            (initialised 9 (demo_connected 5 [])) _).
  vm_compute. reflexivity.
Defined.

Lemma zclient_reset_forgets_witness :
  exists w', zclient_reset (demo_connected 5 []) = Some (tt, w')
    /\ redist_default (zc w') = 9
    /\ (forall t, 0 <= t < 11 ->
          array_get (redist (zc w')) t = Some (if t =? 9 then 1 else 0))
    /\ default_information (zc w') = 0
    /\ enable (zc w') = 1 /\ sock (zc w') = -1 /\ fail (zc w') = 0
    /\ handshake (zc w')
       = [type_frame ZEBRA_HELLO 9;
          message_frame ZEBRA_ROUTER_ID_ADD; message_frame ZEBRA_INTERFACE_ADD]
    /\ t_connect (zc w') = Some (mk_thread THREAD_EVENT F_zclient_connect_t).
Proof.
  refine (zclient_reset_forgets (demo_connected 5 []) _ _).
  - discriminate.
  - vm_compute. split; [discriminate | reflexivity].
Defined.

Lemma demo_blackhole_ok : route_args_ok 4 demo_prefix demo_blackhole.
Proof. split; [|constructor]. vm_compute. split; discriminate. Qed.

Lemma route_send_outcome_witness :
  exists r w', zapi_ipv4_route 7 demo_prefix demo_blackhole (demo_connected 5 [])
               = Some (r, w')
    /\ r = 0
    /\ sent w' = [ipv4_route_frame 7 demo_prefix demo_blackhole]
    /\ sock (zc w') = 5 /\ fail (zc w') = 0.
Proof.
  refine (route_send_outcome false 7 demo_prefix demo_blackhole (demo_connected 5 [])
            _ _ _).
  - exact demo_blackhole_ok.
  - discriminate.
  - vm_compute. discriminate.
Defined.

Lemma redistribute_default_requests_witness :
  (exists w1,
     zclient_redistribute_default ZEBRA_REDISTRIBUTE_DEFAULT_ADD (demo_connected 5 [])
     = Some (tt, w1)
     /\ zclient_redistribute_default ZEBRA_REDISTRIBUTE_DEFAULT_ADD w1 = Some (tt, w1)
     /\ (sent w1 = []
         \/ sent w1 = [] ++ [message_frame ZEBRA_REDISTRIBUTE_DEFAULT_ADD]))
  /\ zclient_redistribute_default ZEBRA_REDISTRIBUTE_DEFAULT_DELETE (demo_connected 5 [])
     = Some (tt, demo_connected 5 []).
Proof.
  refine (match redistribute_default_requests (demo_connected 5 []) _ _
          with conj Hadd Hdel => conj Hadd (Hdel ZEBRA_REDISTRIBUTE_DEFAULT_DELETE _) end).
  - discriminate.
  - vm_compute. discriminate.
  - discriminate.
Defined.

Lemma subscribe_then_unsubscribe_witness :
  exists w1 w2,
    zclient_redistribute ZEBRA_REDISTRIBUTE_ADD 3 (demo_connected 5 []) = Some (tt, w1)
    /\ zclient_redistribute ZEBRA_REDISTRIBUTE_DELETE 3 w1 = Some (tt, w2)
    /\ redist (zc w2) = [0; 0; 1; 0; 0; 1; 0; 0; 0; 1; 0]
    /\ sent w2 = [type_frame ZEBRA_REDISTRIBUTE_ADD 3;
                  type_frame ZEBRA_REDISTRIBUTE_DELETE 3].
Proof.
  refine (subscribe_then_unsubscribe (demo_connected 5 []) 3 _ _ _ _ _ _ _).
  - discriminate.
  - vm_compute. discriminate.
  - reflexivity.
  - reflexivity.
  - discriminate.
  - discriminate.
  - discriminate.
Defined.

Lemma route_frame_length_witness :
  stream_get_endp
    (holding [0; 25; 255; 2; 0; 7; 1; 4; 1; 0; 1; 8; 10;
              1; 9; 3; 192; 168; 0; 1; 1; 0; 0; 0; 3] (stream_new 4096))
  = 12 + 1 + (2 + 5 * 1 + 5 * 1) + 0 + 0.
Proof.
  refine (route_frame_length false 7 demo_prefix demo_blackhole_nexthop
            (stream_new 4096)
            (holding [0; 25; 255; 2; 0; 7; 1; 4; 1; 0; 1; 8; 10;
                      1; 9; 3; 192; 168; 0; 1; 1; 0; 0; 0; 3] (stream_new 4096))
            _ _).
  - vm_compute. reflexivity.
  - apply demo_prefix_ok. repeat constructor.
Defined.

Lemma route_frame_read_back_witness :
  zclient_read no_handlers
    (demo_connected 5 ([0; 15; 255; 2; 0; 7; 1; 4; 1; 0; 1; 8; 10; 1; 9] ++ [0; 6]))
  = (zclient_read_dispatch no_handlers 7 9;; after_dispatch)
      (set_rxq [0; 6]
         (with_ibuf {| st_size := 4096; st_getp := 6;
                       st_data := [0; 15; 255; 2; 0; 7; 1; 4; 1; 0; 1; 8; 10; 1; 9] |}
            (demo_connected 5
               ([0; 15; 255; 2; 0; 7; 1; 4; 1; 0; 1; 8; 10; 1; 9] ++ [0; 6])))).
Proof.
  refine (route_frame_read_back false no_handlers
            (demo_connected 5
               ([0; 15; 255; 2; 0; 7; 1; 4; 1; 0; 1; 8; 10; 1; 9] ++ [0; 6]))
            7 demo_prefix demo_blackhole (stream_new 4096)
            (holding [0; 15; 255; 2; 0; 7; 1; 4; 1; 0; 1; 8; 10; 1; 9] (stream_new 4096))
            [0; 6] _ _ _ _ _ _ _).
  - vm_compute. reflexivity.
  - exact demo_blackhole_ok.
  - lia.
  - reflexivity.
  - vm_compute. discriminate.
  - reflexivity.
  - reflexivity.
Defined.

Lemma no_descriptor_lost_witness :
  exists w',
    guarded_run tidy_event (boot false (fun _ => 5) (fun _ => None))
      [Call (Zclient_init 9); Thread_connect; Call Zclient_stop] w'
    /\ descriptors_tidy w'.
Proof.
  assert ({w' | guarded_run tidy_event (boot false (fun _ => 5) (fun _ => None))
                  [Call (Zclient_init 9); Thread_connect; Call Zclient_stop] w'})
    as [w' Hrun].
  { eexists.
    eapply guarded_cons; [reflexivity | vm_compute; reflexivity |].
    eapply guarded_cons; [exact I | vm_compute; reflexivity |].
    eapply guarded_cons; [exact I | vm_compute; reflexivity |].
    apply guarded_nil. }
  exists w'. split; [exact Hrun|].
  refine (no_descriptor_lost (boot false (fun _ => 5) (fun _ => None)) w' _ _ Hrun).
  reflexivity.
Defined.

Lemma write_armed_only_when_pending_witness :
  exists w',
    guarded_run steady_event (demo_slow 5)
      [Call (Zebra_redistribute_send ZEBRA_REDISTRIBUTE_ADD 3); Thread_write;
       Thread_write] w'
    /\ write_tidy w'.
Proof.
  assert ({w' | guarded_run steady_event (demo_slow 5)
                  [Call (Zebra_redistribute_send ZEBRA_REDISTRIBUTE_ADD 3);
                   Thread_write; Thread_write] w'})
    as [w' Hrun].
  { eexists.
    eapply guarded_cons; [exact I | vm_compute; reflexivity |].
    eapply guarded_cons; [exact I | vm_compute; reflexivity |].
    eapply guarded_cons; [exact I | vm_compute; reflexivity |].
    apply guarded_nil. }
  exists w'. split; [exact Hrun|].
  refine (write_armed_only_when_pending (demo_slow 5) w' _ _ Hrun).
  split; [reflexivity|]. intros [? [=]].
Defined.

End ConcreteFurther.
